(** * Pulse habit tracker: streaks, store operations and reminder evaluation

    A shallow embedding of [src/habit-tracker/src/app/page.tsx].  The
    functions of the page are translated one by one; the parts of the
    JavaScript platform they call (strings, [Number], [Set], [Date],
    [JSON.parse]) are modelled in the modules [JSString], [JSSet],
    [JSArray], [JSNumber], [JSDate] and [JSON] below.

    Conventions of the model:
    - a JavaScript string is a [string]: its code units, for the ASCII
      and Latin-1 text that ids, dates, times and keys are made of,
      compared and sorted code unit by code unit as [Array.prototype.sort]
      does; [trim] and [Number] take the code units 9 to 13, 32 and 160
      for white space, which is what they are in such text.  The emoji
      literals, which are display only, are given by the bytes they have
      in the source file, and nothing is stated of the emoji of a habit;
    - a JavaScript number that takes part in arithmetic on parsed text is a
      binary64 [float]; clock fields and time values, which are integers, are
      kept in [Z];
    - a [Date] is its time value, the milliseconds since the epoch, and the
      local time zone is a fixed offset [tza] (milliseconds east of UTC)
      that every function reading local fields takes as an argument.  The
      functions are written for every integer; a [Date] holds the time
      values of [timeValue] only, and past them [toISOString] throws, so
      the theorems on date keys bound the days ([keyDay]) or state that
      range. *)

From Stdlib Require Import ZArith Lia Bool List String Ascii Floats.
From Stdlib Require Import Sorted Permutation OrdersEx DecimalString RelationClasses.
Import ListNotations.

Local Open Scope string_scope.
Local Open Scope list_scope.
Local Open Scope Z_scope.

(** ** Strings *)

Module JSString.

(** The code units of [WhiteSpace] and [LineTerminator] below 256. *)
Definition isWhiteSpace (c : ascii) : bool :=
  existsb (N.eqb (N_of_ascii c)) [9; 10; 11; 12; 13; 32; 160]%N.

Fixpoint trimStart (s : string) : string :=
  match s with
  | EmptyString => EmptyString
  | String c r => if isWhiteSpace c then trimStart r else s
  end.

Fixpoint trimEnd (s : string) : string :=
  match s with
  | EmptyString => EmptyString
  | String c r =>
      match trimEnd r with
      | EmptyString => if isWhiteSpace c then EmptyString else String c EmptyString
      | r' => String c r'
      end
  end.

(** [String.prototype.trim]. *)
Definition trim (s : string) : string := trimEnd (trimStart s).

(** [s.split(sep)] for a separator of one code unit: never empty. *)
Fixpoint split (sep : ascii) (s : string) : list string :=
  match s with
  | EmptyString => [EmptyString]
  | String c r =>
      if Ascii.eqb c sep then EmptyString :: split sep r
      else match split sep r with
           | h :: t => String c h :: t
           | [] => [String c EmptyString]
           end
  end.

(** [s.slice(0, n)]. *)
Definition slice0 (n : nat) (s : string) : string := substring 0 n s.

(** An empty string is falsy, every other string truthy. *)
Definition truthy (s : string) : bool := negb (s =? "")%string.

(** The order of the default [sort]: code units, left to right. *)
Definition ltb (a b : string) : bool :=
  match String_as_OT.compare a b with Lt => true | _ => false end.

Definition lt (a b : string) : Prop := String_as_OT.lt a b.

Fixpoint insert (x : string) (l : list string) : list string :=
  match l with
  | [] => [x]
  | y :: r => if ltb y x then y :: insert x r else x :: l
  end.

(** [arr.sort()] on an array of strings. *)
Definition sort (l : list string) : list string := fold_right insert [] l.

(** Decimal text of an integer, as [String(n)] prints one. *)
Definition ofZ (z : Z) : string := NilZero.string_of_int (Z.to_int z).

End JSString.

(** ** Sets of strings

    A [Set] keeps its members in insertion order, which is the order
    [Array.from] reads them back in. *)

Module JSSet.

Definition t := list string.

Definition has (s : t) (x : string) : bool := existsb (String.eqb x) s.

Definition add (s : t) (x : string) : t := if has s x then s else s ++ [x].

Definition delete (s : t) (x : string) : t :=
  filter (fun y => negb (String.eqb y x)) s.

(** [new Set(arr)]. *)
Definition ofArray (l : list string) : t := fold_left add l [].

(** [Array.from(set)]. *)
Definition toArray (s : t) : list string := s.

End JSSet.

(** ** Arrays of strings *)

Module JSArray.

(** [arr.includes(x)] on an array of strings. *)
Definition includes (l : list string) (x : string) : bool :=
  existsb (String.eqb x) l.

(** [arr.join(sep)] on an array of strings. *)
Fixpoint join (sep : string) (l : list string) : string :=
  match l with
  | [] => EmptyString
  | x :: r =>
      match r with
      | [] => x
      | _ :: _ => (x ++ sep ++ join sep r)%string
      end
  end.

End JSArray.

(** ** Numbers

    [Number(text)] follows the grammar of [StringNumericLiteral]: white
    space around an optional literal; an empty string is [+0], a text
    outside the grammar is [NaN].  The value of a decimal literal is its
    mathematical value rounded to the nearest binary64. *)

Module JSNumber.

Definition digitValue (base : Z) (c : ascii) : option Z :=
  let n := Z.of_N (N_of_ascii c) in
  let v := if (48 <=? n) && (n <=? 57) then n - 48
           else if (97 <=? n) && (n <=? 102) then n - 87
           else if (65 <=? n) && (n <=? 70) then n - 55
           else base in
  if v <? base then Some v else None.

(** The longest prefix of digits, most significant first, and the rest. *)
Fixpoint spanDigits (base : Z) (l : list ascii) : list Z * list ascii :=
  match l with
  | [] => ([], [])
  | c :: r =>
      match digitValue base c with
      | Some v => let '(ds, rest) := spanDigits base r in (v :: ds, rest)
      | None => ([], l)
      end
  end.

Definition valueOf (base : Z) (ds : list Z) : Z :=
  fold_left (fun acc d => acc * base + d) ds 0.

(** The binary64 nearest to an integer. *)
Definition ofZ (z : Z) : float := SF2Prim (binary_normalize prec emax z 0 false).

(** The binary64 nearest to [(-1)^neg * m * 10^e], for [0 <= m]. *)
Definition ofDecimal (neg : bool) (m e : Z) : float :=
  match m with
  | Zpos p =>
      if 0 <=? e
      then SF2Prim (binary_normalize prec emax
                      (if neg then - (m * 10 ^ e) else m * 10 ^ e) 0 false)
      else SF2Prim (SFdiv prec emax (S754_finite neg p 0)
                      (S754_finite false (Z.to_pos (10 ^ (- e))) 0))
  | _ => if neg then neg_zero else zero
  end.

Definition nonDecimal (base : Z) (l : list ascii) : float :=
  match spanDigits base l with
  | ((_ :: _) as ds, []) => ofZ (valueOf base ds)
  | _ => nan
  end.

(** [ExponentPart] when present, then the end of the literal. *)
Definition exponent (l : list ascii) : option Z :=
  match l with
  | [] => Some 0
  | c :: r =>
      if (Ascii.eqb c "e" || Ascii.eqb c "E")%bool then
        let '(neg, r') :=
          match r with
          | s :: r' => if Ascii.eqb s "-" then (true, r')
                       else if Ascii.eqb s "+" then (false, r') else (false, r)
          | [] => (false, r)
          end in
        match spanDigits 10 r' with
        | ((_ :: _) as ds, []) => Some (if neg then - valueOf 10 ds else valueOf 10 ds)
        | _ => None
        end
      else None
  end.

Definition unsignedDecimal (neg : bool) (l : list ascii) : float :=
  if String.eqb (string_of_list_ascii l) "Infinity"
  then (if neg then neg_infinity else infinity)
  else
    let '(ip, r1) := spanDigits 10 l in
    let '(fp, r2) :=
      match r1 with
      | c :: r => if Ascii.eqb c "." then spanDigits 10 r else ([], r1)
      | [] => ([], r1)
      end in
    match ip, fp with
    | [], [] => nan
    | _, _ =>
        match exponent r2 with
        | Some e => ofDecimal neg (valueOf 10 (ip ++ fp)) (e - Z.of_nat (List.length fp))
        | None => nan
        end
    end.

Definition prefixed (l : list ascii) : option (Z * list ascii) :=
  match l with
  | z :: k :: r =>
      if Ascii.eqb z "0" then
        if (Ascii.eqb k "x" || Ascii.eqb k "X")%bool then Some (16, r)
        else if (Ascii.eqb k "o" || Ascii.eqb k "O")%bool then Some (8, r)
        else if (Ascii.eqb k "b" || Ascii.eqb k "B")%bool then Some (2, r)
        else None
      else None
  | _ => None
  end.

(** [Number(s)] for a string [s]. *)
Definition Number (s : string) : float :=
  match list_ascii_of_string (JSString.trim s) with
  | [] => zero
  | (c :: r) as l =>
      match prefixed l with
      | Some (base, ds) => nonDecimal base ds
      | None =>
          if Ascii.eqb c "-" then unsignedDecimal true r
          else if Ascii.eqb c "+" then unsignedDecimal false r
          else unsignedDecimal false l
      end
  end.

(** A value read out of an array by destructuring: a number, or
    [undefined] past the end of the array. *)
Definition value := option float.

(** [ToNumber]: [undefined] becomes [NaN]. *)
Definition ToNumber (v : value) : float :=
  match v with Some x => x | None => nan end.

(** [Number.isNaN]: false on everything that is not a number. *)
Definition isNaN (v : value) : bool :=
  match v with Some x => is_nan x | None => false end.

End JSNumber.

(** ** Dates

    A [Date] is its time value: milliseconds since 1970-01-01T00:00:00Z.
    Time values are unbounded integers here (the clipping at 8.64e15 ms is
    left out), and the local time zone is a fixed offset. *)

Module JSDate.

Definition Date := Z.

Definition msPerSecond : Z := 1000.
Definition msPerMinute : Z := 60000.
Definition msPerHour : Z := 3600000.
Definition msPerDay : Z := 86400000.

Definition Day (t : Z) : Z := t / msPerDay.
Definition TimeWithinDay (t : Z) : Z := t mod msPerDay.

(** The proleptic Gregorian calendar, computed by eras of 400 years that
    start on the first of March: [doe] is the day of the era, [yoe] the
    year of the era, [mp] the month counted from March.  An era is four
    centuries of 36524 days and a leap day; a century is 25 groups of
    four years, 1461 days each but for the last, which has no leap day. *)
Definition daysPerEra : Z := 146097.
Definition epochShift : Z := 719468.

Definition yearOfEra (doe : Z) : Z :=
  let century := Z.min (doe / 36524) 3 in
  let doc := doe - 36524 * century in
  let quad := doc / 1461 in
  let doq := doc - 1461 * quad in
  let year := Z.min (doq / 365) 3 in
  100 * century + 4 * quad + year.

Definition dayOfYear (doe : Z) : Z :=
  let yoe := yearOfEra doe in doe - (365 * yoe + yoe / 4 - yoe / 100).

Definition monthOfYear (doy : Z) : Z := (5 * doy + 2) / 153.

Definition dayOfEra (yoe mp d : Z) : Z :=
  yoe * 365 + yoe / 4 - yoe / 100 + (153 * mp + 2) / 5 + d - 1.

(** The month, 1 to 12, of a month counted from March. *)
Definition monthOf (mp : Z) : Z := if mp <? 10 then mp + 3 else mp - 9.

(** Year, month (1 to 12) and day of the month of a day number. *)
Definition CivilFromDays (z : Z) : Z * Z * Z :=
  let era := (z + epochShift) / daysPerEra in
  let doe := (z + epochShift) mod daysPerEra in
  let doy := dayOfYear doe in
  let mp := monthOfYear doy in
  let m := monthOf mp in
  ((if m <=? 2 then 1 else 0) + yearOfEra doe + era * 400,
   m,
   doy - (153 * mp + 2) / 5 + 1).

(** The day number of a year, a month (1 to 12) and a day of the month. *)
Definition DaysFromCivil (y m d : Z) : Z :=
  let y' := if m <=? 2 then y - 1 else y in
  let mp := if m <=? 2 then m + 9 else m - 3 in
  (y' / 400) * daysPerEra + dayOfEra (y' mod 400) mp d - epochShift.

Definition YearFromTime (t : Z) : Z := fst (fst (CivilFromDays (Day t))).
(** Months count from 0. *)
Definition MonthFromTime (t : Z) : Z := snd (fst (CivilFromDays (Day t))) - 1.
Definition DateFromTime (t : Z) : Z := snd (CivilFromDays (Day t)).
Definition HourFromTime (t : Z) : Z := (t / msPerHour) mod 24.
Definition MinFromTime (t : Z) : Z := (t / msPerMinute) mod 60.
Definition SecFromTime (t : Z) : Z := (t / msPerSecond) mod 60.
Definition msFromTime (t : Z) : Z := t mod msPerSecond.

Definition MakeDay (year month date : Z) : Z :=
  DaysFromCivil (year + month / 12) (month mod 12 + 1) 1 + date - 1.

Definition MakeDate (day time : Z) : Z := day * msPerDay + time.

Definition InLeapYear (y : Z) : bool :=
  (y mod 4 =? 0) && (negb (y mod 100 =? 0) || (y mod 400 =? 0)).

Definition DaysInMonth (y m : Z) : Z :=
  if m =? 2 then (if InLeapYear y then 29 else 28)
  else if (m =? 4) || (m =? 6) || (m =? 9) || (m =? 11) then 30 else 31.

(** [Date.UTC(year, month, date)]: a year from 0 to 99 means 1900 + year. *)
Definition UTC_ymd (year month date : Z) : Z :=
  let yyyy := if (0 <=? year) && (year <=? 99) then 1900 + year else year in
  MakeDate (MakeDay yyyy month date) 0.

Definition digit (z : Z) : ascii := ascii_of_N (Z.to_N (48 + z)).

(** [n] decimal digits of [z], zero padded. *)
Fixpoint pad (n : nat) (z : Z) : string :=
  match n with
  | O => EmptyString
  | S k => String (digit ((z / 10 ^ Z.of_nat k) mod 10)) (pad k z)
  end.

(** The year of [toISOString]: four digits for the years 0 to 9999, a
    sign and six digits for the others. *)
Definition isoYear (y : Z) : string :=
  if (0 <=? y) && (y <=? 9999) then pad 4 y
  else String (if y <? 0 then "-"%char else "+"%char) (pad 6 (Z.abs y)).

Definition toISOString (t : Date) : string :=
  (isoYear (YearFromTime t)
   ++ "-" ++ pad 2 (MonthFromTime t + 1) ++ "-" ++ pad 2 (DateFromTime t)
   ++ "T" ++ pad 2 (HourFromTime t) ++ ":" ++ pad 2 (MinFromTime t)
   ++ ":" ++ pad 2 (SecFromTime t) ++ "." ++ pad 3 (msFromTime t) ++ "Z")%string.

Definition decimalDigit (c : ascii) : option Z := JSNumber.digitValue 10 c.

(** [new Date(text)] for a text of the date-only form [YYYY-MM-DD], which
    is read as midnight UTC of that day.  [None] is the invalid date; it
    also stands for the texts of the other forms [Date.parse] reads, which
    are outside this model. *)
Definition parse (s : string) : option Date :=
  match list_ascii_of_string s with
  | [y1; y2; y3; y4; s1; m1; m2; s2; d1; d2] =>
      match decimalDigit y1, decimalDigit y2, decimalDigit y3, decimalDigit y4,
            decimalDigit m1, decimalDigit m2, decimalDigit d1, decimalDigit d2 with
      | Some a, Some b, Some c, Some d, Some e, Some f, Some g, Some h =>
          let y := 1000 * a + 100 * b + 10 * c + d in
          let m := 10 * e + f in
          let dd := 10 * g + h in
          if Ascii.eqb s1 "-" && Ascii.eqb s2 "-"
             && (1 <=? m) && (m <=? 12) && (1 <=? dd) && (dd <=? DaysInMonth y m)
          then Some (MakeDate (MakeDay y (m - 1) dd) 0)
          else None
      | _, _, _, _, _, _, _, _ => None
      end
  | _ => None
  end.

Section LocalTime.

(** The offset of local time from UTC, in milliseconds. *)
Variable tza : Z.

Definition LocalTime (t : Z) : Z := t + tza.
Definition UTC (t : Z) : Z := t - tza.

Definition getFullYear (d : Date) : Z := YearFromTime (LocalTime d).
Definition getMonth (d : Date) : Z := MonthFromTime (LocalTime d).
Definition getDate (d : Date) : Z := DateFromTime (LocalTime d).
Definition getHours (d : Date) : Z := HourFromTime (LocalTime d).
Definition getMinutes (d : Date) : Z := MinFromTime (LocalTime d).
Definition getSeconds (d : Date) : Z := SecFromTime (LocalTime d).
Definition getTime (d : Date) : Z := d.

(** [d.setDate(date)]: the day of the month is replaced, in local time. *)
Definition setDate (d : Date) (date : Z) : Date :=
  let t := LocalTime d in
  UTC (MakeDate (MakeDay (YearFromTime t) (MonthFromTime t) date) (TimeWithinDay t)).

(** The time value of a local wall-clock moment: day number [day], then
    [h] hours, [m] minutes and [s] seconds into that day. *)
Definition atLocal (day h m s : Z) : Date :=
  UTC (MakeDate day (h * msPerHour + m * msPerMinute + s * msPerSecond)).

End LocalTime.

End JSDate.

(** ** JSON values and texts

    [value] is what [JSON.parse] returns.  [parse] reads the JSON grammar
    on texts whose strings hold ASCII characters; [None] is the
    [SyntaxError] (a text whose strings hold escapes of non-ASCII
    characters is outside this model and also gives [None]).  The page is
    embedded over an arbitrary parsing function, so nothing proved below
    depends on the details of this one; it serves to run the code on
    concrete texts. *)

Module JSON.

#[local] Set Warnings "-register-all".

Inductive value : Type :=
| Null
| Bool (b : bool)
| Num (x : float)
| Str (s : string)
| Arr (elements : list value)
| Obj (members : list (string * value)).

Definition isSpace (c : ascii) : bool :=
  existsb (N.eqb (N_of_ascii c)) [9; 10; 13; 32]%N.

Fixpoint skipSpaces (l : list ascii) : list ascii :=
  match l with
  | c :: r => if isSpace c then skipSpaces r else l
  | [] => []
  end.

(** [l] without its prefix [p], when it starts with [p]. *)
Fixpoint after (p l : list ascii) : option (list ascii) :=
  match p, l with
  | [], _ => Some l
  | a :: p', b :: l' => if Ascii.eqb a b then after p' l' else None
  | _ :: _, [] => None
  end.

Definition quote : ascii := ascii_of_N 34.

Definition escaped (c : ascii) : option ascii :=
  if Ascii.eqb c quote then Some quote
  else if Ascii.eqb c "\" then Some "\"%char
  else if Ascii.eqb c "/" then Some "/"%char
  else if Ascii.eqb c "b" then Some (ascii_of_N 8)
  else if Ascii.eqb c "f" then Some (ascii_of_N 12)
  else if Ascii.eqb c "n" then Some (ascii_of_N 10)
  else if Ascii.eqb c "r" then Some (ascii_of_N 13)
  else if Ascii.eqb c "t" then Some (ascii_of_N 9)
  else None.

Definition hex4 (a b c d : ascii) : option Z :=
  match JSNumber.digitValue 16 a, JSNumber.digitValue 16 b,
        JSNumber.digitValue 16 c, JSNumber.digitValue 16 d with
  | Some x, Some y, Some z, Some w => Some (((x * 16 + y) * 16 + z) * 16 + w)
  | _, _, _, _ => None
  end.

(** The characters of a string, read after its opening quote. *)
Fixpoint chars (l : list ascii) : option (string * list ascii) :=
  match l with
  | [] => None
  | c :: r =>
      if Ascii.eqb c quote then Some (EmptyString, r)
      else if Ascii.eqb c "\" then
        match r with
        | e :: r' =>
            if Ascii.eqb e "u" then
              match r' with
              | a :: b :: c' :: d :: r'' =>
                  match hex4 a b c' d with
                  | Some n =>
                      if n <? 128 then
                        match chars r'' with
                        | Some (s, rest) => Some (String (ascii_of_N (Z.to_N n)) s, rest)
                        | None => None
                        end
                      else None
                  | None => None
                  end
              | _ => None
              end
            else
              match escaped e, chars r' with
              | Some x, Some (s, rest) => Some (String x s, rest)
              | _, _ => None
              end
        | [] => None
        end
      else if (N_of_ascii c <? 32)%N then None
      else match chars r with
           | Some (s, rest) => Some (String c s, rest)
           | None => None
           end
  end.

(** A number: [-? int frac? exp?], no leading zero before another digit. *)
Definition number (l : list ascii) : option (float * list ascii) :=
  let '(neg, l1) := match l with
                     | c :: r => if Ascii.eqb c "-" then (true, r) else (false, l)
                     | [] => (false, l)
                     end in
  let '(ip, r1) := JSNumber.spanDigits 10 l1 in
  let intOk := match ip with
               | [] => false
               | [_] => true
               | d :: _ => negb (d =? 0)
               end in
  let '(fracOk, fp, r2) :=
    match r1 with
    | c :: r => if Ascii.eqb c "."
                then let '(fp, r2) := JSNumber.spanDigits 10 r in
                     (negb (Nat.eqb (List.length fp) 0), fp, r2)
                else (true, [], r1)
    | [] => (true, [], r1)
    end in
  let '(expOk, e, r3) :=
    match r2 with
    | c :: r =>
        if (Ascii.eqb c "e" || Ascii.eqb c "E")%bool then
          let '(eneg, r') :=
            match r with
            | s :: r' => if Ascii.eqb s "-" then (true, r')
                         else if Ascii.eqb s "+" then (false, r') else (false, r)
            | [] => (false, r)
            end in
          let '(ds, r3) := JSNumber.spanDigits 10 r' in
          (negb (Nat.eqb (List.length ds) 0),
           if eneg then - JSNumber.valueOf 10 ds else JSNumber.valueOf 10 ds, r3)
        else (true, 0, r2)
    | [] => (true, 0, r2)
    end in
  if intOk && fracOk && expOk
  then Some (JSNumber.ofDecimal neg (JSNumber.valueOf 10 (ip ++ fp))
               (e - Z.of_nat (List.length fp)), r3)
  else None.

(** Values are read with a budget [fuel] on the nesting depth and on the
    number of elements read in a row; the length of the text is enough. *)
Section Composite.

Variable parseValue : list ascii -> option (value * list ascii).

(** The elements of an array after the first, up to the closing bracket. *)
Fixpoint elements (fuel : nat) (l : list ascii) : option (list value * list ascii) :=
  match fuel with
  | O => None
  | S k =>
      match skipSpaces l with
      | c :: r =>
          if Ascii.eqb c "]" then Some ([], r)
          else if Ascii.eqb c "," then
            match parseValue r with
            | Some (v, r') =>
                match elements k r' with
                | Some (vs, rest) => Some (v :: vs, rest)
                | None => None
                end
            | None => None
            end
          else None
      | [] => None
      end
  end.

(** One member of an object: a string, a colon and a value. *)
Definition member (l : list ascii) : option ((string * value) * list ascii) :=
  match skipSpaces l with
  | c :: r =>
      if Ascii.eqb c quote then
        match chars r with
        | Some (key, r1) =>
            match skipSpaces r1 with
            | c1 :: r2 =>
                if Ascii.eqb c1 ":" then
                  match parseValue r2 with
                  | Some (v, rest) => Some ((key, v), rest)
                  | None => None
                  end
                else None
            | [] => None
            end
        | None => None
        end
      else None
  | [] => None
  end.

(** The members of an object after the first, up to the closing brace. *)
Fixpoint members (fuel : nat) (l : list ascii)
  : option (list (string * value) * list ascii) :=
  match fuel with
  | O => None
  | S k =>
      match skipSpaces l with
      | c :: r =>
          if Ascii.eqb c "}" then Some ([], r)
          else if Ascii.eqb c "," then
            match member r with
            | Some (kv, r') =>
                match members k r' with
                | Some (kvs, rest) => Some (kv :: kvs, rest)
                | None => None
                end
            | None => None
            end
          else None
      | [] => None
      end
  end.

End Composite.

Fixpoint parseValue (fuel : nat) (l : list ascii) : option (value * list ascii) :=
  match fuel with
  | O => None
  | S k =>
      let l := skipSpaces l in
      match after (list_ascii_of_string "null") l with
      | Some r => Some (Null, r)
      | None =>
      match after (list_ascii_of_string "true") l with
      | Some r => Some (Bool true, r)
      | None =>
      match after (list_ascii_of_string "false") l with
      | Some r => Some (Bool false, r)
      | None =>
      match l with
      | c :: r =>
          if Ascii.eqb c quote then
            match chars r with
            | Some (s, rest) => Some (Str s, rest)
            | None => None
            end
          else if Ascii.eqb c "[" then
            match skipSpaces r with
            | c1 :: r1 =>
                if Ascii.eqb c1 "]" then Some (Arr [], r1)
                else match parseValue k r with
                     | Some (v, r') =>
                         match elements (parseValue k) fuel r' with
                         | Some (vs, rest) => Some (Arr (v :: vs), rest)
                         | None => None
                         end
                     | None => None
                     end
            | [] => None
            end
          else if Ascii.eqb c "{" then
            match skipSpaces r with
            | c1 :: r1 =>
                if Ascii.eqb c1 "}" then Some (Obj [], r1)
                else match member (parseValue k) r with
                     | Some (kv, r') =>
                         match members (parseValue k) fuel r' with
                         | Some (kvs, rest) => Some (Obj (kv :: kvs), rest)
                         | None => None
                         end
                     | None => None
                     end
            | [] => None
            end
          else match number l with
               | Some (x, rest) => Some (Num x, rest)
               | None => None
               end
      | [] => None
      end end end end
  end.

(** [JSON.parse(text)]: one value, then nothing but white space. *)
Definition parse (text : string) : option value :=
  let l := list_ascii_of_string text in
  match parseValue (S (List.length l)) l with
  | Some (v, rest) => match skipSpaces rest with [] => Some v | _ => None end
  | None => None
  end.

(** A text written with apostrophes in the place of its double quotes. *)
Fixpoint text (s : string) : string :=
  match s with
  | EmptyString => EmptyString
  | String c r => String (if Ascii.eqb c "'" then quote else c) (text r)
  end.

End JSON.

(** ** The data of the page *)

Record Habit : Type := mkHabit {
  id : string;
  name : string;
  emoji : string;
  color : string;
  goalPerWeek : float;
  reminders : list string;
  completions : list string;
  createdAt : string
}.

Record ReminderAlert : Type := mkReminderAlert {
  alert_id : string;
  alert_habitId : string;
  alert_habitName : string;
  alert_time : string;
  alert_timestamp : Z
}.

(** The object spreads [{ ...habit, field: v }] of the page. *)
Definition withCompletions (habit : Habit) (v : list string) : Habit :=
  mkHabit (id habit) (name habit) (emoji habit) (color habit) (goalPerWeek habit)
          (reminders habit) v (createdAt habit).

Definition withReminders (habit : Habit) (v : list string) : Habit :=
  mkHabit (id habit) (name habit) (emoji habit) (color habit) (goalPerWeek habit)
          v (completions habit) (createdAt habit).

Definition STORAGE_KEY : string := "pulse-habits-state-v1".

Definition GRADIENTS : list string :=
  [ "from-sky-500 to-cyan-400";
    "from-purple-500 to-indigo-500";
    "from-amber-500 to-orange-500";
    "from-emerald-500 to-teal-400";
    "from-rose-500 to-pink-500";
    "from-lime-500 to-emerald-400" ].

(** The emoji literals of the page, display only: the bytes that the
    text between the quotes has in the source file, which is UTF-8. *)
Definition utf8 (bytes : list N) : string :=
  string_of_list_ascii (map ascii_of_N bytes).

Definition emojiRunner : string :=
  utf8 [195; 176; 197; 184; 198; 146; 195; 162; 226; 130; 172; 195; 162; 226; 132; 162;
        226; 130; 172; 195; 175; 194; 184]%N.
Definition emojiLotus : string := utf8 [195; 176; 197; 184; 194; 167; 203; 156]%N.
Definition emojiFire : string := utf8 [195; 176; 197; 184; 226; 128; 157; 194; 165]%N.
Definition emojiSparkles : string := utf8 [195; 162; 197; 147; 194; 168]%N.

(** The habit as an object, and the reading of an object as a habit. *)
Definition ofHabit (h : Habit) : JSON.value :=
  JSON.Obj [ ("id", JSON.Str (id h));
             ("name", JSON.Str (name h));
             ("emoji", JSON.Str (emoji h));
             ("color", JSON.Str (color h));
             ("goalPerWeek", JSON.Num (goalPerWeek h));
             ("reminders", JSON.Arr (map JSON.Str (reminders h)));
             ("completions", JSON.Arr (map JSON.Str (completions h)));
             ("createdAt", JSON.Str (createdAt h)) ].

Definition ofHabits (l : list Habit) : JSON.value := JSON.Arr (map ofHabit l).

Fixpoint field (key : string) (members : list (string * JSON.value)) : option JSON.value :=
  match members with
  | [] => None
  | (k, v) :: r =>
      match field key r with
      | Some later => Some later
      | None => if (k =? key)%string then Some v else None
      end
  end.

Definition asString (v : option JSON.value) : option string :=
  match v with Some (JSON.Str s) => Some s | _ => None end.

Definition asNumber (v : option JSON.value) : option float :=
  match v with Some (JSON.Num x) => Some x | _ => None end.

Fixpoint allStrings (l : list JSON.value) : option (list string) :=
  match l with
  | [] => Some []
  | JSON.Str s :: r =>
      match allStrings r with Some ss => Some (s :: ss) | None => None end
  | _ :: _ => None
  end.

Definition asStrings (v : option JSON.value) : option (list string) :=
  match v with Some (JSON.Arr l) => allStrings l | _ => None end.

(** A value has the schema of a habit when it is an object whose eight
    fields have the types of [Habit]. *)
Definition asHabit (v : JSON.value) : option Habit :=
  match v with
  | JSON.Obj ms =>
      match asString (field "id" ms), asString (field "name" ms),
            asString (field "emoji" ms), asString (field "color" ms),
            asNumber (field "goalPerWeek" ms), asStrings (field "reminders" ms),
            asStrings (field "completions" ms), asString (field "createdAt" ms) with
      | Some i, Some n, Some e, Some c, Some g, Some r, Some cs, Some t =>
          Some (mkHabit i n e c g r cs t)
      | _, _, _, _, _, _, _, _ => None
      end
  | _ => None
  end.

Fixpoint allHabits (l : list JSON.value) : option (list Habit) :=
  match l with
  | [] => Some []
  | v :: r =>
      match asHabit v, allHabits r with
      | Some h, Some hs => Some (h :: hs)
      | _, _ => None
      end
  end.

(** A value is a habit collection when it is an array of habits. *)
Definition asHabits (v : JSON.value) : option (list Habit) :=
  match v with JSON.Arr l => allHabits l | _ => None end.

Definition validCollection (v : JSON.value) : bool :=
  match asHabits v with Some _ => true | None => false end.

(** An argument of [cn]: a string, [false], [null] or [undefined]. *)
Inductive ClassValue : Type :=
| ClassName (s : string)
| ClassFalse
| ClassNull
| ClassUndefined.

(** [Boolean(c)]: a string that is not empty is the only truthy argument. *)
Definition Boolean (c : ClassValue) : bool :=
  match c with
  | ClassName s => JSString.truthy s
  | _ => false
  end.

(** The text [join] writes for an element. *)
Definition toText (c : ClassValue) : string :=
  match c with
  | ClassName s => s
  | ClassFalse => "false"
  | ClassNull | ClassUndefined => EmptyString
  end.

(** [cn(...classes)]. *)
Definition cn (classes : list ClassValue) : string :=
  JSArray.join " " (map toText (filter Boolean classes)).

(** An entry of [weeklyProgress]. *)
Record DayProgress : Type := mkDayProgress {
  day : string;
  completed : Z;
  percentage : float
}.

(** ** The functions of the page *)

Section Page.

(** The local time zone of the browser. *)
Variable tza : Z.

(** [JSON.parse]: [None] when it throws. *)
Variable JSON_parse : string -> option JSON.value.

(** [getDateKey(inputDate)]. *)
Definition getDateKey (inputDate : JSDate.Date) : string :=
  let date := JSDate.UTC_ymd (JSDate.getFullYear tza inputDate)
                             (JSDate.getMonth tza inputDate)
                             (JSDate.getDate tza inputDate) in
  JSString.slice0 10 (JSDate.toISOString date).

(** [DEFAULT_HABITS], built at the time [loaded] the module was loaded. *)
Definition DEFAULT_HABITS (loaded : JSDate.Date) : list Habit :=
  [ mkHabit "habit-1" "Morning Run" emojiRunner "from-violet-500 to-fuchsia-500"
            5%float ["06:30"] [] (JSDate.toISOString loaded);
    mkHabit "habit-2" "Mindful Break" emojiLotus "from-emerald-500 to-teal-400"
            7%float ["12:00"; "20:00"] [] (JSDate.toISOString loaded) ].

Fixpoint mapIndex {A B : Type} (f : A -> nat -> B) (index : nat) (l : list A) : list B :=
  match l with
  | [] => []
  | a :: r => f a index :: mapIndex f (S index) r
  end.

(** [buildDefaultHabits()], with the clock reading [now]. *)
Definition buildDefaultHabits (loaded now : JSDate.Date) : list Habit :=
  let today := getDateKey now in
  mapIndex (fun habit index =>
              mkHabit (id habit) (name habit) (emoji habit) (color habit)
                      (goalPerWeek habit) (reminders habit)
                      (if Nat.eqb index 0 then [today] else [])
                      (JSDate.toISOString now))
           0%nat (DEFAULT_HABITS loaded).

(** [loadHabitsFromStorage()]: [window] tells whether [window] is defined,
    [item] is what [localStorage.getItem(STORAGE_KEY)] returns ([None]
    for [null]).  The result is whatever value the parsing returned. *)
Definition loadHabitsFromStorage (window : bool) (item : option string)
    (loaded now : JSDate.Date) : JSON.value :=
  if negb window then ofHabits (buildDefaultHabits loaded now)
  else
    match item with
    | Some raw =>
        if JSString.truthy raw then
          match JSON_parse raw with
          | Some parsed => parsed
          | None => ofHabits (buildDefaultHabits loaded now)
          end
        else ofHabits (buildDefaultHabits loaded now)
    | None => ofHabits (buildDefaultHabits loaded now)
    end.

(** The loop of [getLastSevenDays]: [n] rounds left. *)
Fixpoint lastDaysLoop (n : nat) (days : list string) (cursor : JSDate.Date) : list string :=
  match n with
  | O => days
  | S k => lastDaysLoop k (getDateKey cursor :: days)
                        (JSDate.setDate tza cursor (JSDate.getDate tza cursor - 1))
  end.

Definition getLastSevenDays (now : JSDate.Date) : list string :=
  lastDaysLoop 7 [] now.

(** The [while (true)] loop of [computeStreak], run for at most [fuel]
    rounds; [None] when the rounds are used up before the [break]. *)
Fixpoint computeStreakLoop (fuel : nat) (completions : JSSet.t)
    (today : JSDate.Date) (streak : Z) : option Z :=
  match fuel with
  | O => None
  | S k =>
      let key := getDateKey today in
      if JSSet.has completions key
      then computeStreakLoop k completions
             (JSDate.setDate tza today (JSDate.getDate tza today - 1)) (streak + 1)
      else Some streak
  end.

Definition computeStreak (fuel : nat) (now : JSDate.Date) (habit : Habit) : option Z :=
  computeStreakLoop fuel (JSSet.ofArray (completions habit)) now 0.

(** The state of the loop of [getLongestStreak]. *)
Record Longest : Type := mkLongest {
  longest : Z;
  current : Z;
  previous : option string
}.

(** One round of the loop; [None] when [getDateKey] throws on the invalid
    date that [new Date(previous)] made. *)
Definition longestStep (st : Longest) (date : string) : option Longest :=
  match (match previous st with
         | Some p => if JSString.truthy p then Some p else None
         | None => None
         end) with
  | None => Some (mkLongest (Z.max (longest st) 1) 1 (Some date))
  | Some p =>
      match JSDate.parse p with
      | None => None
      | Some prevDate =>
          let prevDate := JSDate.setDate tza prevDate (JSDate.getDate tza prevDate - 1) in
          let expected := getDateKey prevDate in
          let current := if (date =? expected)%string then current st + 1 else 1 in
          Some (mkLongest (Z.max (longest st) current) current (Some date))
      end
  end.

Fixpoint longestLoop (sorted : list string) (st : Longest) : option Longest :=
  match sorted with
  | [] => Some st
  | date :: rest =>
      match longestStep st date with
      | Some st' => longestLoop rest st'
      | None => None
      end
  end.

Definition getLongestStreak (habit : Habit) : option Z :=
  let sorted := rev (JSString.sort (completions habit)) in
  match longestLoop sorted (mkLongest 0 0 None) with
  | Some st => Some (longest st)
  | None => None
  end.

(** [reminderCacheRef.current]. *)
Record ReminderCache : Type := mkReminderCache {
  date : string;
  keys : JSSet.t
}.

(** The guard of [tick] on the two numbers read from a reminder time. *)
Definition invalidTime (hour minute : JSNumber.value) : bool :=
  JSNumber.isNaN hour
  || JSNumber.isNaN minute
  || (JSNumber.ToNumber hour <? 0)%float
  || (23 <? JSNumber.ToNumber hour)%float
  || (JSNumber.ToNumber minute <? 0)%float
  || (59 <? JSNumber.ToNumber minute)%float.

(** The body of the inner [forEach] of [tick], on one reminder [time] of
    [habit]: the state is the set of keys of the cache and the alerts
    pushed so far. *)
Definition reminderStep (now : JSDate.Date) (dateKey : string) (nowSeconds : Z)
    (habit : Habit) (st : JSSet.t * list ReminderAlert) (time : string)
  : JSSet.t * list ReminderAlert :=
  let numbers := map JSNumber.Number (JSString.split ":" time) in
  let hour := nth_error numbers 0 in
  let minute := nth_error numbers 1 in
  if invalidTime hour minute then st
  else
    let targetSeconds :=
      (JSNumber.ToNumber hour * 3600 + JSNumber.ToNumber minute * 60)%float in
    let delta := abs (JSNumber.ofZ nowSeconds - targetSeconds)%float in
    let cacheKey := (id habit ++ "-" ++ time ++ "-" ++ dateKey)%string in
    if (delta <=? 30)%float && negb (JSSet.has (fst st) cacheKey)
    then (JSSet.add (fst st) cacheKey,
          snd st ++ [mkReminderAlert
                       (cacheKey ++ "-" ++ JSString.ofZ (JSDate.getTime now))%string
                       (id habit) (name habit) time (JSDate.getTime now)])
    else st.

(** [tick()], at the clock reading [now]: the new cache and
    [upcomingAlerts]. *)
Definition tick (cache : ReminderCache) (habits : list Habit) (now : JSDate.Date)
  : ReminderCache * list ReminderAlert :=
  let dateKey := getDateKey now in
  let cache :=
    if negb (date cache =? dateKey)%string then mkReminderCache dateKey [] else cache in
  let nowSeconds :=
    JSDate.getHours tza now * 3600 + JSDate.getMinutes tza now * 60
    + JSDate.getSeconds tza now in
  let st :=
    fold_left (fun st habit =>
                 fold_left (reminderStep now dateKey nowSeconds habit) (reminders habit) st)
              habits (keys cache, []) in
  (mkReminderCache (date cache) (fst st), snd st).

(** The state of the component [Home] that the handlers write. *)
Record Home : Type := mkHome {
  habits : list Habit;
  selectedHabitId : option string;
  formName : string;
  formEmoji : string;
  formGoalPerWeek : float;
  formReminderTime : string;
  alerts : list ReminderAlert
}.

Definition withHabits (st : Home) (v : list Habit) : Home :=
  mkHome v (selectedHabitId st) (formName st) (formEmoji st) (formGoalPerWeek st)
         (formReminderTime st) (alerts st).

(** The end of [tick]: the alerts of the round are appended. *)
Definition setAlerts (st : Home) (upcomingAlerts : list ReminderAlert) : Home :=
  match upcomingAlerts with
  | [] => st
  | _ :: _ => mkHome (habits st) (selectedHabitId st) (formName st) (formEmoji st)
                     (formGoalPerWeek st) (formReminderTime st)
                     (alerts st ++ upcomingAlerts)
  end.

Definition handleToggleCompletion (habitId dateKey : string) (st : Home) : Home :=
  withHabits st
    (map (fun habit =>
            if negb (id habit =? habitId)%string then habit
            else
              let completions := JSSet.ofArray (completions habit) in
              let completions :=
                if JSSet.has completions dateKey
                then JSSet.delete completions dateKey
                else JSSet.add completions dateKey in
              withCompletions habit (JSString.sort (JSSet.toArray completions)))
         (habits st)).

(** [handleAddHabit()]: [uuid] is what [crypto.randomUUID()] returns,
    [pick] the index [Math.floor(Math.random() * GRADIENTS.length)] and
    [now] the clock reading. *)
Definition handleAddHabit (uuid : string) (pick : nat) (now : JSDate.Date)
    (st : Home) : Home :=
  if negb (JSString.truthy (JSString.trim (formName st))) then st
  else
    let color :=
      match nth_error GRADIENTS pick with
      | Some c => c
      | None => "from-sky-500 to-cyan-400"
      end in
    let habit :=
      mkHabit uuid
              (JSString.trim (formName st))
              (if JSString.truthy (JSString.trim (formEmoji st))
               then JSString.trim (formEmoji st) else emojiSparkles)
              color
              (if (formGoalPerWeek st <? 1)%float then 1%float else formGoalPerWeek st)
              (if JSString.truthy (formReminderTime st) then [formReminderTime st] else [])
              []
              (JSDate.toISOString now) in
    mkHome (habit :: habits st) (Some (id habit)) "" (formEmoji st) 5%float ""
           (alerts st).

Definition handleAddReminder (habitId time : string) (st : Home) : Home :=
  if negb (JSString.truthy time) then st
  else
    withHabits st
      (map (fun habit =>
              if negb (id habit =? habitId)%string then habit
              else
                let reminders :=
                  JSString.sort
                    (JSSet.toArray (JSSet.ofArray (reminders habit ++ [time]))) in
                withReminders habit reminders)
           (habits st)).

Definition handleRemoveReminder (habitId time : string) (st : Home) : Home :=
  withHabits st
    (map (fun habit =>
            if negb (id habit =? habitId)%string then habit
            else withReminders habit
                   (filter (fun rem => negb (rem =? time)%string) (reminders habit)))
         (habits st)).

Definition handleDeleteHabit (habitId : string) (st : Home) : Home :=
  mkHome (filter (fun habit => negb (id habit =? habitId)%string) (habits st))
         (match selectedHabitId st with
          | Some sel => if (sel =? habitId)%string then None else Some sel
          | None => None
          end)
         (formName st) (formEmoji st) (formGoalPerWeek st) (formReminderTime st)
         (alerts st).

(** The loop of [getNextReminderForHabit] over the sorted times. *)
Fixpoint nextReminderLoop (nowMinutes : Z) (sorted : list string) : option string :=
  match sorted with
  | [] => None
  | time :: rest =>
      let numbers := map JSNumber.Number (JSString.split ":" time) in
      let hour := nth_error numbers 0 in
      let minute := nth_error numbers 1 in
      let reminderMinutes :=
        (JSNumber.ToNumber hour * 60 + JSNumber.ToNumber minute)%float in
      if (JSNumber.ofZ nowMinutes <? reminderMinutes)%float then Some time
      else nextReminderLoop nowMinutes rest
  end.

(** [getNextReminderForHabit(habit)], at the clock reading [now]: [None]
    is [null]. *)
Definition getNextReminderForHabit (now : JSDate.Date) (habit : Habit) : option string :=
  if Nat.eqb (List.length (reminders habit)) 0 then None
  else
    let nowMinutes := JSDate.getHours tza now * 60 + JSDate.getMinutes tza now in
    let sorted := JSString.sort (reminders habit) in
    match nextReminderLoop nowMinutes sorted with
    | Some time => Some time
    | None => nth_error sorted 0
    end.

(** [todayCompletionRatio], at the clock reading [now]. *)
Definition todayCompletionRatio (now : JSDate.Date) (habits : list Habit) : float :=
  let todayKey := getDateKey now in
  if Nat.eqb (List.length habits) 0 then 0%float
  else
    let completedToday :=
      filter (fun habit => JSArray.includes (completions habit) todayKey) habits in
    (JSNumber.ofZ (Z.of_nat (List.length completedToday))
     / JSNumber.ofZ (Z.of_nat (List.length habits)))%float.

(** [weeklyProgress], at the clock reading [now]. *)
Definition weeklyProgress (now : JSDate.Date) (habits : list Habit) : list DayProgress :=
  let days := getLastSevenDays now in
  map (fun day =>
         let completed :=
           filter (fun habit => JSArray.includes (completions habit) day) habits in
         mkDayProgress day (Z.of_nat (List.length completed))
           (if Nat.eqb (List.length habits) 0 then 0%float
            else (JSNumber.ofZ (Z.of_nat (List.length completed))
                  / JSNumber.ofZ (Z.of_nat (List.length habits)))%float))
      days.

(** [dismissAlert(id)]. *)
Definition dismissAlert (alertId : string) (st : Home) : Home :=
  mkHome (habits st) (selectedHabitId st) (formName st) (formEmoji st)
         (formGoalPerWeek st) (formReminderTime st)
         (filter (fun alert => negb (alert_id alert =? alertId)%string) (alerts st)).

(** The click on the card of a habit:
    [setSelectedHabitId((current) => current === habit.id ? null : habit.id)]. *)
Definition selectHabit (habitId : string) (st : Home) : Home :=
  mkHome (habits st)
         (match selectedHabitId st with
          | Some current => if (current =? habitId)%string then None else Some habitId
          | None => Some habitId
          end)
         (formName st) (formEmoji st) (formGoalPerWeek st) (formReminderTime st)
         (alerts st).

(** The rounds of [tick] that the effect runs: on mount, every 30
    seconds, and again when [habits] changes.  Each round reads the
    collection and the clock, works on the cache that the round before
    left in [reminderCacheRef], and appends its alerts to [alerts]. *)
Fixpoint tickRounds (cache : ReminderCache) (alerts : list ReminderAlert)
    (rounds : list (list Habit * JSDate.Date)) : ReminderCache * list ReminderAlert :=
  match rounds with
  | [] => (cache, alerts)
  | (habits, now) :: rest =>
      let (cache', upcomingAlerts) := tick cache habits now in
      tickRounds cache' (alerts ++ upcomingAlerts) rest
  end.
End Page.

(** * The vocabulary of the properties *)

(** The first and the last day whose year is written with four digits
    and is not read as a year of the twentieth century by [Date.UTC]:
    0100-01-01 and 9999-12-31. *)
Definition firstKeyDay : Z := JSDate.DaysFromCivil 100 1 1.
Definition lastKeyDay : Z := JSDate.DaysFromCivil 9999 12 31.

(** The days that have a date identifier [YYYY-MM-DD]. *)
Definition keyDay (z : Z) : Prop := firstKeyDay <= z <= lastKeyDay.

(** The date identifier of a day number. *)
Definition dateId (z : Z) : string :=
  let '(y, m, d) := JSDate.CivilFromDays z in
  (JSDate.pad 4 y ++ "-" ++ JSDate.pad 2 m ++ "-" ++ JSDate.pad 2 d)%string.

(** The local calendar day of a moment. *)
Definition localDay (tza : Z) (d : JSDate.Date) : Z :=
  JSDate.Day (JSDate.LocalTime tza d).

(** The moment [k] days before [d], at the same local time. *)
Definition daysBefore (d : JSDate.Date) (k : Z) : JSDate.Date :=
  d - k * JSDate.msPerDay.

(** An array is sorted and free of duplicates when it increases strictly. *)
Definition le (a b : string) : Prop := JSString.ltb b a = false.

Definition sortedUnique (l : list string) : Prop := Sorted le l /\ NoDup l.

Definition increasing (l : list string) : Prop := StronglySorted JSString.lt l.

(** The invariant of the store: in every habit the reminders and the
    completions are sorted and free of duplicates. *)
Definition habitInvariant (h : Habit) : Prop :=
  sortedUnique (reminders h) /\ sortedUnique (completions h).

Definition storeInvariant (l : list Habit) : Prop := Forall habitInvariant l.

(** The two halves of the invariant, each on its own. *)
Definition completionsInvariant (l : list Habit) : Prop :=
  Forall (fun habit => sortedUnique (completions habit)) l.

Definition remindersInvariant (l : list Habit) : Prop :=
  Forall (fun habit => sortedUnique (reminders habit)) l.

(** The time values that a [Date] holds: at most 8.64e15 milliseconds
    from the epoch.  Past them a [Date] is invalid and [toISOString]
    throws a [RangeError]. *)
Definition timeValue (t : Z) : Prop := -8640000000000000 <= t <= 8640000000000000.

(** The completions that [handleToggleCompletion] gives the target habit. *)
Definition toggled (completions : list string) (dateKey : string) : list string :=
  JSString.sort
    (JSSet.toArray (if JSSet.has (JSSet.ofArray completions) dateKey
                    then JSSet.delete (JSSet.ofArray completions) dateKey
                    else JSSet.add (JSSet.ofArray completions) dateKey)).

(** What [handleToggleCompletion] does to one habit. *)
Definition toggleHabit (habitId dateKey : string) (habit : Habit) : Habit :=
  if negb (id habit =? habitId)%string then habit
  else withCompletions habit (toggled (completions habit) dateKey).

(** [l'] is [l] position by position: the same ids in the same order, and
    the same habit wherever the id is not [habitId]. *)
Definition sameElsewhere (habitId : string) (l l' : list Habit) : Prop :=
  Forall2 (fun h h' => id h' = id h /\ (id h <> habitId -> h' = h)) l l'.

(** [l'] is [l] without the habits whose id is [habitId], the others in
    their order. *)
Inductive removedById (habitId : string) : list Habit -> list Habit -> Prop :=
| removed_nil : removedById habitId [] []
| removed_keep h l l' :
    id h <> habitId -> removedById habitId l l' -> removedById habitId (h :: l) (h :: l')
| removed_drop h l l' :
    id h = habitId -> removedById habitId l l' -> removedById habitId (h :: l) l'.

(** A text of white space only, the empty text included. *)
Definition blank (s : string) : bool :=
  forallb JSString.isWhiteSpace (list_ascii_of_string s).

(** A reminder time passes the guard of [tick] when the two numbers read
    from it are not [NaN], the hour is in 0..23 and the minute in 0..59. *)
Definition validReminder (time : string) : bool :=
  let numbers := map JSNumber.Number (JSString.split ":" time) in
  negb (invalidTime (nth_error numbers 0) (nth_error numbers 1)).

(** What [tick] does on a reminder time that passed the guard. *)
Definition evaluate (now : JSDate.Date) (dateKey : string) (nowSeconds : Z) (habit : Habit)
    (st : JSSet.t * list ReminderAlert) (time : string) : JSSet.t * list ReminderAlert :=
  let numbers := map JSNumber.Number (JSString.split ":" time) in
  let targetSeconds :=
    (JSNumber.ToNumber (nth_error numbers 0) * 3600
     + JSNumber.ToNumber (nth_error numbers 1) * 60)%float in
  let delta := abs (JSNumber.ofZ nowSeconds - targetSeconds)%float in
  let cacheKey := (id habit ++ "-" ++ time ++ "-" ++ dateKey)%string in
  if (delta <=? 30)%float && negb (JSSet.has (fst st) cacheKey)
  then (JSSet.add (fst st) cacheKey,
        snd st ++ [mkReminderAlert
                     (cacheKey ++ "-" ++ JSString.ofZ (JSDate.getTime now))%string
                     (id habit) (name habit) time (JSDate.getTime now)])
  else st.

(** The test of the window of the reminder at 07:00. *)
Definition window0700 (nowSeconds : Z) : bool :=
  (abs (JSNumber.ofZ nowSeconds
        - (JSNumber.ToNumber (Some 7) * 3600 + JSNumber.ToNumber (Some 0) * 60))
   <=? 30)%float.

(** The seed dataset, as [loadHabitsFromStorage] returns it. *)
Definition seed (tza : Z) (loaded now : JSDate.Date) : JSON.value :=
  ofHabits (buildDefaultHabits tza loaded now).

(** A text deserializes into a habit collection when it parses and the
    value parsed has the schema of a collection. *)
Definition deserializes (JSON_parse : string -> option JSON.value) (raw : string) : bool :=
  match JSON_parse raw with
  | Some v => validCollection v
  | None => false
  end.

(** The order of calendar dates: by year, then month, then day. *)
Definition civilLt (a b : Z * Z * Z) : Prop :=
  let '(y1, m1, d1) := a in
  let '(y2, m2, d2) := b in
  y1 < y2 \/ (y1 = y2 /\ (m1 < m2 \/ (m1 = m2 /\ d1 < d2))).

(** A day whose identifier and whose eve's identifier exist. *)
Definition streakDay (z : Z) : Prop := keyDay (z - 1) /\ keyDay z.

(** The completions are date identifiers. *)
Definition validIds (l : list string) : Prop :=
  Forall (fun s => exists z, streakDay z /\ s = dateId z) l.

(** The loop of [getLongestStreak], on day numbers. *)
Definition dayStep (st : Z * Z * option Z) (z : Z) : Z * Z * option Z :=
  let '(longest, current, previous) := st in
  let current :=
    match previous with
    | Some p => if z =? p - 1 then current + 1 else 1
    | None => 1
    end in
  (Z.max longest current, current, Some z).

(** The rounds of the loop on a list of day numbers. *)
Definition dayLoop (zs : list Z) (st : Z * Z * option Z) : Z * Z * option Z :=
  fold_left dayStep zs st.

(** The state of the loop on identifiers that a state on day numbers stands for. *)
Definition ofDayState (st : Z * Z * option Z) : Longest :=
  let '(longest, current, previous) := st in
  mkLongest longest current (option_map dateId previous).

(** Day numbers in strictly decreasing order. *)
Definition decreasing (zs : list Z) : Prop := StronglySorted (fun a b => b < a) zs.

(** Noon of 2024-01-10, in a zone one hour east of Greenwich. *)
Definition exampleZoneEast : Z := 3600000.
Definition exampleNoonEast : JSDate.Date := JSDate.atLocal exampleZoneEast 19732 12 0 0.

(** A state to run the handlers on. *)
Definition exampleHabits : list Habit :=
  [ mkHabit "habit-1" "Morning Run" emojiRunner "from-violet-500 to-fuchsia-500"
            5%float ["06:30"] ["2024-01-09"; "2024-01-10"] "2024-01-01T08:00:00.000Z";
    mkHabit "habit-2" "Mindful Break" emojiLotus "from-emerald-500 to-teal-400"
            7%float ["12:00"; "20:00"] [] "2024-01-01T08:00:00.000Z" ].

Definition exampleHome : Home :=
  mkHome exampleHabits None "  Evening stretch " emojiFire 0%float "21:15" [].

(** Noon of 2024-01-10, in a zone five hours west of Greenwich. *)
Definition exampleZone : Z := -18000000.
Definition exampleNoon : JSDate.Date := JSDate.atLocal exampleZone 19732 12 0 0.

(** A habit with one reminder, at 07:00. *)
Definition exampleWalker : Habit :=
  mkHabit "habit-7" "Morning walk" emojiFire "from-sky-500 to-cyan-400"
          3%float ["07:00"] [] "2024-01-01T08:00:00.000Z".


(** A habit completed on 2024-01-09 and on 2024-01-10. *)
Definition exampleRunner : Habit :=
  mkHabit "habit-1" "Morning Run" emojiRunner "from-violet-500 to-fuchsia-500"
          5%float ["06:30"] ["2024-01-09"; "2024-01-10"] "2024-01-01T08:00:00.000Z".

(** The selection, when there is one, names a habit of the collection. *)
Definition selectionValid (st : Home) : Prop :=
  match selectedHabitId st with
  | Some sel => In sel (map id (habits st))
  | None => True
  end.

(** The number of habits of a collection that are completed on a day. *)
Definition completedOn (dateKey : string) (l : list Habit) : Z :=
  Z.of_nat
    (List.length (filter (fun habit => JSArray.includes (completions habit) dateKey) l)).

(** The text [HH:MM] of a time of the day, as a time input writes it. *)
Definition clockText (h m : Z) : string :=
  (JSDate.pad 2 h ++ ":" ++ JSDate.pad 2 m)%string.

(** A reminder time written [HH:MM]. *)
Definition clockTime (time : string) : Prop :=
  exists h m, 0 <= h < 24 /\ 0 <= m < 60 /\ time = clockText h m.

(** The integers from 0 up to [n], [n] excluded. *)
Definition below (n : nat) : list Z := map Z.of_nat (seq 0 n).

(** The same binary64 value, bit for bit. *)
Definition sameFloat (a b : spec_float) : bool :=
  match a, b with
  | S754_zero s, S754_zero s' => Bool.eqb s s'
  | S754_infinity s, S754_infinity s' => Bool.eqb s s'
  | S754_nan, S754_nan => true
  | S754_finite s m e, S754_finite s' m' e' => Bool.eqb s s' && Pos.eqb m m' && Z.eqb e e'
  | _, _ => false
  end.

(** Positive zero and the positive finite numbers. *)
Definition nonNegative (f : spec_float) : bool :=
  match f with
  | S754_zero false | S754_finite false _ _ => true
  | _ => false
  end.

(** The key of the cache for a reminder time of a habit on a day. *)
Definition cacheKeyOf (habit : Habit) (time dateKey : string) : string :=
  (id habit ++ "-" ++ time ++ "-" ++ dateKey)%string.

(** The key of the cache that an alert was pushed under. *)
Definition alertKey (dateKey : string) (a : ReminderAlert) : string :=
  (alert_habitId a ++ "-" ++ alert_time a ++ "-" ++ dateKey)%string.

(** The second of the local day that [tick] compares the reminders with. *)
Definition secondOfDay (tza : Z) (now : JSDate.Date) : Z :=
  JSDate.getHours tza now * 3600 + JSDate.getMinutes tza now * 60
  + JSDate.getSeconds tza now.

(** A reminder time is due at a second of the day when it passes the
    guard of [tick] and its target is at most 30 seconds away. *)
Definition due (nowSeconds : Z) (time : string) : bool :=
  let numbers := map JSNumber.Number (JSString.split ":" time) in
  validReminder time
  && (abs (JSNumber.ofZ nowSeconds
           - (JSNumber.ToNumber (nth_error numbers 0) * 3600
              + JSNumber.ToNumber (nth_error numbers 1) * 60)) <=? 30)%float.

(** The reminders of a collection in the order [tick] visits them, each
    with its habit. *)
Definition reminderPairs (habits : list Habit) : list (Habit * string) :=
  flat_map (fun habit => map (pair habit) (reminders habit)) habits.

(** The alert that [tick] pushes for a reminder time of a habit. *)
Definition alertOf (now : JSDate.Date) (dateKey : string) (habit : Habit) (time : string)
  : ReminderAlert :=
  mkReminderAlert (cacheKeyOf habit time dateKey ++ "-" ++ JSString.ofZ (JSDate.getTime now))
                  (id habit) (name habit) time (JSDate.getTime now).

(** The number of days between a completion and the one that
    [getLongestStreak] expects before it: the date is read as midnight UTC
    and moved back a day in local time, so the gap is 1 in the zones at or
    ahead of UTC and 2 in the zones behind it. *)
Definition zoneGap (tza : Z) : Z := 1 - tza / JSDate.msPerDay.

(** The loop of [getLongestStreak], on day numbers, for a given gap. *)
Definition gapStep (gap : Z) (st : Z * Z * option Z) (z : Z) : Z * Z * option Z :=
  let '(longest, current, previous) := st in
  let current :=
    match previous with
    | Some p => if z =? p - gap then current + 1 else 1
    | None => 1
    end in
  (Z.max longest current, current, Some z).

Definition gapLoop (gap : Z) (zs : list Z) (st : Z * Z * option Z) : Z * Z * option Z :=
  fold_left (gapStep gap) zs st.

(** The completions are date identifiers of days that have an identifier
    [gap] days earlier too. *)
Definition dayIds (gap : Z) (l : list string) : Prop :=
  Forall (fun s => exists z, keyDay (z - gap) /\ keyDay z /\ s = dateId z) l.

(** What the loop has counted, after the days [seen]: the run that is
    being counted and a run of the longest length are made of days that
    were seen. *)
Definition counted (gap : Z) (seen : list Z) (st : Z * Z * option Z) : Prop :=
  let '(l, c, p) := st in
  0 <= c <= l
  /\ l <= Z.of_nat (List.length seen)
  /\ (seen <> [] -> 1 <= c /\ exists z, p = Some z)
  /\ (forall z, p = Some z -> forall i, 0 <= i < c -> In (z + gap * i) seen)
  /\ (0 < l -> exists D, forall i, 0 <= i < l -> In (D - gap * i) seen).

(** A positive number shifted left by [j] binary places. *)
Definition scaled (p : positive) (j : Z) : positive :=
  match j with
  | Zpos k => Pos.iter xO p k
  | _ => p
  end.

(** The binary64 number of an integer of at most 53 bits: the bits of
    the integer, shifted to fill the 53 bits of the mantissa. *)
Definition integerFloat (z : Z) : spec_float :=
  match z with
  | Z0 => S754_zero false
  | Zpos p =>
      S754_finite false (scaled p (53 - Zpos (digits2_pos p))) (Zpos (digits2_pos p) - 53)
  | Zneg p =>
      S754_finite true (scaled p (53 - Zpos (digits2_pos p))) (Zpos (digits2_pos p) - 53)
  end.

(** The clock is at most 30 seconds away from the time [h]:[m] of its
    day. *)
Definition inWindow (tza : Z) (now : JSDate.Date) (h m : Z) : bool :=
  Z.abs (secondOfDay tza now - (h * 3600 + m * 60)) <=? 30.

(** A collection has a habit of a given id with a given reminder time. *)
Definition reminds (habitId time : string) (habits : list Habit) : bool :=
  existsb (fun habit => (id habit =? habitId)%string
                        && JSArray.includes (reminders habit) time)
          habits.

(** The alerts of a list that are for a given habit id and reminder
    time. *)
Definition alertsFor (habitId time : string) (alerts : list ReminderAlert)
  : list ReminderAlert :=
  filter (fun a => (alert_habitId a =? habitId)%string && (alert_time a =? time)%string)
         alerts.
(** A decimal digit. *)
Definition isDigit (c : ascii) : bool :=
  (48 <=? N_of_ascii c)%N && (N_of_ascii c <=? 57)%N.


(** A part of a reminder entry that is a decimal integer of 1 to 15
    digits, and the integer it writes. *)
Definition decimalPart (s : string) : bool :=
  match s with
  | EmptyString => false
  | _ => (String.length s <=? 15)%nat && forallb isDigit (list_ascii_of_string s)
  end.

Definition decimalValue (s : string) : Z :=
  fold_left (fun acc c => acc * 10 + (Z.of_N (N_of_ascii c) - 48))
            (list_ascii_of_string s) 0.

(** A part that is a minus sign and a decimal integer other than 0. *)
Definition negativePart (s : string) : bool :=
  match s with
  | String c d => Ascii.eqb c "-" && decimalPart d && (0 <? decimalValue d)
  | EmptyString => false
  end.

(** The characters that numeric literals are made of: white space, the
    digits, the signs, the point, the exponent mark, the letters of the
    hexadecimal digits, of the prefixes [0x], [0o], [0b] and of
    [Infinity].  The code units past 127 are left with them: nothing is
    said of the text they are in. *)
Definition numericChar (c : ascii) : bool :=
  (128 <=? N_of_ascii c)%N
  || JSString.isWhiteSpace c
  || existsb (Ascii.eqb c) (list_ascii_of_string "0123456789+-.abcdefABCDEFxXoOInity").

(** A part with an ASCII character that no numeric literal has. *)
Definition nonNumeric (s : string) : bool :=
  existsb (fun c => negb (numericChar c)) (list_ascii_of_string s).

(** Entries that can be told from their text never to fire: no colon;
    an hour or a minute part that is not numeric or is a negative
    integer; a decimal hour above 23; a decimal minute above 59. *)
Definition neverFires (time : string) : bool :=
  match JSString.split ":" time with
  | hour :: minute :: _ =>
      nonNumeric hour || nonNumeric minute
      || negativePart hour || negativePart minute
      || (decimalPart hour && (23 <? decimalValue hour))
      || (decimalPart minute && (59 <? decimalValue minute))
  | _ => true
  end.


(** * Properties *)

(** ** The platform model on examples *)

Example Number_examples :
  map JSNumber.Number ["07"; "00"; " 7 "; ""; "7.5"; "1e1"; "0x10"; "-0"; ".5"; "5."]
  = [7; 0; 7; 0; 7.5; 10; 16; neg_zero; 0.5; 5]%float
  /\ forallb (fun s => is_nan (JSNumber.Number s)) ["abc"; "7:"; "."; "1e"; "0x"; "+-1"; "7 7"; "Infinit"] = true
  /\ map JSNumber.Number ["Infinity"; "-Infinity"; "1e400"; "0.1"; "123456789012345678901234567890"]
     = [infinity; neg_infinity; infinity; 0x1.999999999999ap-4; 0x1.8ee90ff6c373ep+96]%float.
Proof. vm_compute. repeat split. Qed.

Example Date_examples :
  JSDate.CivilFromDays 0 = (1970, 1, 1)
  /\ JSDate.CivilFromDays 19782 = (2024, 2, 29)
  /\ JSDate.DaysFromCivil 2024 3 1 = 19783
  /\ JSDate.CivilFromDays (-1) = (1969, 12, 31)
  /\ JSDate.toISOString 1709210096789 = "2024-02-29T12:34:56.789Z"
  /\ JSDate.parse "2024-02-29" = Some 1709164800000
  /\ JSDate.parse "2023-02-29" = None
  /\ JSDate.toISOString (JSDate.UTC_ymd 10000 0 1) = "+010000-01-01T00:00:00.000Z"
  /\ JSDate.toISOString (JSDate.UTC_ymd 24 0 1) = "1924-01-01T00:00:00.000Z"
  /\ JSDate.toISOString (JSDate.setDate (-18000000) 1709164800000 0) = "2024-02-01T00:00:00.000Z".
Proof. vm_compute. repeat split. Qed.

Example JSON_parse_examples :
  JSON.parse "null" = Some JSON.Null
  /\ JSON.parse "42" = Some (JSON.Num 42)
  /\ JSON.parse " [1, [true, {}], -2.5e1 ] " =
     Some (JSON.Arr [JSON.Num 1; JSON.Arr [JSON.Bool true; JSON.Obj []]; JSON.Num (-25)])
  /\ JSON.parse (JSON.text "{ 'id' : 'a\n', 'n': [] }") =
     Some (JSON.Obj [("id", JSON.Str (String "a" (String (ascii_of_N 10) "")));
                     ("n", JSON.Arr [])])
  /\ JSON.parse "{oops" = None
  /\ JSON.parse "[1,]" = None
  /\ JSON.parse "01" = None
  /\ JSON.parse "" = None.
Proof. vm_compute. repeat split. Qed.

(** ** The calendar

    The year of an era and the month of a year are bounded divisions, so
    the facts about them are linear arithmetic; the era of a day number
    then only shifts the year by a multiple of 400. *)

Module CalendarFacts.
Import JSDate.

Lemma year_facts (doe : Z) :
  0 <= doe < daysPerEra ->
  0 <= yearOfEra doe < 400
  /\ 0 <= dayOfYear doe <= 365
  /\ (dayOfYear doe = 365 -> InLeapYear (yearOfEra doe + 1) = true)
  /\ (firstKeyDay + epochShift <= doe ->
      99 <= yearOfEra doe /\ (yearOfEra doe = 99 -> 306 <= dayOfYear doe))
  /\ (doe <= lastKeyDay + epochShift - 24 * daysPerEra ->
      yearOfEra doe = 399 -> dayOfYear doe <= 305).
Proof.
  intros H.
  let a := eval vm_compute in firstKeyDay in change firstKeyDay with a.
  let b := eval vm_compute in lastKeyDay in change lastKeyDay with b.
  unfold dayOfYear, yearOfEra, InLeapYear, daysPerEra, epochShift in *. cbv zeta.
  Z.to_euclidean_division_equations. lia.
Qed.

Lemma month_facts (doy : Z) (leap : bool) :
  0 <= doy <= 365 -> (doy = 365 -> leap = true) ->
  let mp := monthOfYear doy in
  let d := doy - (153 * mp + 2) / 5 + 1 in
  0 <= mp <= 11
  /\ 1 <= d
  /\ d <= (if monthOf mp =? 2 then (if leap then 29 else 28)
          else if (monthOf mp =? 4) || (monthOf mp =? 6) || (monthOf mp =? 9)
                  || (monthOf mp =? 11) then 30 else 31)
  /\ (306 <= doy -> 10 <= mp)
  /\ (doy <= 305 -> mp <= 9).
Proof.
  intros H L. cbv zeta. set (mp := monthOfYear doy).
  assert (Hq : 153 * mp <= 5 * doy + 2 < 153 * mp + 153)
    by (unfold mp, monthOfYear; Z.to_euclidean_division_equations; lia).
  clearbody mp.
  assert (C : mp = 0 \/ mp = 1 \/ mp = 2 \/ mp = 3 \/ mp = 4 \/ mp = 5 \/ mp = 6
              \/ mp = 7 \/ mp = 8 \/ mp = 9 \/ mp = 10 \/ mp = 11) by lia.
  repeat (destruct C as [-> | C];
          [vm_compute (monthOf _); cbn [Z.eqb Pos.eqb orb];
           repeat split; try lia; destruct leap; Z.to_euclidean_division_equations; lia|]).
  subst mp. vm_compute (monthOf _). cbn [Z.eqb Pos.eqb orb].
  repeat split; try lia; destruct leap; Z.to_euclidean_division_equations; lia.
Qed.

(** The facts about a day of an era that the proofs below use. *)
Lemma era_facts (doe : Z) :
  0 <= doe < daysPerEra ->
  let yoe := yearOfEra doe in
  let mp := monthOfYear (dayOfYear doe) in
  let m := monthOf mp in
  let d := dayOfYear doe - (153 * mp + 2) / 5 + 1 in
  let y := (if m <=? 2 then 1 else 0) + yoe in
  0 <= yoe < 400 /\ 0 <= mp <= 11 /\ 1 <= d <= DaysInMonth y m
  /\ dayOfEra yoe mp d = doe
  /\ (firstKeyDay + epochShift <= doe -> 100 <= y)
  /\ (doe <= lastKeyDay + epochShift - 24 * daysPerEra -> y <= 399).
Proof.
  intros H. cbv zeta.
  destruct (year_facts doe H) as (Hy & Hdoy & Hleap & Hlo & Hhi).
  destruct (month_facts (dayOfYear doe) (InLeapYear (yearOfEra doe + 1)) Hdoy Hleap)
    as (Hmp & Hd1 & Hd & Hjan & Hdec).
  set (mp := monthOfYear (dayOfYear doe)) in *.
  assert (Hm : (monthOf mp <=? 2) = (10 <=? mp)).
  { unfold monthOf. destruct (mp <? 10) eqn:E.
    - apply Z.ltb_lt in E. transitivity false; [apply Z.leb_gt|symmetry; apply Z.leb_gt]; lia.
    - apply Z.ltb_ge in E. transitivity true; [apply Z.leb_le|symmetry; apply Z.leb_le]; lia. }
  repeat split; try lia.
  - unfold DaysInMonth. destruct (monthOf mp =? 2) eqn:E2.
    + apply Z.eqb_eq in E2.
      replace (monthOf mp <=? 2) with true by (symmetry; apply Z.leb_le; lia).
      now replace (1 + yearOfEra doe) with (yearOfEra doe + 1) by lia.
    + exact Hd.
  - unfold dayOfEra, dayOfYear in *. fold mp. lia.
  - intros Hc. specialize (Hlo Hc). rewrite Hm.
    destruct (10 <=? mp) eqn:E; [lia|]. apply Z.leb_gt in E. lia.
  - intros Hc. specialize (Hhi Hc). rewrite Hm.
    destruct (10 <=? mp) eqn:E; [|lia]. apply Z.leb_le in E. lia.
Qed.

End CalendarFacts.

(** ** Days, local time and date identifiers *)

Module DateFacts.
Import JSDate CalendarFacts.

Lemma era_split (z : Z) :
  z + epochShift = daysPerEra * ((z + epochShift) / daysPerEra)
                   + (z + epochShift) mod daysPerEra
  /\ 0 <= (z + epochShift) mod daysPerEra < daysPerEra.
Proof.
  split.
  - apply Z.div_mod. unfold daysPerEra. lia.
  - apply Z.mod_pos_bound. unfold daysPerEra. lia.
Qed.

Lemma monthOf_inv (mp : Z) :
  0 <= mp <= 11 ->
  (if monthOf mp <=? 2 then monthOf mp + 9 else monthOf mp - 3) = mp
  /\ 1 <= monthOf mp <= 12.
Proof.
  intros H. unfold monthOf.
  destruct (mp <? 10) eqn:E.
  - apply Z.ltb_lt in E. destruct (mp + 3 <=? 2) eqn:E2; [apply Z.leb_le in E2; lia|lia].
  - apply Z.ltb_ge in E. destruct (mp - 9 <=? 2) eqn:E2; [lia|apply Z.leb_gt in E2; lia].
Qed.

(** The calendar date of a day number determines the day number. *)
Lemma DaysFromCivil_CivilFromDays (z : Z) :
  DaysFromCivil (fst (fst (CivilFromDays z))) (snd (fst (CivilFromDays z)))
                (snd (CivilFromDays z)) = z.
Proof.
  unfold CivilFromDays. cbv zeta. cbn [fst snd].
  destruct (era_split z) as [Hz Hdoe].
  set (era := (z + epochShift) / daysPerEra) in *.
  set (doe := (z + epochShift) mod daysPerEra) in *.
  destruct (era_facts doe Hdoe) as (Hyoe & Hmp & _ & Hd & _).
  set (mp := monthOfYear (dayOfYear doe)) in *.
  set (yoe := yearOfEra doe) in *.
  destruct (monthOf_inv mp Hmp) as [Hm _].
  unfold DaysFromCivil. rewrite Hm.
  replace (if monthOf mp <=? 2
           then (if monthOf mp <=? 2 then 1 else 0) + yoe + era * 400 - 1
           else (if monthOf mp <=? 2 then 1 else 0) + yoe + era * 400)
    with (yoe + era * 400) by (destruct (monthOf mp <=? 2); lia).
  rewrite Z.div_add, Z.mod_add by lia.
  rewrite Z.div_small, Z.mod_small by lia.
  rewrite Hd. lia.
Qed.

Lemma InLeapYear_era (y era : Z) : InLeapYear (y + era * 400) = InLeapYear y.
Proof.
  unfold InLeapYear.
  replace ((y + era * 400) mod 4) with (y mod 4)
    by (replace (era * 400) with (era * 100 * 4) by lia; now rewrite Z.mod_add by lia).
  replace ((y + era * 400) mod 100) with (y mod 100)
    by (replace (era * 400) with (era * 4 * 100) by lia; now rewrite Z.mod_add by lia).
  now rewrite Z.mod_add by lia.
Qed.

(** The month and the day of the month of a day number are those of a
    calendar date. *)
Lemma CivilFromDays_valid (z : Z) :
  let '(y, m, d) := CivilFromDays z in
  1 <= m <= 12 /\ 1 <= d <= DaysInMonth y m.
Proof.
  unfold CivilFromDays. cbv zeta.
  destruct (era_split z) as [Hz Hdoe].
  set (era := (z + epochShift) / daysPerEra) in *.
  set (doe := (z + epochShift) mod daysPerEra) in *.
  destruct (era_facts doe Hdoe) as (_ & Hmp & Hd & _).
  set (mp := monthOfYear (dayOfYear doe)) in *.
  destruct (monthOf_inv mp Hmp) as [_ Hm].
  split; [exact Hm|].
  unfold DaysInMonth in *. rewrite InLeapYear_era. exact Hd.
Qed.

(** The years of the days that have a date identifier. *)
Lemma keyDay_year (z : Z) :
  keyDay z -> 100 <= fst (fst (CivilFromDays z)) <= 9999.
Proof.
  unfold keyDay. intros Hk.
  unfold CivilFromDays. cbv zeta. cbn [fst].
  destruct (era_split z) as [Hz Hdoe].
  set (era := (z + epochShift) / daysPerEra) in *.
  set (doe := (z + epochShift) mod daysPerEra) in *.
  destruct (era_facts doe Hdoe) as (Hyoe & _ & _ & _ & Hlo & Hhi).
  set (y := (if monthOf (monthOfYear (dayOfYear doe)) <=? 2 then 1 else 0) + yearOfEra doe) in *.
  assert (Hy : 0 <= y <= 400)
    by (unfold y; destruct (monthOf (monthOfYear (dayOfYear doe)) <=? 2); lia).
  let a := eval vm_compute in firstKeyDay in change firstKeyDay with a in *.
  let b := eval vm_compute in lastKeyDay in change lastKeyDay with b in *.
  unfold epochShift, daysPerEra in *.
  replace ((if monthOf (monthOfYear (dayOfYear doe)) <=? 2 then 1 else 0)
           + yearOfEra doe + era * 400) with (y + era * 400) by (unfold y; lia).
  lia.
Qed.

Lemma DaysFromCivil_day (y m d : Z) :
  DaysFromCivil y m d = DaysFromCivil y m 1 + d - 1.
Proof. unfold DaysFromCivil, dayOfEra. lia. Qed.

(** [MakeDay] on the year and the month of a time value. *)
Lemma MakeDay_civil (t date : Z) :
  MakeDay (YearFromTime t) (MonthFromTime t) date = Day t - DateFromTime t + date.
Proof.
  unfold MakeDay, YearFromTime, MonthFromTime, DateFromTime.
  pose proof (CivilFromDays_valid (Day t)) as Hv.
  pose proof (DaysFromCivil_CivilFromDays (Day t)) as Hr.
  destruct (CivilFromDays (Day t)) as [[y m] d]. cbn [fst snd] in *.
  destruct Hv as [Hm _].
  rewrite Z.div_small, Z.mod_small by lia.
  rewrite (DaysFromCivil_day y m d) in Hr.
  replace (y + 0) with y by lia. replace (m - 1 + 1) with m by lia. lia.
Qed.

Lemma digit_value (k : Z) : 0 <= k <= 9 -> decimalDigit (digit k) = Some k.
Proof.
  intros H.
  assert (E : k = 0 \/ k = 1 \/ k = 2 \/ k = 3 \/ k = 4 \/ k = 5 \/ k = 6
              \/ k = 7 \/ k = 8 \/ k = 9) by lia.
  repeat (destruct E as [->|E]; [reflexivity|]). subst k. reflexivity.
Qed.

Lemma mod10_digit (z : Z) : 0 <= z mod 10 <= 9.
Proof. pose proof (Z.mod_pos_bound z 10). lia. Qed.

(** The text of a date identifier is read back as midnight UTC of its
    day. *)
Lemma parse_dateId (z : Z) : keyDay z -> parse (dateId z) = Some (z * msPerDay).
Proof.
  intros Hk. pose proof (keyDay_year z Hk) as Hy.
  pose proof (CivilFromDays_valid z) as Hv.
  pose proof (DaysFromCivil_CivilFromDays z) as Hr.
  unfold dateId. destruct (CivilFromDays z) as [[y m] d]. cbn [fst snd] in *.
  destruct Hv as [Hm Hd].
  assert (Hd31 : d <= 31)
    by (unfold DaysInMonth in Hd;
        repeat match type of Hd with context [if ?b then _ else _] => destruct b end; lia).
  unfold parse. cbn [pad append list_ascii_of_string Z.of_nat Pos.of_succ_nat Pos.succ].
  rewrite !digit_value by apply mod10_digit.
  change (10 ^ 3) with 1000. change (10 ^ 2) with 100.
  change (10 ^ 1) with 10. change (10 ^ 0) with 1.
  replace (1000 * ((y / 1000) mod 10) + 100 * ((y / 100) mod 10)
           + 10 * ((y / 10) mod 10) + (y / 1) mod 10) with y
    by (Z.to_euclidean_division_equations; lia).
  replace (10 * ((m / 10) mod 10) + (m / 1) mod 10) with m
    by (Z.to_euclidean_division_equations; lia).
  replace (10 * ((d / 10) mod 10) + (d / 1) mod 10) with d
    by (Z.to_euclidean_division_equations; lia).
  cbn [Ascii.eqb Bool.eqb andb].
  replace (1 <=? m) with true by (symmetry; apply Z.leb_le; lia).
  replace (m <=? 12) with true by (symmetry; apply Z.leb_le; lia).
  replace (1 <=? d) with true by (symmetry; apply Z.leb_le; lia).
  replace (d <=? DaysInMonth y m) with true by (symmetry; apply Z.leb_le; lia).
  cbn [andb]. f_equal. unfold MakeDate, MakeDay.
  rewrite Z.div_small, Z.mod_small by lia.
  rewrite (DaysFromCivil_day y m d) in Hr.
  replace (y + 0) with y by lia. replace (m - 1 + 1) with m by lia. lia.
Qed.

(** Distinct days have distinct identifiers. *)
Lemma dateId_inj (a b : Z) : keyDay a -> keyDay b -> dateId a = dateId b -> a = b.
Proof.
  intros Ha Hb E. pose proof (parse_dateId a Ha) as Pa.
  rewrite E, (parse_dateId b Hb) in Pa. unfold msPerDay in Pa.
  injection Pa. lia.
Qed.

Lemma Day_MakeDate (z : Z) : Day (MakeDate z 0) = z.
Proof. unfold Day, MakeDate. rewrite Z.add_0_r. apply Z.div_mul. unfold msPerDay. lia. Qed.

Lemma slice_date (a b c rest : string) :
  String.length a = 4%nat -> String.length b = 2%nat -> String.length c = 2%nat ->
  JSString.slice0 10 (a ++ "-" ++ b ++ "-" ++ c ++ rest)%string
  = (a ++ "-" ++ b ++ "-" ++ c)%string.
Proof.
  destruct a as [|a1 [|a2 [|a3 [|a4 [|? ?]]]]]; try discriminate.
  destruct b as [|b1 [|b2 [|? ?]]]; try discriminate.
  destruct c as [|c1 [|c2 [|? ?]]]; try discriminate.
  intros _ _ _. cbn. destruct rest; reflexivity.
Qed.

Lemma pad_length (n : nat) (z : Z) : String.length (pad n z) = n.
Proof. induction n as [|k IH]; cbn [pad String.length]; congruence. Qed.

Section Local.

Variable tza : Z.

Lemma setDate_previous (d : Date) :
  setDate tza d (getDate tza d - 1) = d - msPerDay.
Proof.
  unfold setDate, getDate, UTC, MakeDate, TimeWithinDay.
  rewrite MakeDay_civil. unfold Day, LocalTime, msPerDay.
  pose proof (Z.div_mod (d + tza) 86400000). lia.
Qed.

Lemma localDay_previous (d : Date) : localDay tza (d - msPerDay) = localDay tza d - 1.
Proof.
  unfold localDay, Day, LocalTime, msPerDay.
  replace (d - 86400000 + tza) with (d + tza + (-1) * 86400000) by lia.
  rewrite Z.div_add by lia. lia.
Qed.

(** On the days that have one, [getDateKey] is the date identifier of
    the local day. *)
Lemma getDateKey_dateId (d : Date) :
  keyDay (localDay tza d) -> getDateKey tza d = dateId (localDay tza d).
Proof.
  intros Hk. pose proof (keyDay_year _ Hk) as Hy.
  unfold getDateKey, getFullYear, getMonth, getDate, UTC_ymd.
  fold (localDay tza d) in *.
  assert (E : (0 <=? YearFromTime (LocalTime tza d))
              && (YearFromTime (LocalTime tza d) <=? 99) = false).
  { unfold YearFromTime. fold (localDay tza d).
    apply andb_false_iff. right. apply Z.leb_gt. lia. }
  rewrite E. rewrite MakeDay_civil. fold (localDay tza d).
  replace (localDay tza d - DateFromTime (LocalTime tza d) + DateFromTime (LocalTime tza d))
    with (localDay tza d) by lia.
  unfold toISOString, YearFromTime, MonthFromTime, DateFromTime.
  rewrite Day_MakeDate. unfold dateId.
  destruct (CivilFromDays (localDay tza d)) as [[y m] dd]. cbn [fst snd] in *.
  unfold isoYear.
  replace ((0 <=? y) && (y <=? 9999)) with true
    by (symmetry; apply andb_true_iff; split; apply Z.leb_le; lia).
  replace (m - 1 + 1) with m by lia.
  apply slice_date; apply pad_length.
Qed.

End Local.

End DateFacts.

(** ** Sorting and sets of strings *)

Module StringFacts.
Import JSString.

Lemma lt_irrefl (a : string) : ~ lt a a.
Proof. apply (StrictOrder_Irreflexive (R := String_as_OT.lt)). Qed.

Lemma lt_trans (a b c : string) : lt a b -> lt b c -> lt a c.
Proof. apply (StrictOrder_Transitive (R := String_as_OT.lt)). Qed.

Lemma ltb_lt (a b : string) : ltb a b = true <-> lt a b.
Proof.
  unfold ltb, lt, String_as_OT.lt.
  destruct (String_as_OT.compare a b); split; congruence.
Qed.

Lemma lt_total (a b : string) : lt a b \/ a = b \/ lt b a.
Proof.
  unfold lt. destruct (String_as_OT.compare_spec a b); auto.
Qed.

Lemma ltb_false (a b : string) : ltb a b = false <-> (a = b \/ lt b a).
Proof.
  split.
  - intros H. destruct (lt_total a b) as [L|[E|G]]; auto.
    apply ltb_lt in L. congruence.
  - intros [->|G]; destruct (ltb _ b) eqn:E; auto; apply ltb_lt in E.
    + now apply lt_irrefl in E.
    + exfalso. apply (lt_irrefl a). eapply lt_trans; eauto.
Qed.

Lemma le_trans (a b c : string) : le a b -> le b c -> le a c.
Proof.
  unfold le. rewrite !ltb_false. intros [->|H1] [->|H2]; auto.
  right. eapply lt_trans; eauto.
Qed.

Lemma sortedUnique_increasing (l : list string) : sortedUnique l <-> increasing l.
Proof.
  unfold sortedUnique, increasing. split.
  - intros [S N]. apply Sorted_StronglySorted in S; [|intros a b c; apply le_trans].
    induction l as [|x l IH]; [constructor|].
    apply StronglySorted_inv in S. destruct S as [S F].
    apply NoDup_cons_iff in N. destruct N as [Nx N].
    constructor; [now apply IH|].
    rewrite Forall_forall in *. intros y Hy. specialize (F y Hy).
    unfold le in F. apply ltb_false in F. destruct F as [->|F]; [contradiction|exact F].
  - intros S. split.
    + apply StronglySorted_Sorted.
      induction S as [|x l S IH F]; constructor; auto.
      rewrite Forall_forall in *. intros y Hy. apply ltb_false. right. now apply F.
    + induction S as [|x l S IH F]; constructor; auto.
      intros Hx. rewrite Forall_forall in F. now apply (lt_irrefl x), F.
Qed.

Lemma insert_In (x y : string) (l : list string) :
  In y (insert x l) <-> y = x \/ In y l.
Proof.
  induction l as [|z l IH]; cbn [insert].
  - cbn. intuition.
  - destruct (ltb z x); cbn [In]; [rewrite IH|]; intuition.
Qed.

Lemma sort_In (y : string) (l : list string) : In y (sort l) <-> In y l.
Proof.
  induction l as [|x l IH]; cbn [sort fold_right]; [reflexivity|].
  fold (sort l). rewrite insert_In, IH. cbn. intuition.
Qed.

Lemma insert_increasing (x : string) (l : list string) :
  increasing l -> ~ In x l -> increasing (insert x l).
Proof.
  unfold increasing. intros S. induction S as [|z l S IH F]; intros Hx; cbn [insert].
  - repeat constructor.
  - destruct (ltb z x) eqn:E.
    + constructor; [apply IH; intros H; apply Hx; now right|].
      rewrite Forall_forall in *. intros y Hy. apply insert_In in Hy.
      destruct Hy as [->|Hy]; [now apply ltb_lt|now apply F].
    + apply ltb_false in E. destruct E as [->|E]; [exfalso; apply Hx; now left|].
      constructor; [now constructor|].
      constructor; [exact E|].
      rewrite Forall_forall in *. intros y Hy. eapply lt_trans; [exact E|now apply F].
Qed.

Lemma sort_increasing (l : list string) : NoDup l -> increasing (sort l).
Proof.
  induction 1 as [|x l Hx N IH]; cbn [sort fold_right]; [constructor|].
  fold (sort l). apply insert_increasing; [exact IH|]. now rewrite sort_In.
Qed.

(** Two strictly increasing arrays with the same members are equal. *)
Lemma increasing_ext (l1 l2 : list string) :
  increasing l1 -> increasing l2 -> (forall x, In x l1 <-> In x l2) -> l1 = l2.
Proof.
  unfold increasing. intros S1. revert l2.
  induction S1 as [|a l1 S1 IH F1]; intros l2 S2 E.
  - destruct l2 as [|b l2]; [reflexivity|]. exfalso. apply (E b). now left.
  - destruct S2 as [|b l2 S2 F2]; [exfalso; apply (E a); now left|].
    rewrite Forall_forall in F1, F2.
    assert (a = b) as ->.
    { destruct (proj1 (E a) (or_introl eq_refl)) as [->|Ha]; [reflexivity|].
      destruct (proj2 (E b) (or_introl eq_refl)) as [->|Hb]; [reflexivity|].
      exfalso. apply (lt_irrefl a). eapply lt_trans; [apply F1, Hb|apply F2, Ha]. }
    f_equal. apply IH; [exact S2|].
    intros x. split; intros Hx.
    + destruct (proj1 (E x) (or_intror Hx)) as [<-|H]; [|exact H].
      exfalso. now apply (lt_irrefl b), F1.
    + destruct (proj2 (E x) (or_intror Hx)) as [<-|H]; [|exact H].
      exfalso. now apply (lt_irrefl b), F2.
Qed.

Lemma sort_fixed (l : list string) : increasing l -> sort l = l.
Proof.
  intros S. apply increasing_ext; [|exact S|intros x; apply sort_In].
  apply sort_increasing. now apply sortedUnique_increasing in S as [_ N].
Qed.

Lemma filter_increasing (f : string -> bool) (l : list string) :
  increasing l -> increasing (filter f l).
Proof.
  unfold increasing. induction 1 as [|x l S IH F]; cbn [filter]; [constructor|].
  destruct (f x); [|exact IH]. constructor; [exact IH|].
  rewrite Forall_forall in *. intros y Hy. apply filter_In in Hy. now apply F.
Qed.

End StringFacts.

Module SetFacts.
Import JSSet.

Lemma has_In (s : t) (x : string) : has s x = true <-> In x s.
Proof.
  unfold has. rewrite existsb_exists. split.
  - intros (y & Hy & E). apply String.eqb_eq in E. now subst.
  - intros H. exists x. split; [exact H|apply String.eqb_refl].
Qed.

Lemma has_false (s : t) (x : string) : has s x = false <-> ~ In x s.
Proof. rewrite <- has_In. destruct (has s x); split; congruence. Qed.

Lemma add_In (s : t) (x y : string) : In y (add s x) <-> In y s \/ y = x.
Proof.
  unfold add. destruct (has s x) eqn:E.
  - apply has_In in E. split; [auto|]. intros [H| ->]; auto.
  - rewrite in_app_iff. cbn. intuition.
Qed.

Lemma add_NoDup (s : t) (x : string) : NoDup s -> NoDup (add s x).
Proof.
  intros N. unfold add. destruct (has s x) eqn:E; [exact N|].
  apply has_false in E. apply NoDup_app; auto.
  - repeat constructor. intros [].
  - intros a Ha [<- | [ ] ]. contradiction.
Qed.

Lemma delete_In (s : t) (x y : string) : In y (delete s x) <-> In y s /\ y <> x.
Proof.
  unfold delete. rewrite filter_In, negb_true_iff, String.eqb_neq. reflexivity.
Qed.

Lemma delete_NoDup (s : t) (x : string) : NoDup s -> NoDup (delete s x).
Proof. apply NoDup_filter. Qed.

Lemma fold_add_In (l : list string) (acc : t) (y : string) :
  In y (fold_left add l acc) <-> In y acc \/ In y l.
Proof.
  revert acc. induction l as [|x l IH]; intros acc; cbn [fold_left].
  - cbn. intuition.
  - rewrite IH, add_In. cbn. intuition.
Qed.

Lemma fold_add_NoDup (l : list string) (acc : t) :
  NoDup acc -> NoDup (fold_left add l acc).
Proof.
  revert acc. induction l as [|x l IH]; intros acc N; cbn [fold_left]; auto.
  apply IH. now apply add_NoDup.
Qed.

Lemma ofArray_In (l : list string) (y : string) : In y (ofArray l) <-> In y l.
Proof. unfold ofArray. rewrite fold_add_In. cbn. intuition. Qed.

Lemma ofArray_NoDup (l : list string) : NoDup (ofArray l).
Proof. apply fold_add_NoDup. constructor. Qed.

Lemma fold_add_fresh (l : list string) (acc : t) :
  NoDup (acc ++ l) -> fold_left add l acc = acc ++ l.
Proof.
  revert acc. induction l as [|x l IH]; intros acc N; cbn [fold_left].
  - now rewrite app_nil_r.
  - assert (E : has acc x = false).
    { apply has_false. intros H. apply NoDup_remove_2 in N. apply N.
      apply in_app_iff. now left. }
    unfold add at 2. rewrite E.
    replace (acc ++ x :: l) with ((acc ++ [x]) ++ l) in * by now rewrite <- app_assoc.
    now apply IH.
Qed.

(** A set built from an array without duplicates holds it unchanged. *)
Lemma ofArray_NoDup_id (l : list string) : NoDup l -> ofArray l = l.
Proof. intros N. unfold ofArray. now rewrite fold_add_fresh. Qed.

End SetFacts.

(** ** The habit store *)

Module StoreFacts.
Import JSString JSSet StringFacts SetFacts.

Lemma toggled_increasing (c : list string) (x : string) : increasing (toggled c x).
Proof.
  unfold toggled, toArray. apply sort_increasing.
  destruct (has (ofArray c) x).
  - apply delete_NoDup, ofArray_NoDup.
  - apply add_NoDup, ofArray_NoDup.
Qed.

Lemma toggled_In (c : list string) (x y : string) :
  In y (toggled c x) <->
  (In x c /\ In y c /\ y <> x) \/ (~ In x c /\ (In y c \/ y = x)).
Proof.
  unfold toggled, toArray. rewrite sort_In.
  destruct (has (ofArray c) x) eqn:E.
  - apply has_In in E. rewrite ofArray_In in E.
    rewrite delete_In, ofArray_In. intuition.
  - apply has_false in E. rewrite ofArray_In in E.
    rewrite add_In, ofArray_In. intuition.
Qed.

Lemma toggled_twice (c : list string) (x : string) :
  increasing c -> toggled (toggled c x) x = c.
Proof.
  intros S. apply increasing_ext; [apply toggled_increasing|exact S|].
  intros y. rewrite toggled_In, !toggled_In.
  destruct (String.string_dec y x) as [->|N];
    destruct (in_dec String.string_dec x c) as [I|I]; intuition.
Qed.

Lemma withCompletions_same (h : Habit) : withCompletions h (completions h) = h.
Proof. now destruct h. Qed.

Lemma withCompletions_twice (h : Habit) (a b : list string) :
  withCompletions (withCompletions h a) b = withCompletions h b.
Proof. reflexivity. Qed.

Lemma habits_withHabits (st : Home) (l : list Habit) : habits (withHabits st l) = l.
Proof. reflexivity. Qed.

Lemma withHabits_twice (st : Home) (a b : list Habit) :
  withHabits (withHabits st a) b = withHabits st b.
Proof. reflexivity. Qed.

Lemma withHabits_same (st : Home) : withHabits st (habits st) = st.
Proof. now destruct st. Qed.

Lemma handleToggleCompletion_map (habitId dateKey : string) (st : Home) :
  handleToggleCompletion habitId dateKey st
  = withHabits st (map (toggleHabit habitId dateKey) (habits st)).
Proof. reflexivity. Qed.

Lemma toggleHabit_twice (habitId dateKey : string) (h : Habit) :
  sortedUnique (completions h) ->
  toggleHabit habitId dateKey (toggleHabit habitId dateKey h) = h.
Proof.
  intros Hc. unfold toggleHabit.
  destruct (negb (id h =? habitId)%string) eqn:Eid.
  - now rewrite Eid.
  - change (id (withCompletions h (toggled (completions h) dateKey))) with (id h).
    rewrite Eid, withCompletions_twice.
    change (completions (withCompletions h (toggled (completions h) dateKey)))
      with (toggled (completions h) dateKey).
    rewrite toggled_twice by now apply sortedUnique_increasing.
    apply withCompletions_same.
Qed.

(** C3. [handleToggleCompletion] is an involution: on a store whose
    completions are sorted and free of duplicates, whatever its reminders
    are, toggling the same habit and date twice gives back the state it
    started from, and so the same completions in every habit. *)
Theorem toggleCompletion_involution (habitId dateKey : string) (st : Home) :
  completionsInvariant (habits st) ->
  handleToggleCompletion habitId dateKey (handleToggleCompletion habitId dateKey st) = st
  /\ map completions
         (habits (handleToggleCompletion habitId dateKey
                    (handleToggleCompletion habitId dateKey st)))
     = map completions (habits st).
Proof.
  intros Inv.
  assert (E : handleToggleCompletion habitId dateKey
                (handleToggleCompletion habitId dateKey st) = st).
  { rewrite !handleToggleCompletion_map, habits_withHabits, withHabits_twice.
    transitivity (withHabits st (habits st)); [|apply withHabits_same].
    f_equal. rewrite map_map.
    induction Inv as [|h l Hc _ IH]; cbn [map]; [reflexivity|].
    now rewrite toggleHabit_twice, IH. }
  split; [exact E|now rewrite E].
Qed.

Ltac solve_sortedUnique :=
  split;
  [ repeat constructor; vm_compute; reflexivity
  | repeat constructor; cbn [In]; intuition discriminate ].

Ltac solve_storeInvariant :=
  repeat (constructor; [split; solve_sortedUnique|]); constructor.

Lemma exampleHabits_invariant : storeInvariant exampleHabits.
Proof. solve_storeInvariant. Defined.

Lemma toggleCompletion_involution_witness :
  handleToggleCompletion "habit-1" "2024-01-10"
    (handleToggleCompletion "habit-1" "2024-01-10" exampleHome) = exampleHome
  /\ map completions
         (habits (handleToggleCompletion "habit-1" "2024-01-10"
                    (handleToggleCompletion "habit-1" "2024-01-10" exampleHome)))
     = map completions (habits exampleHome).
Proof.
  apply (toggleCompletion_involution "habit-1" "2024-01-10" exampleHome).
  repeat (constructor; [solve_sortedUnique|]). constructor.
Defined.

(** *** The invariant is kept *)

Lemma sortedUnique_nil : sortedUnique [].
Proof. split; constructor. Qed.

Lemma sortedUnique_singleton (x : string) : sortedUnique [x].
Proof. split; repeat constructor. intros []. Qed.

Lemma toggleHabit_invariant (habitId dateKey : string) (h : Habit) :
  habitInvariant h -> habitInvariant (toggleHabit habitId dateKey h).
Proof.
  intros [Hr Hc]. unfold toggleHabit.
  destruct (negb (id h =? habitId)%string); [now split|].
  split; [exact Hr|]. apply sortedUnique_increasing, toggled_increasing.
Qed.

Lemma Forall_map_keep (f : Habit -> Habit) (l : list Habit) :
  (forall h, habitInvariant h -> habitInvariant (f h)) ->
  storeInvariant l -> storeInvariant (map f l).
Proof.
  intros Hf Inv. unfold storeInvariant in *. rewrite Forall_map.
  induction Inv; constructor; auto.
Qed.

(** C5. Every operation of the store keeps the invariant: applied to a
    collection whose reminders and completions are sorted and free of
    duplicates in every habit, [handleToggleCompletion], [handleAddHabit],
    [handleAddReminder], [handleRemoveReminder] and [handleDeleteHabit]
    return a collection with the same property. *)
Theorem store_operations_keep_invariant (st : Home) :
  storeInvariant (habits st) ->
  (forall habitId dateKey,
      storeInvariant (habits (handleToggleCompletion habitId dateKey st)))
  /\ (forall uuid pick now, storeInvariant (habits (handleAddHabit uuid pick now st)))
  /\ (forall habitId time, storeInvariant (habits (handleAddReminder habitId time st)))
  /\ (forall habitId time, storeInvariant (habits (handleRemoveReminder habitId time st)))
  /\ (forall habitId, storeInvariant (habits (handleDeleteHabit habitId st))).
Proof.
  intros Inv. repeat split.
  - intros habitId dateKey. rewrite handleToggleCompletion_map, habits_withHabits.
    apply Forall_map_keep; [apply toggleHabit_invariant|exact Inv].
  - intros uuid pick now. unfold handleAddHabit.
    destruct (negb (truthy (trim (formName st)))); [exact Inv|].
    cbn [habits]. constructor; [|exact Inv].
    split; cbn [reminders completions]; [|apply sortedUnique_nil].
    destruct (truthy (formReminderTime st));
      [apply sortedUnique_singleton|apply sortedUnique_nil].
  - intros habitId time. unfold handleAddReminder.
    destruct (negb (truthy time)); [exact Inv|].
    rewrite habits_withHabits. apply Forall_map_keep; [|exact Inv].
    intros h [Hr Hc]. destruct (negb (id h =? habitId)%string); [now split|].
    split; [|exact Hc]. cbn [reminders withReminders].
    apply sortedUnique_increasing, sort_increasing. unfold toArray. apply ofArray_NoDup.
  - intros habitId time. unfold handleRemoveReminder.
    rewrite habits_withHabits. apply Forall_map_keep; [|exact Inv].
    intros h [Hr Hc]. destruct (negb (id h =? habitId)%string); [now split|].
    split; [|exact Hc]. cbn [reminders withReminders].
    apply sortedUnique_increasing, filter_increasing. now apply sortedUnique_increasing.
  - intros habitId. unfold handleDeleteHabit. cbn [habits].
    unfold storeInvariant in *. rewrite Forall_forall in *.
    intros h Hh. apply filter_In in Hh. now apply Inv.
Qed.

Lemma store_operations_keep_invariant_witness :
  (forall habitId dateKey,
      storeInvariant (habits (handleToggleCompletion habitId dateKey exampleHome)))
  /\ (forall uuid pick now,
         storeInvariant (habits (handleAddHabit uuid pick now exampleHome)))
  /\ (forall habitId time,
         storeInvariant (habits (handleAddReminder habitId time exampleHome)))
  /\ (forall habitId time,
         storeInvariant (habits (handleRemoveReminder habitId time exampleHome)))
  /\ (forall habitId, storeInvariant (habits (handleDeleteHabit habitId exampleHome))).
Proof.
  apply (store_operations_keep_invariant exampleHome). exact exampleHabits_invariant.
Defined.

(** *** The frame of the targeted operations *)

Lemma map_sameElsewhere (habitId : string) (f : Habit -> Habit) (l : list Habit) :
  (forall h, id (f h) = id h /\ (id h <> habitId -> f h = h)) ->
  sameElsewhere habitId l (map f l).
Proof.
  intros Hf. unfold sameElsewhere. induction l as [|h l IH]; cbn [map]; constructor; auto.
Qed.

Lemma targeted_update (habitId : string) (g : Habit -> Habit) (h : Habit) :
  id (g h) = id h ->
  id (if negb (id h =? habitId)%string then h else g h) = id h
  /\ (id h <> habitId -> (if negb (id h =? habitId)%string then h else g h) = h).
Proof.
  intros Hg. destruct (id h =? habitId)%string eqn:E; cbn [negb].
  - apply String.eqb_eq in E. split; [exact Hg|]. intros N. contradiction.
  - split; reflexivity.
Qed.

(** C10. The targeted operations touch the target only:
    [handleToggleCompletion], [handleAddReminder] and [handleRemoveReminder]
    leave every habit whose id is not [habitId] as it was, and all habits
    in their order; [handleDeleteHabit] removes the habits whose id is
    [habitId] and leaves the others as they were, in their order. *)
Theorem targeted_operations_frame (habitId : string) (st : Home) :
  (forall dateKey,
      sameElsewhere habitId (habits st)
        (habits (handleToggleCompletion habitId dateKey st)))
  /\ (forall time,
         sameElsewhere habitId (habits st) (habits (handleAddReminder habitId time st)))
  /\ (forall time,
         sameElsewhere habitId (habits st) (habits (handleRemoveReminder habitId time st)))
  /\ removedById habitId (habits st) (habits (handleDeleteHabit habitId st)).
Proof.
  repeat split.
  - intros dateKey. unfold handleToggleCompletion. rewrite habits_withHabits.
    apply map_sameElsewhere. intros h.
    apply (targeted_update habitId (fun h => withCompletions h _)). reflexivity.
  - intros time. unfold handleAddReminder.
    destruct (negb (truthy time)).
    + unfold sameElsewhere. induction (habits st); constructor; auto.
    + rewrite habits_withHabits. apply map_sameElsewhere. intros h.
      apply (targeted_update habitId (fun h => withReminders h _)). reflexivity.
  - intros time. unfold handleRemoveReminder. rewrite habits_withHabits.
    apply map_sameElsewhere. intros h.
    apply (targeted_update habitId (fun h => withReminders h _)). reflexivity.
  - unfold handleDeleteHabit. cbn [habits].
    induction (habits st) as [|h l IH]; cbn [filter]; [constructor|].
    destruct (id h =? habitId)%string eqn:E; cbn [negb].
    + apply String.eqb_eq in E. now apply removed_drop.
    + apply String.eqb_neq in E. now apply removed_keep.
Qed.

(** *** Adding a habit *)

Lemma trimEnd_nonblank (c : ascii) (r : string) :
  isWhiteSpace c = false -> trimEnd (String c r) <> EmptyString.
Proof.
  intros H. cbn [trimEnd]. destruct (trimEnd r); [rewrite H|]; discriminate.
Qed.

Lemma truthy_trim (s : string) : truthy (trim s) = negb (blank s).
Proof.
  unfold trim, blank. induction s as [|c r IH]; [reflexivity|].
  cbn [trimStart list_ascii_of_string forallb].
  destruct (isWhiteSpace c) eqn:E; cbn [andb]; [exact IH|].
  pose proof (trimEnd_nonblank c r E) as N.
  unfold truthy. destruct (trimEnd (String c r)); [contradiction|reflexivity].
Qed.

(** C6. [handleAddHabit] on a draft whose name is empty or white space
    only changes nothing; on any other draft it puts a new habit in front
    of the collection, with the trimmed name, the goal per week raised to 1
    when it is below 1, no completions, and the reminder time of the draft
    as its only reminder when one was given, no reminder otherwise. *)
Theorem addHabit_spec (uuid : string) (pick : nat) (now : JSDate.Date) (st : Home) :
  (blank (formName st) = true -> handleAddHabit uuid pick now st = st)
  /\ (blank (formName st) = false ->
      exists habit,
        habits (handleAddHabit uuid pick now st) = habit :: habits st
        /\ id habit = uuid
        /\ name habit = trim (formName st)
        /\ goalPerWeek habit
           = (if (formGoalPerWeek st <? 1)%float then 1%float else formGoalPerWeek st)
        /\ (goalPerWeek habit <? 1)%float = false
        /\ completions habit = []
        /\ reminders habit
           = (if (formReminderTime st =? "")%string then [] else [formReminderTime st])).
Proof.
  unfold handleAddHabit. rewrite truthy_trim, negb_involutive.
  split; intros B; rewrite B; [reflexivity|].
  eexists. split; [reflexivity|]. cbn [id name goalPerWeek completions reminders].
  repeat split.
  - destruct (formGoalPerWeek st <? 1)%float eqn:E; [reflexivity|exact E].
  - unfold truthy. now destruct (formReminderTime st =? "")%string.
Qed.

Example handleAddHabit_example :
  map name (habits (handleAddHabit "uuid-1" 2 0 exampleHome))
  = ["Evening stretch"; "Morning Run"; "Mindful Break"]
  /\ map goalPerWeek (habits (handleAddHabit "uuid-1" 2 0 exampleHome))
     = [1; 5; 7]%float
  /\ map reminders (habits (handleAddHabit "uuid-1" 2 0 exampleHome))
     = [["21:15"]; ["06:30"]; ["12:00"; "20:00"]]
  /\ handleAddHabit "uuid-1" 2 0
       (mkHome exampleHabits None "   " emojiFire 5%float "21:15" [])
     = mkHome exampleHabits None "   " emojiFire 5%float "21:15" [].
Proof. vm_compute. repeat split. Qed.

End StoreFacts.

(** ** Recent days and the current streak *)

Module StreakFacts.
Import JSDate CalendarFacts DateFacts SetFacts.

Section Local.

Variable tza : Z.

Lemma daysBefore_0 (d : Date) : daysBefore d 0 = d.
Proof. unfold daysBefore. lia. Qed.

Lemma daysBefore_next (d : Date) (k : Z) :
  setDate tza (daysBefore d k) (getDate tza (daysBefore d k) - 1) = daysBefore d (k + 1).
Proof. rewrite setDate_previous. unfold daysBefore. lia. Qed.

Lemma localDay_daysBefore (d : Date) (k : Z) :
  localDay tza (daysBefore d k) = localDay tza d - k.
Proof.
  unfold localDay, daysBefore, Day, LocalTime, msPerDay.
  replace (d - k * 86400000 + tza) with (d + tza + (- k) * 86400000) by lia.
  rewrite Z.div_add by lia. lia.
Qed.

Lemma keyDay_between (a b z : Z) : keyDay a -> keyDay b -> a <= z <= b -> keyDay z.
Proof. unfold keyDay. lia. Qed.

(** The key of the day [k] days back is the identifier of that day. *)
Lemma getDateKey_daysBefore (d : Date) (k : Z) :
  keyDay (localDay tza d - k) ->
  getDateKey tza (daysBefore d k) = dateId (localDay tza d - k).
Proof.
  intros Hk. rewrite getDateKey_dateId; rewrite localDay_daysBefore; auto.
Qed.

Lemma daysBefore_daysBefore (d : Date) (a b : Z) :
  daysBefore (daysBefore d a) b = daysBefore d (a + b).
Proof. unfold daysBefore. lia. Qed.

(** The loop of [getLastSevenDays] puts the keys of the next [n] days
    back in front of [days], the oldest first. *)
Lemma lastDaysLoop_S (n : nat) (days : list string) (d : Date) :
  lastDaysLoop tza (S n) days d
  = lastDaysLoop tza n (getDateKey tza d :: days)
      (setDate tza d (getDate tza d - 1)).
Proof. lazy beta iota delta [lastDaysLoop]. reflexivity. Qed.

Lemma shifted_keys (d : Date) (l : list nat) :
  map (fun k => getDateKey tza (daysBefore (daysBefore d 1) (Z.of_nat k))) l
  = map (fun k => getDateKey tza (daysBefore d (Z.of_nat k))) (map S l).
Proof.
  rewrite map_map. apply map_ext. intros k.
  rewrite daysBefore_daysBefore, Nat2Z.inj_succ.
  replace (1 + Z.of_nat k) with (Z.succ (Z.of_nat k)) by lia. reflexivity.
Qed.

(** The loop of [getLastSevenDays] puts the keys of the next [n] days
    back in front of [days], the oldest first. *)
Lemma lastDaysLoop_days (n : nat) (days : list string) (d : Date) :
  lastDaysLoop tza n days d
  = map (fun k => getDateKey tza (daysBefore d (Z.of_nat k))) (rev (seq 0 n)) ++ days.
Proof.
  revert days d. induction n as [|n IH]; intros days d; [reflexivity|].
  rewrite lastDaysLoop_S, setDate_previous.
  replace (d - msPerDay) with (daysBefore d 1) by (unfold daysBefore; lia).
  rewrite IH, shifted_keys.
  rewrite <- cons_seq, <- seq_shift. cbn [rev]. rewrite <- (map_rev S).
  rewrite (map_app _ (map S (rev (seq 0 n)))), <- app_assoc.
  cbn [map app]. change (Z.of_nat 0) with 0. rewrite daysBefore_0. reflexivity.
Qed.

(** C9. [getLastSevenDays] returns seven date identifiers, all distinct,
    the oldest first: the last one is the identifier of today, and each
    one is the day after the one before it.  The days are those of the
    last week of a clock whose local date has an identifier of the form
    YYYY-MM-DD. *)
Theorem getLastSevenDays_spec (now : Date) :
  keyDay (localDay tza now - 6) -> keyDay (localDay tza now) ->
  let days := getLastSevenDays tza now in
  List.length days = 7%nat
  /\ NoDup days
  /\ nth_error days 6 = Some (getDateKey tza now)
  /\ days = map (fun k => getDateKey tza (daysBefore now k)) [6; 5; 4; 3; 2; 1; 0]
  /\ forall i a b,
       nth_error days i = Some a -> nth_error days (S i) = Some b ->
       exists t, parse a = Some t /\ parse b = Some (t + msPerDay).
Proof.
  intros Hlo Hhi. cbv zeta.
  assert (K : forall k, 0 <= k <= 6 -> keyDay (localDay tza now - k))
    by (intros k Hk; apply (keyDay_between _ _ _ Hlo Hhi); lia).
  assert (E : getLastSevenDays tza now
              = map (fun k => dateId (localDay tza now - k)) [6; 5; 4; 3; 2; 1; 0]).
  { unfold getLastSevenDays. rewrite lastDaysLoop_days, app_nil_r.
    cbn [seq rev app map].
    rewrite !getDateKey_daysBefore by (apply K; lia). reflexivity. }
  assert (E' : map (fun k => getDateKey tza (daysBefore now k)) [6; 5; 4; 3; 2; 1; 0]
               = map (fun k => dateId (localDay tza now - k)) [6; 5; 4; 3; 2; 1; 0]).
  { cbn [map]. rewrite !getDateKey_daysBefore by (apply K; lia). reflexivity. }
  rewrite E', E. cbn [map]. repeat split.
  - repeat constructor; cbn [In]; intros H;
      repeat (destruct H as [H|H]; [apply dateId_inj in H; [lia|apply K; lia|apply K; lia]|]);
      exact H.
  - cbn [nth_error].
    replace (getDateKey tza now) with (getDateKey tza (daysBefore now 0))
      by now rewrite daysBefore_0.
    rewrite getDateKey_daysBefore by (apply K; lia). reflexivity.
  - intros i a b Ha Hb.
    do 6 (destruct i as [|i];
          [cbn [nth_error] in Ha, Hb; injection Ha as <-; injection Hb as <-;
           eexists; split; [apply parse_dateId, K; lia|];
           rewrite parse_dateId by (apply K; lia); f_equal; unfold msPerDay; lia|]).
    destruct i; discriminate.
Qed.

Lemma computeStreakLoop_S (fuel : nat) (s : JSSet.t) (today : Date) (streak : Z) :
  computeStreakLoop tza (S fuel) s today streak
  = if JSSet.has s (getDateKey tza today)
    then computeStreakLoop tza fuel s
           (setDate tza today (getDate tza today - 1)) (streak + 1)
    else Some streak.
Proof. lazy beta iota zeta delta [computeStreakLoop]. reflexivity. Qed.

(** The loop counts the days of an unbroken run: when the keys of the
    [k] days up to [today] are in the set and the key of the day before
    them is not, it stops after [k] rounds. *)
Lemma computeStreakLoop_run (k : nat) :
  forall (fuel : nat) (s : JSSet.t) (today : Date) (streak : Z),
    (forall i, (i < k)%nat ->
               JSSet.has s (getDateKey tza (daysBefore today (Z.of_nat i))) = true) ->
    JSSet.has s (getDateKey tza (daysBefore today (Z.of_nat k))) = false ->
    (k < fuel)%nat ->
    computeStreakLoop tza fuel s today streak = Some (streak + Z.of_nat k).
Proof.
  induction k as [|k IH]; intros fuel s today streak Hin Hout Hfuel;
    (destruct fuel as [|fuel]; [lia|]); rewrite computeStreakLoop_S.
  - change (Z.of_nat 0) with 0 in Hout. rewrite daysBefore_0 in Hout.
    rewrite Hout. f_equal. lia.
  - pose proof (Hin 0%nat ltac:(lia)) as H0.
    change (Z.of_nat 0) with 0 in H0. rewrite daysBefore_0 in H0. rewrite H0.
    rewrite setDate_previous.
    replace (today - msPerDay) with (daysBefore today 1) by (unfold daysBefore; lia).
    rewrite (IH fuel s (daysBefore today 1) (streak + 1)).
    + f_equal. lia.
    + intros i Hi. rewrite daysBefore_daysBefore.
      replace (1 + Z.of_nat i) with (Z.of_nat (S i)) by lia. apply Hin. lia.
    + rewrite daysBefore_daysBefore.
      now replace (1 + Z.of_nat k) with (Z.of_nat (S k)) by lia.
    + lia.
Qed.

(** C2. The current streak.  When the key of the reference day (the
    clock reading [now]) is not among the completions of the habit, the
    streak is 0 whatever else was completed; and when the completions are
    the keys of the last [k] days up to the reference day and nothing else,
    the streak is [k].  The loop stops within [k + 1] rounds. *)
Theorem currentStreak_spec (now : Date) (habit : Habit) :
  (~ In (getDateKey tza now) (completions habit) ->
   forall fuel, computeStreak tza (S fuel) now habit = Some 0)
  /\ (forall k : nat,
        keyDay (localDay tza now - Z.of_nat k) -> keyDay (localDay tza now) ->
        (forall x, In x (completions habit) <->
                   exists i, (i < k)%nat
                             /\ x = getDateKey tza (daysBefore now (Z.of_nat i))) ->
        forall fuel, (k < fuel)%nat ->
                     computeStreak tza fuel now habit = Some (Z.of_nat k)).
Proof.
  split.
  - intros Hout fuel. unfold computeStreak.
    rewrite (computeStreakLoop_run 0 (S fuel)); [reflexivity| | |lia].
    + intros i Hi. lia.
    + change (Z.of_nat 0) with 0. rewrite daysBefore_0.
      apply has_false. now rewrite ofArray_In.
  - intros k Hlo Hhi Hexact fuel Hfuel. unfold computeStreak.
    rewrite (computeStreakLoop_run k fuel); [reflexivity| | |exact Hfuel].
    + intros i Hi. apply has_In. rewrite ofArray_In. apply Hexact. now exists i.
    + apply has_false. rewrite ofArray_In, Hexact. intros (i & Hi & E).
      rewrite !getDateKey_daysBefore in E
        by (apply (keyDay_between _ _ _ Hlo Hhi); lia).
      apply dateId_inj in E; [lia| |]; apply (keyDay_between _ _ _ Hlo Hhi); lia.
Qed.

End Local.

Ltac solve_keyDay := unfold keyDay; vm_compute; split; discriminate.

Lemma currentStreak_spec_witness :
  computeStreak exampleZone 1 exampleNoon exampleWalker = Some 0
  /\ computeStreak exampleZone 3 exampleNoon exampleRunner = Some 2.
Proof.
  split.
  - apply (proj1 (currentStreak_spec exampleZone exampleNoon exampleWalker)).
    intros [].
  - apply (proj2 (currentStreak_spec exampleZone exampleNoon exampleRunner) 2%nat);
      [solve_keyDay | solve_keyDay | | lia].
    intros x. split.
    + intros [<- | [<- | []]]; [exists 1%nat|exists 0%nat]; (split; [lia|reflexivity]).
    + intros (i & Hi & ->).
      destruct i as [|[|i]]; [right; left; reflexivity|left; reflexivity|lia].
Defined.

Lemma getLastSevenDays_spec_witness :
  let days := getLastSevenDays exampleZone exampleNoon in
  List.length days = 7%nat
  /\ NoDup days
  /\ nth_error days 6 = Some (getDateKey exampleZone exampleNoon)
  /\ days = map (fun k => getDateKey exampleZone (daysBefore exampleNoon k))
                [6; 5; 4; 3; 2; 1; 0]
  /\ forall i a b,
       nth_error days i = Some a -> nth_error days (S i) = Some b ->
       exists t, parse a = Some t /\ parse b = Some (t + msPerDay).
Proof.
  apply (getLastSevenDays_spec exampleZone exampleNoon); solve_keyDay.
Defined.

Example getLastSevenDays_example :
  getLastSevenDays exampleZone exampleNoon
  = ["2024-01-04"; "2024-01-05"; "2024-01-06"; "2024-01-07"; "2024-01-08";
     "2024-01-09"; "2024-01-10"].
Proof. vm_compute. reflexivity. Qed.

End StreakFacts.

(** ** Not-a-number *)

Module NaNFacts.








End NaNFacts.

(** ** The reminder evaluator *)

Module ReminderFacts.
Import JSDate CalendarFacts DateFacts SetFacts StreakFacts.

Lemma reminderStep_guard (now : Date) (dateKey : string) (nowSeconds : Z)
    (habit : Habit) (st : JSSet.t * list ReminderAlert) (time : string) :
  reminderStep now dateKey nowSeconds habit st time
  = if validReminder time then evaluate now dateKey nowSeconds habit st time else st.
Proof.
  unfold reminderStep, validReminder, evaluate. cbv zeta.
  destruct (invalidTime _ _); reflexivity.
Qed.


Example validReminder_examples :
  map validReminder ["07:00"; "23:59"; "7:5"; "25:00"; "12:60"; "ab:cd"; "-1:00"; "12:"; "noon"]
  = [true; true; true; false; false; false; false; true; false].
Proof. vm_compute. reflexivity. Qed.

(** *** One reminder at 07:00 *)

Lemma atLocal_clock (tza day h m s : Z) :
  0 <= h < 24 -> 0 <= m < 60 -> 0 <= s < 60 ->
  localDay tza (atLocal tza day h m s) = day
  /\ getHours tza (atLocal tza day h m s) = h
  /\ getMinutes tza (atLocal tza day h m s) = m
  /\ getSeconds tza (atLocal tza day h m s) = s.
Proof.
  intros Hh Hm Hs.
  unfold localDay, getHours, getMinutes, getSeconds, HourFromTime, MinFromTime,
    SecFromTime, Day, LocalTime, atLocal, UTC, MakeDate,
    msPerDay, msPerHour, msPerMinute, msPerSecond.
  replace (day * 86400000 + (h * 3600000 + m * 60000 + s * 1000) - tza + tza)
    with (day * 86400000 + (h * 3600000 + m * 60000 + s * 1000)) by lia.
  repeat split; Z.to_euclidean_division_equations; lia.
Qed.

Lemma numbers_0700 :
  map JSNumber.Number (JSString.split ":" "07:00") = [7%float; 0%float].
Proof. vm_compute. reflexivity. Qed.

Lemma valid_0700 : validReminder "07:00" = true.
Proof. vm_compute. reflexivity. Qed.

Lemma window0700_values :
  window0700 (7 * 3600 + 0 * 60 + 0) = true
  /\ window0700 (7 * 3600 + 0 * 60 + 15) = true
  /\ window0700 (7 * 3600 + 0 * 60 + 29) = true
  /\ window0700 (7 * 3600 + 0 * 60 + 31) = false.
Proof. vm_compute. repeat split. Qed.

(** A round on one habit whose only reminder is 07:00. *)
Lemma tick_0700 (tza : Z) (cache : ReminderCache) (habit : Habit) (day h m s : Z) :
  keyDay day -> 0 <= h < 24 -> 0 <= m < 60 -> 0 <= s < 60 ->
  reminders habit = ["07:00"] ->
  let now := atLocal tza day h m s in
  let cacheKey := (id habit ++ "-" ++ "07:00" ++ "-" ++ dateId day)%string in
  let fresh :=
    if negb (date cache =? dateId day)%string then mkReminderCache (dateId day) []
    else cache in
  tick tza cache [habit] now
  = if window0700 (h * 3600 + m * 60 + s) && negb (JSSet.has (keys fresh) cacheKey)
    then (mkReminderCache (date fresh) (JSSet.add (keys fresh) cacheKey),
          [mkReminderAlert (cacheKey ++ "-" ++ JSString.ofZ now)%string
                           (id habit) (name habit) "07:00" now])
    else (mkReminderCache (date fresh) (keys fresh), []).
Proof.
  intros Hk Hh Hm Hs Hr. cbv zeta.
  destruct (atLocal_clock tza day h m s Hh Hm Hs) as (Ed & Eh & Em & Es).
  unfold tick. cbv zeta. rewrite Eh, Em, Es.
  rewrite getDateKey_dateId; rewrite Ed; [|exact Hk].
  cbn [fold_left]. rewrite Hr. cbn [fold_left].
  rewrite reminderStep_guard, valid_0700.
  unfold evaluate. cbv zeta. rewrite numbers_0700. cbn [nth_error fst snd app].
  fold (window0700 (h * 3600 + m * 60 + s)). unfold getTime.
  destruct (window0700 _ && negb _); reflexivity.
Qed.

Lemma has_singleton (x : string) : JSSet.has [x] x = true.
Proof. unfold JSSet.has. cbn [existsb]. now rewrite String.eqb_refl. Qed.

(** C1. Reminders fire once per calendar day.  For a habit whose only
    reminder is 07:00, rounds of the evaluator at 07:00:00, 07:00:15 and
    07:00:29 of one day emit one alert in all, at the first of them; a
    round at 07:00:31 emits none; and a round at 07:00:00 of the next day
    emits one new alert, the change of the date identifier having emptied
    the cache.  It is the cache that holds the later rounds back: from a
    cache without keys the rounds at 07:00:15 and 07:00:29 emit an alert
    each, and the round at 07:00:31, outside the window, none.  The days
    are any two consecutive days that have a date identifier, in any time
    zone, from any cache without keys. *)
Theorem reminder_dedup (tza : Z) (habit : Habit) (day : Z) (date0 : string) :
  keyDay day -> keyDay (day + 1) -> reminders habit = ["07:00"] ->
  let r1 := tick tza (mkReminderCache date0 []) [habit] (atLocal tza day 7 0 0) in
  let r2 := tick tza (fst r1) [habit] (atLocal tza day 7 0 15) in
  let r3 := tick tza (fst r2) [habit] (atLocal tza day 7 0 29) in
  let r4 := tick tza (fst r3) [habit] (atLocal tza day 7 0 31) in
  let r5 := tick tza (fst r4) [habit] (atLocal tza (day + 1) 7 0 0) in
  (exists a, snd r1 = [a] /\ alert_habitId a = id habit /\ alert_time a = "07:00"
             /\ alert_timestamp a = atLocal tza day 7 0 0)
  /\ snd r2 = [] /\ snd r3 = [] /\ snd r4 = []
  /\ List.length (snd r1 ++ snd r2 ++ snd r3 ++ snd r4) = 1%nat
  /\ (exists a, snd r5 = [a] /\ alert_habitId a = id habit /\ alert_time a = "07:00"
                /\ alert_timestamp a = atLocal tza (day + 1) 7 0 0)
  /\ List.length (snd (tick tza (mkReminderCache date0 []) [habit]
                             (atLocal tza day 7 0 15))) = 1%nat
  /\ List.length (snd (tick tza (mkReminderCache date0 []) [habit]
                             (atLocal tza day 7 0 29))) = 1%nat
  /\ snd (tick tza (mkReminderCache date0 []) [habit] (atLocal tza day 7 0 31)) = [].
Proof.
  intros Hk Hk' Hr.
  destruct window0700_values as (W0 & W15 & W29 & W31).
  set (key := dateId day). set (key' := dateId (day + 1)).
  set (ck := (id habit ++ "-" ++ "07:00" ++ "-" ++ key)%string).
  assert (Hne : (key =? key')%string = false).
  { apply String.eqb_neq. intros E. apply dateId_inj in E; auto. lia. }
  assert (T : forall cache d h m s,
             keyDay d -> 0 <= h < 24 -> 0 <= m < 60 -> 0 <= s < 60 ->
             tick tza cache [habit] (atLocal tza d h m s)
             = if window0700 (h * 3600 + m * 60 + s)
                  && negb (JSSet.has
                             (keys (if negb (date cache =? dateId d)%string
                                    then mkReminderCache (dateId d) [] else cache))
                             (id habit ++ "-" ++ "07:00" ++ "-" ++ dateId d)%string)
               then (mkReminderCache
                       (date (if negb (date cache =? dateId d)%string
                              then mkReminderCache (dateId d) [] else cache))
                       (JSSet.add
                          (keys (if negb (date cache =? dateId d)%string
                                 then mkReminderCache (dateId d) [] else cache))
                          (id habit ++ "-" ++ "07:00" ++ "-" ++ dateId d)%string),
                     [mkReminderAlert
                        ((id habit ++ "-" ++ "07:00" ++ "-" ++ dateId d)
                         ++ "-" ++ JSString.ofZ (atLocal tza d h m s))%string
                        (id habit) (name habit) "07:00" (atLocal tza d h m s)])
               else (mkReminderCache
                       (date (if negb (date cache =? dateId d)%string
                              then mkReminderCache (dateId d) [] else cache))
                       (keys (if negb (date cache =? dateId d)%string
                              then mkReminderCache (dateId d) [] else cache)), [])).
  { intros cache d h m s Hd Hh Hm Hs.
    exact (tick_0700 tza cache habit d h m s Hd Hh Hm Hs Hr). }
  assert (E1 : tick tza (mkReminderCache date0 []) [habit] (atLocal tza day 7 0 0)
               = (mkReminderCache key [ck],
                  [mkReminderAlert (ck ++ "-" ++ JSString.ofZ (atLocal tza day 7 0 0))%string
                                   (id habit) (name habit) "07:00" (atLocal tza day 7 0 0)])).
  { rewrite T by (auto; lia). rewrite W0. fold key. fold ck. cbn [date].
    destruct (date0 =? key)%string eqn:E0; cbn [negb keys date JSSet.has existsb andb].
    - apply String.eqb_eq in E0. now subst date0.
    - reflexivity. }
  assert (Same : forall s, 0 <= s < 60 ->
             tick tza (mkReminderCache key [ck]) [habit] (atLocal tza day 7 0 s)
             = (mkReminderCache key [ck], [])).
  { intros s Hs. rewrite T by (auto; lia). fold key. fold ck. cbn [date].
    rewrite String.eqb_refl. cbn [negb keys date]. rewrite has_singleton.
    cbn [negb]. rewrite andb_false_r. reflexivity. }
  cbv zeta. rewrite E1. cbn [fst snd].
  rewrite (Same 15) by lia. cbn [fst snd].
  rewrite (Same 29) by lia. cbn [fst snd].
  rewrite (Same 31) by lia. cbn [fst snd app List.length].
  repeat split.
  - eexists. repeat split.
  - rewrite T by (auto; lia). rewrite W0. fold key'. cbn [date].
    rewrite Hne. cbn [negb keys date JSSet.has existsb andb].
    eexists. repeat split.
  - rewrite T by (auto; lia). fold key. fold ck. cbn [date]. rewrite W15.
    now destruct (date0 =? key)%string.
  - rewrite T by (auto; lia). fold key. fold ck. cbn [date]. rewrite W29.
    now destruct (date0 =? key)%string.
  - rewrite T by (auto; lia). now rewrite W31.
Qed.

Lemma reminder_dedup_witness :
  let tza := exampleZone in
  let habit := exampleWalker in
  let day := 19732 in
  let r1 := tick tza (mkReminderCache "" []) [habit] (atLocal tza day 7 0 0) in
  let r2 := tick tza (fst r1) [habit] (atLocal tza day 7 0 15) in
  let r3 := tick tza (fst r2) [habit] (atLocal tza day 7 0 29) in
  let r4 := tick tza (fst r3) [habit] (atLocal tza day 7 0 31) in
  let r5 := tick tza (fst r4) [habit] (atLocal tza (day + 1) 7 0 0) in
  (exists a, snd r1 = [a] /\ alert_habitId a = id habit /\ alert_time a = "07:00"
             /\ alert_timestamp a = atLocal tza day 7 0 0)
  /\ snd r2 = [] /\ snd r3 = [] /\ snd r4 = []
  /\ List.length (snd r1 ++ snd r2 ++ snd r3 ++ snd r4) = 1%nat
  /\ (exists a, snd r5 = [a] /\ alert_habitId a = id habit /\ alert_time a = "07:00"
                /\ alert_timestamp a = atLocal tza (day + 1) 7 0 0)
  /\ List.length (snd (tick tza (mkReminderCache "" []) [habit]
                             (atLocal tza day 7 0 15))) = 1%nat
  /\ List.length (snd (tick tza (mkReminderCache "" []) [habit]
                             (atLocal tza day 7 0 29))) = 1%nat
  /\ snd (tick tza (mkReminderCache "" []) [habit] (atLocal tza day 7 0 31)) = [].
Proof.
  apply (reminder_dedup exampleZone exampleWalker 19732 "");
    [solve_keyDay | solve_keyDay | reflexivity].
Defined.

Example reminder_dedup_run :
  let tick1 := tick exampleZone (mkReminderCache "2024-01-10" []) [exampleWalker]
                    (atLocal exampleZone 19732 7 0 0) in
  tick1 = (mkReminderCache "2024-01-10" ["habit-7-07:00-2024-01-10"],
           [mkReminderAlert "habit-7-07:00-2024-01-10-1704888000000" "habit-7"
                            "Morning walk" "07:00" 1704888000000])
  /\ snd (tick exampleZone (fst tick1) [exampleWalker] (atLocal exampleZone 19732 7 0 15)) = []
  /\ snd (tick exampleZone (fst tick1) [exampleWalker] (atLocal exampleZone 19732 7 0 31)) = []
  /\ List.length (snd (tick exampleZone (fst tick1) [exampleWalker]
                          (atLocal exampleZone 19733 7 0 0))) = 1%nat.
Proof. vm_compute. repeat split. Qed.

End ReminderFacts.

(** ** Loading the persisted state *)

Module StorageFacts.
Import JSDate StreakFacts.

Lemma allStrings_Str (l : list string) : allStrings (map JSON.Str l) = Some l.
Proof. induction l as [|s l IH]; cbn [map allStrings]; [reflexivity|now rewrite IH]. Qed.

Lemma asHabit_ofHabit (h : Habit) : asHabit (ofHabit h) = Some h.
Proof.
  destruct h as [i n e c g r cs t]. unfold ofHabit, asHabit.
  cbn [id name emoji color goalPerWeek reminders completions createdAt].
  cbn [field String.eqb Ascii.eqb Bool.eqb asString asNumber asStrings].
  now rewrite !allStrings_Str.
Qed.

Lemma asHabits_ofHabits (l : list Habit) : asHabits (ofHabits l) = Some l.
Proof.
  unfold asHabits, ofHabits.
  induction l as [|h l IH]; cbn [map allHabits]; [reflexivity|].
  now rewrite asHabit_ofHabit, IH.
Qed.

(** The seed is a habit collection: the two default habits, the first
    completed today. *)
Lemma seed_valid (tza : Z) (loaded now : Date) :
  asHabits (seed tza loaded now) = Some (buildDefaultHabits tza loaded now)
  /\ map id (buildDefaultHabits tza loaded now) = ["habit-1"; "habit-2"]
  /\ map completions (buildDefaultHabits tza loaded now) = [[getDateKey tza now]; []].
Proof. split; [apply asHabits_ofHabits|split; reflexivity]. Qed.

(** C7, as the code has it.  [loadHabitsFromStorage] returns the seed
    dataset when there is no [window], when nothing is stored, when the
    text stored is empty and when [JSON.parse] throws on it; a text that
    parses is returned as the value parsed, with no check that it is a
    habit collection. *)
Theorem load_falls_back_on_parse_failure (tza : Z)
    (JSON_parse : string -> option JSON.value) (window : bool) (item : option string)
    (loaded now : Date) :
  (window = false \/ item = None \/ item = Some ""
   \/ (exists raw, item = Some raw /\ JSON_parse raw = None) ->
   loadHabitsFromStorage tza JSON_parse window item loaded now = seed tza loaded now)
  /\ (forall raw parsed,
         window = true -> item = Some raw -> raw <> "" -> JSON_parse raw = Some parsed ->
         loadHabitsFromStorage tza JSON_parse window item loaded now = parsed).
Proof.
  unfold loadHabitsFromStorage, seed. split.
  - intros [-> | [-> | [-> | (raw & -> & E)]]].
    + reflexivity.
    + now destruct window.
    + now destruct window.
    + destruct window; [|reflexivity]. cbn [negb]. rewrite E. now destruct (JSString.truthy raw).
  - intros raw parsed -> -> Hraw E. cbn [negb]. rewrite E.
    unfold JSString.truthy. apply String.eqb_neq in Hraw. now rewrite Hraw.
Qed.

Lemma load_falls_back_on_parse_failure_witness :
  loadHabitsFromStorage exampleZone JSON.parse true (Some "{oops") exampleNoon exampleNoon
  = seed exampleZone exampleNoon exampleNoon
  /\ loadHabitsFromStorage exampleZone JSON.parse true None exampleNoon exampleNoon
     = seed exampleZone exampleNoon exampleNoon
  /\ loadHabitsFromStorage exampleZone JSON.parse true (Some "[]") exampleNoon exampleNoon
     = JSON.Arr [].
Proof.
  pose proof (load_falls_back_on_parse_failure exampleZone JSON.parse true
                (Some "{oops") exampleNoon exampleNoon) as [A _].
  pose proof (load_falls_back_on_parse_failure exampleZone JSON.parse true
                None exampleNoon exampleNoon) as [B _].
  pose proof (load_falls_back_on_parse_failure exampleZone JSON.parse true
                (Some "[]") exampleNoon exampleNoon) as [_ C].
  split; [|split].
  - apply A. right. right. right. exists "{oops". split; reflexivity.
  - apply B. right. left. reflexivity.
  - apply (C "[]" (JSON.Arr [])); [reflexivity|reflexivity|discriminate|reflexivity].
Defined.

(** C7, as stated, fails: the text [[42]] is stored, it does
    not deserialize into a habit collection, and [loadHabitsFromStorage]
    returns the array [[42]], not the seed. *)
Lemma load_returns_unvalidated_value :
  ~ (forall (tza : Z) (window : bool) (item : option string) (loaded now : Date),
        (item = None
         \/ exists raw, item = Some raw /\ deserializes JSON.parse raw = false) ->
        loadHabitsFromStorage tza JSON.parse window item loaded now
        = seed tza loaded now).
Proof.
  intros claim.
  specialize (claim exampleZone true (Some "[42]") exampleNoon exampleNoon).
  assert (H : loadHabitsFromStorage exampleZone JSON.parse true (Some "[42]")
                exampleNoon exampleNoon = JSON.Arr [JSON.Num 42])
    by (vm_compute; reflexivity).
  rewrite H in claim.
  assert (D : deserializes JSON.parse "[42]" = false) by (vm_compute; reflexivity).
  specialize (claim (or_intror (ex_intro _ "[42]" (conj eq_refl D)))).
  discriminate claim.
Qed.

End StorageFacts.

(** ** The order of the date identifiers *)

Module OrderFacts.
Import JSDate CalendarFacts DateFacts.

Lemma yearOfEra_mono (a b : Z) :
  0 <= a -> a < b -> b < daysPerEra ->
  yearOfEra a < yearOfEra b
  \/ (yearOfEra a = yearOfEra b /\ dayOfYear a < dayOfYear b).
Proof.
  intros Ha H Hb.
  unfold dayOfYear, yearOfEra, daysPerEra in *. cbv zeta.
  Z.to_euclidean_division_equations. lia.
Qed.

Lemma monthOfYear_mono (a b : Z) :
  0 <= a -> a < b ->
  monthOfYear a < monthOfYear b
  \/ (monthOfYear a = monthOfYear b
      /\ a - (153 * monthOfYear a + 2) / 5 + 1 < b - (153 * monthOfYear b + 2) / 5 + 1).
Proof.
  intros Ha H. unfold monthOfYear.
  Z.to_euclidean_division_equations. lia.
Qed.

Lemma CivilFromDays_mono (a b : Z) : a < b -> civilLt (CivilFromDays a) (CivilFromDays b).
Proof.
  intros H. unfold civilLt, CivilFromDays. cbv zeta.
  destruct (era_split a) as [Ea Ha]. destruct (era_split b) as [Eb Hb].
  set (ea := (a + epochShift) / daysPerEra) in *.
  set (da := (a + epochShift) mod daysPerEra) in *.
  set (eb := (b + epochShift) / daysPerEra) in *.
  set (db := (b + epochShift) mod daysPerEra) in *.
  clearbody ea da eb db.
  destruct (year_facts da Ha) as (Hya & Hdya & _).
  destruct (year_facts db Hb) as (Hyb & Hdyb & _).
  destruct (month_facts (dayOfYear da) true Hdya (fun _ => eq_refl)) as (Hma & _).
  destruct (month_facts (dayOfYear db) true Hdyb (fun _ => eq_refl)) as (Hmb & _).
  assert (E : ea < eb \/ (ea = eb /\ da < db)) by (unfold daysPerEra in *; lia).
  assert (Y : ea < eb \/ (ea = eb /\ (yearOfEra da < yearOfEra db
              \/ (yearOfEra da = yearOfEra db /\ dayOfYear da < dayOfYear db)))).
  { destruct E as [E|[E1 E2]]; [now left|right; split; [exact E1|]].
    apply yearOfEra_mono; lia. }
  assert (M : ea < eb \/ (ea = eb /\ (yearOfEra da < yearOfEra db
              \/ (yearOfEra da = yearOfEra db
                  /\ (monthOfYear (dayOfYear da) < monthOfYear (dayOfYear db)
                      \/ (monthOfYear (dayOfYear da) = monthOfYear (dayOfYear db)
                          /\ dayOfYear da - (153 * monthOfYear (dayOfYear da) + 2) / 5 + 1
                             < dayOfYear db - (153 * monthOfYear (dayOfYear db) + 2) / 5 + 1)))))).
  { destruct Y as [Y|[Y1 [Y|[Y2 Y3]]]]; [now left|right; split; auto|].
    right. split; [exact Y1|]. right. split; [exact Y2|].
    apply monthOfYear_mono; lia. }
  clear E Y.
  set (mpa := monthOfYear (dayOfYear da)) in *.
  set (mpb := monthOfYear (dayOfYear db)) in *.
  set (ya := yearOfEra da) in *. set (yb := yearOfEra db) in *.
  set (dda := dayOfYear da - (153 * mpa + 2) / 5 + 1) in *.
  set (ddb := dayOfYear db - (153 * mpb + 2) / 5 + 1) in *.
  clearbody mpa mpb ya yb dda ddb.
  unfold monthOf.
  destruct (mpa <? 10) eqn:A; destruct (mpb <? 10) eqn:B;
    [apply Z.ltb_lt in A|apply Z.ltb_lt in A|apply Z.ltb_ge in A|apply Z.ltb_ge in A];
    [apply Z.ltb_lt in B|apply Z.ltb_ge in B|apply Z.ltb_lt in B|apply Z.ltb_ge in B];
    repeat match goal with
           | |- context [?x <=? 2] =>
               let E := fresh "E" in
               destruct (x <=? 2) eqn:E; [apply Z.leb_le in E|apply Z.leb_gt in E]
           end; lia.
Qed.

Lemma digit_compare (a b : Z) :
  0 <= a <= 9 -> 0 <= b <= 9 -> Ascii_as_OT.compare (digit a) (digit b) = (a ?= b).
Proof.
  intros Ha Hb. unfold Ascii_as_OT.compare, digit.
  rewrite !N_ascii_embedding by lia.
  change N_as_OT.compare with N.compare.
  rewrite Z2N.inj_compare by lia. apply Z.add_compare_mono_l.
Qed.

Ltac next_digit :=
  rewrite digit_compare by apply mod10_digit;
  match goal with
  | |- context [?x ?= ?y] =>
      destruct (Z.compare_spec x y);
      [|reflexivity|exfalso; Z.to_euclidean_division_equations; lia]
  end.

(** Date identifiers are ordered as their days are. *)
Lemma dateId_mono (a b : Z) :
  keyDay a -> keyDay b -> a < b -> JSString.lt (dateId a) (dateId b).
Proof.
  intros Ka Kb H.
  pose proof (CivilFromDays_mono a b H) as L.
  pose proof (keyDay_year a Ka) as Ya. pose proof (keyDay_year b Kb) as Yb.
  pose proof (CivilFromDays_valid a) as Va. pose proof (CivilFromDays_valid b) as Vb.
  unfold dateId, civilLt in *.
  destruct (CivilFromDays a) as [[y1 m1] d1]. destruct (CivilFromDays b) as [[y2 m2] d2].
  cbn [fst snd] in *. destruct Va as [Hm1 Hd1]. destruct Vb as [Hm2 Hd2].
  assert (Hd1' : 1 <= d1 <= 31)
    by (unfold DaysInMonth in Hd1;
        repeat match type of Hd1 with context [if ?c then _ else _] => destruct c end; lia).
  assert (Hd2' : 1 <= d2 <= 31)
    by (unfold DaysInMonth in Hd2;
        repeat match type of Hd2 with context [if ?c then _ else _] => destruct c end; lia).
  clear Hd1 Hd2 Ka Kb H.
  unfold JSString.lt, String_as_OT.lt.
  cbn [pad append String_as_OT.compare Z.of_nat Pos.of_succ_nat Pos.succ].
  change (10 ^ 3) with 1000. change (10 ^ 2) with 100.
  change (10 ^ 1) with 10. change (10 ^ 0) with 1.
  do 4 next_digit.
  assert (y1 = y2) as -> by (Z.to_euclidean_division_equations; lia).
  repeat match goal with E : _ mod 10 = _ mod 10 |- _ => clear E end.
  change (Ascii_as_OT.compare "-" "-") with Eq. cbv iota.
  do 2 next_digit.
  assert (m1 = m2) as -> by (Z.to_euclidean_division_equations; lia).
  repeat match goal with E : _ mod 10 = _ mod 10 |- _ => clear E end.
  change (Ascii_as_OT.compare "-" "-") with Eq. cbv iota.
  do 2 next_digit.
  exfalso. Z.to_euclidean_division_equations. lia.
Qed.

Lemma dateId_lt_iff (a b : Z) :
  keyDay a -> keyDay b -> (JSString.lt (dateId a) (dateId b) <-> a < b).
Proof.
  intros Ka Kb. split; [|now apply dateId_mono].
  intros L. destruct (Z.lt_trichotomy a b) as [H|[->|H]]; [exact H| |].
  - now apply StringFacts.lt_irrefl in L.
  - exfalso. apply (StringFacts.lt_irrefl (dateId a)).
    eapply StringFacts.lt_trans; [exact L|now apply dateId_mono].
Qed.

End OrderFacts.

(** ** The longest streak against the current streak *)

Module LongestFacts.
Import JSDate CalendarFacts DateFacts StringFacts SetFacts StreakFacts OrderFacts StoreFacts.

Lemma dayStep_invariant (l c : Z) (p : option Z) (z : Z) :
  0 <= c <= l ->
  let '(l', c', _) := dayStep (l, c, p) z in 1 <= c' <= l' /\ l <= l'.
Proof.
  intros H. unfold dayStep. destruct p as [p|]; [destruct (z =? p - 1)|]; lia.
Qed.

Lemma dayLoop_cons (z : Z) (zs : list Z) (st : Z * Z * option Z) :
  dayLoop (z :: zs) st = dayLoop zs (dayStep st z).
Proof. reflexivity. Qed.

Lemma dayLoop_grows (zs : list Z) :
  forall l c p, 0 <= c <= l -> l <= fst (fst (dayLoop zs (l, c, p))).
Proof.
  induction zs as [|z zs IH]; intros l c p H; [cbn; lia|].
  rewrite dayLoop_cons. pose proof (dayStep_invariant l c p z H) as I.
  destruct (dayStep (l, c, p) z) as [[l' c'] p'].
  specialize (IH l' c' p'). lia.
Qed.

(** From the day [p] on, a run that goes down to [lo] is counted. *)
Lemma dayLoop_run (zs : list Z) :
  forall l c p lo,
    decreasing zs -> (forall z, In z zs -> z < p) -> lo <= p -> 0 <= c <= l ->
    (forall j, lo <= j < p -> In j zs) ->
    c + (p - lo) <= fst (fst (dayLoop zs (l, c, Some p))).
Proof.
  induction zs as [|z zs IH]; intros l c p lo S Hlt Hlo Hc Hrun.
  - assert (p = lo) as ->.
    { destruct (Z.eq_dec p lo) as [E|N]; [exact E|]. destruct (Hrun lo). lia. }
    cbn. lia.
  - rewrite dayLoop_cons. apply StronglySorted_inv in S. destruct S as [S F].
    rewrite Forall_forall in F.
    destruct (Z.eq_dec p lo) as [->|N].
    + pose proof (dayStep_invariant l c (Some lo) z Hc) as I.
      destruct (dayStep (l, c, Some lo) z) as [[l' c'] p'].
      pose proof (dayLoop_grows zs l' c' p' ltac:(lia)). lia.
    + assert (z = p - 1) as ->.
      { destruct (Hrun (p - 1) ltac:(lia)) as [E|I]; [exact E|].
        specialize (F _ I). specialize (Hlt z (or_introl eq_refl)). lia. }
      unfold dayStep. rewrite Z.eqb_refl.
      specialize (IH (Z.max l (c + 1)) (c + 1) (p - 1) lo S).
      assert (c + 1 + (p - 1 - lo) <= fst (fst (dayLoop zs (Z.max l (c + 1), c + 1, Some (p - 1))))).
      { apply IH; try lia.
        - intros z Hz. apply F in Hz. lia.
        - intros j Hj. destruct (Hrun j ltac:(lia)) as [E|I]; [lia|exact I]. }
      lia.
Qed.

(** A run from [D] down to [lo] among the days is counted in full. *)
Lemma dayLoop_reach (zs : list Z) :
  forall l c p D lo,
    decreasing zs -> lo <= D -> 0 <= c <= l ->
    (forall j, lo <= j <= D -> In j zs) ->
    D - lo + 1 <= fst (fst (dayLoop zs (l, c, p))).
Proof.
  induction zs as [|z zs IH]; intros l c p D lo S Hlo Hc Hrun.
  - destruct (Hrun D). lia.
  - rewrite dayLoop_cons. pose proof S as S'.
    apply StronglySorted_inv in S. destruct S as [S F]. rewrite Forall_forall in F.
    pose proof (dayStep_invariant l c p z Hc) as I.
    destruct (Z.eq_dec z D) as [->|N].
    + assert (E : dayStep (l, c, p) D
                  = (fst (fst (dayStep (l, c, p) D)), snd (fst (dayStep (l, c, p) D)), Some D))
        by (unfold dayStep; reflexivity).
      destruct (dayStep (l, c, p) D) as [[l' c'] p']. cbn [fst snd] in E.
      injection E as ->.
      pose proof (dayLoop_run zs l' c' D lo S) as R.
      assert (c' + (D - lo) <= fst (fst (dayLoop zs (l', c', Some D)))).
      { apply R; try lia.
        - intros z Hz. apply F in Hz. lia.
        - intros j Hj. destruct (Hrun j ltac:(lia)) as [E|I']; [lia|exact I']. }
      lia.
    + destruct (dayStep (l, c, p) z) as [[l' c'] p'].
      apply (IH l' c' p' D lo S Hlo); [lia|].
      intros j Hj. destruct (Hrun j Hj) as [E|I']; [|exact I'].
      subst j. destruct (Hrun D ltac:(lia)) as [E|I']; [contradiction|].
      apply F in I'. lia.
Qed.

Section East.

Variable tza : Z.
Hypothesis east : 0 <= tza < msPerDay.

Lemma localDay_midnight (z : Z) : localDay tza (z * msPerDay) = z.
Proof.
  unfold localDay, Day, LocalTime, msPerDay in *.
  Z.to_euclidean_division_equations. lia.
Qed.

Lemma dateId_truthy (z : Z) : JSString.truthy (dateId z) = true.
Proof. unfold dateId. now destruct (CivilFromDays z) as [[y m] d]. Qed.

Lemma longestLoop_cons (date : string) (rest : list string) (st : Longest) :
  longestLoop tza (date :: rest) st
  = match longestStep tza st date with
    | Some st' => longestLoop tza rest st'
    | None => None
    end.
Proof. lazy beta iota zeta delta [longestLoop]. reflexivity. Qed.

(** One round of the loop on identifiers is one round on day numbers. *)
Lemma longestStep_days (st : Z * Z * option Z) (z : Z) :
  streakDay z ->
  (forall p, snd st = Some p -> streakDay p) ->
  longestStep tza (ofDayState st) (dateId z) = Some (ofDayState (dayStep st z)).
Proof.
  intros [Kz' Kz] Hp. destruct st as [[l c] [p|]]; unfold longestStep, ofDayState, dayStep;
    cbn [previous longest current option_map].
  - destruct (Hp p eq_refl) as [Kp' Kp].
    rewrite dateId_truthy, parse_dateId by exact Kp.
    rewrite setDate_previous.
    replace (p * msPerDay - msPerDay) with ((p - 1) * msPerDay) by lia.
    rewrite getDateKey_dateId; rewrite localDay_midnight; [|exact Kp'].
    replace (dateId z =? dateId (p - 1))%string with (z =? p - 1); [reflexivity|].
    destruct (z =? p - 1) eqn:E.
    + apply Z.eqb_eq in E. subst z. symmetry. apply String.eqb_refl.
    + symmetry. apply String.eqb_neq. intros I. apply dateId_inj in I; auto.
      apply Z.eqb_neq in E. contradiction.
  - reflexivity.
Qed.

Lemma dayStep_previous (st : Z * Z * option Z) (z : Z) : snd (dayStep st z) = Some z.
Proof. now destruct st as [[l c] p]. Qed.

Lemma longestLoop_days (zs : list Z) :
  forall st,
    Forall streakDay zs ->
    (forall p, snd st = Some p -> streakDay p) ->
    longestLoop tza (map dateId zs) (ofDayState st) = Some (ofDayState (dayLoop zs st)).
Proof.
  induction zs as [|z zs IH]; intros st Hzs Hp; [reflexivity|].
  apply Forall_cons_iff in Hzs. destruct Hzs as [Hz Hzs].
  cbn [map]. rewrite longestLoop_cons, longestStep_days by assumption.
  unfold dayLoop. cbn [fold_left]. apply IH; [exact Hzs|].
  intros p E. rewrite dayStep_previous in E. now injection E as <-.
Qed.

(** What the loop of [computeStreak] returns counts days that are in
    the set. *)
Lemma computeStreakLoop_sound (fuel : nat) (s : JSSet.t) :
  forall today streak r,
    computeStreakLoop tza fuel s today streak = Some r ->
    streak <= r
    /\ forall i, 0 <= i < r - streak ->
                 JSSet.has s (getDateKey tza (daysBefore today i)) = true.
Proof.
  induction fuel as [|fuel IH]; intros today streak r H; [discriminate|].
  rewrite computeStreakLoop_S in H.
  destruct (JSSet.has s (getDateKey tza today)) eqn:E.
  - rewrite setDate_previous in H.
    replace (today - msPerDay) with (daysBefore today 1) in H by (unfold daysBefore; lia).
    apply IH in H. destruct H as [Hr Hin]. split; [lia|].
    intros i Hi. destruct (Z.eq_dec i 0) as [->|N]; [now rewrite daysBefore_0|].
    replace i with (1 + (i - 1)) by lia. rewrite <- daysBefore_daysBefore.
    apply Hin. lia.
  - injection H as <-. split; [lia|]. intros i Hi. lia.
Qed.

End East.

Lemma ids_days (l : list string) :
  validIds l -> exists zs, l = map dateId zs /\ Forall streakDay zs.
Proof.
  induction 1 as [|s l (z & Hz & ->) _ (zs & -> & Hzs)].
  - now exists [].
  - exists (z :: zs). split; [reflexivity|now constructor].
Qed.

Lemma StronglySorted_snoc {A : Type} (R : A -> A -> Prop) (l : list A) (x : A) :
  StronglySorted R l -> (forall a, In a l -> R a x) -> StronglySorted R (l ++ [x]).
Proof.
  induction 1 as [|a l S IH F]; intros H; cbn [app].
  - repeat constructor.
  - constructor; [apply IH; intros b Hb; apply H; now right|].
    rewrite Forall_forall in *. intros b Hb. apply in_app_iff in Hb.
    destruct Hb as [Hb|[<-|[]]]; [now apply F|apply H; now left].
Qed.

Lemma StronglySorted_rev {A : Type} (R : A -> A -> Prop) (l : list A) :
  StronglySorted R l -> StronglySorted (fun a b => R b a) (rev l).
Proof.
  induction 1 as [|a l S IH F]; cbn [rev]; [constructor|].
  apply StronglySorted_snoc; [exact IH|].
  rewrite Forall_forall in F. intros b Hb. apply F. now apply in_rev.
Qed.

(** The days of identifiers in decreasing order decrease. *)
Lemma decreasing_days (zs : list Z) :
  Forall streakDay zs ->
  StronglySorted (fun a b => JSString.lt b a) (map dateId zs) -> decreasing zs.
Proof.
  unfold decreasing. induction zs as [|z zs IH]; intros K S; [constructor|].
  apply Forall_cons_iff in K. destruct K as [[_ Kz] K].
  cbn [map] in S. apply StronglySorted_inv in S. destruct S as [S F].
  constructor; [now apply IH|].
  rewrite Forall_forall in *. intros b Hb.
  apply dateId_lt_iff; [apply K, Hb|exact Kz|]. apply F. now apply in_map.
Qed.

(** X1. East of Greenwich the longest streak is at least the current streak:
    in a zone at or ahead of UTC by less than a day, for a habit whose
    completions are date identifiers without duplicates, [getLongestStreak]
    returns a number that is at least the number [computeStreak] returns. *)
Theorem longest_covers_current_east (tza : Z) (now : Date) (habit : Habit)
    (fuel : nat) (k : Z) :
  0 <= tza < msPerDay ->
  validIds (completions habit) -> NoDup (completions habit) ->
  keyDay (localDay tza now - k) -> keyDay (localDay tza now) ->
  computeStreak tza fuel now habit = Some k ->
  exists L, getLongestStreak tza habit = Some L /\ k <= L.
Proof.
  intros east V N Klo Khi Hk.
  assert (Vr : validIds (rev (JSString.sort (completions habit)))).
  { unfold validIds in *. rewrite Forall_forall in *. intros s Hs.
    apply V. now apply sort_In, in_rev. }
  destruct (ids_days _ Vr) as (zs & E & Hzs).
  assert (D : decreasing zs).
  { apply decreasing_days; [exact Hzs|]. rewrite <- E.
    apply StronglySorted_rev. now apply sort_increasing. }
  pose proof (longestLoop_days tza east zs (0, 0, None) Hzs ltac:(discriminate)) as Loop.
  exists (fst (fst (dayLoop zs (0, 0, None)))). split.
  - unfold getLongestStreak. cbv zeta. rewrite E.
    change (mkLongest 0 0 None) with (ofDayState (0, 0, None)). rewrite Loop.
    now destruct (dayLoop zs (0, 0, None)) as [[l c] p].
  - unfold computeStreak in Hk. apply computeStreakLoop_sound in Hk.
    destruct Hk as [Hk0 Hin].
    destruct (Z.eq_dec k 0) as [->|Hpos];
      [apply (dayLoop_grows zs 0 0 None); lia|].
    replace k with (localDay tza now - (localDay tza now - k + 1) + 1) by lia.
    apply dayLoop_reach; [exact D|lia|lia|].
    intros j Hj.
    specialize (Hin (localDay tza now - j) ltac:(lia)).
    apply has_In in Hin. rewrite ofArray_In in Hin.
    rewrite getDateKey_daysBefore in Hin
      by (apply (keyDay_between _ _ _ Klo Khi); lia).
    replace (localDay tza now - (localDay tza now - j)) with j in Hin by lia.
    apply sort_In, in_rev in Hin. rewrite E in Hin.
    apply in_map_iff in Hin. destruct Hin as (z & Ez & Hz).
    rewrite Forall_forall in Hzs. apply dateId_inj in Ez.
    + now subst z.
    + apply (Hzs z Hz).
    + apply (keyDay_between _ _ _ Klo Khi). lia.
Qed.

Lemma longest_covers_current_east_witness :
  exists L, getLongestStreak exampleZoneEast exampleRunner = Some L /\ 2 <= L.
Proof.
  apply (longest_covers_current_east exampleZoneEast exampleNoonEast exampleRunner 3 2).
  - unfold exampleZoneEast, msPerDay. lia.
  - repeat constructor;
      [exists 19731|exists 19732]; (split; [split; solve_keyDay|reflexivity]).
  - repeat constructor; cbn [In]; intuition discriminate.
  - solve_keyDay.
  - solve_keyDay.
  - vm_compute. reflexivity.
Defined.

(** C4 fails on the code.  At noon of 2024-01-10 in a zone five hours
    west of Greenwich, the habit completed on the 9th and on the 10th has
    a current streak of 2 and a longest streak of 1: [getLongestStreak]
    reads the previous date as midnight UTC, which is the evening before
    in local time, and so expects the run to continue two days earlier.
    In a zone at or east of Greenwich the same habit has 2 and 2. *)
Lemma longest_streak_below_current_west_of_Greenwich :
  computeStreak exampleZone 3 exampleNoon exampleRunner = Some 2
  /\ getLongestStreak exampleZone exampleRunner = Some 1
  /\ getLongestStreak 0 exampleRunner = Some 2
  /\ getLongestStreak 3600000 exampleRunner = Some 2
  /\ habitInvariant exampleRunner.
Proof.
  split; [vm_compute; reflexivity|].
  split; [vm_compute; reflexivity|].
  split; [vm_compute; reflexivity|].
  split; [vm_compute; reflexivity|].
  split; StoreFacts.solve_sortedUnique.
Qed.

End LongestFacts.

(** ** Date keys *)

Module KeyFacts.
Import JSDate DateFacts OrderFacts StreakFacts.

Lemma dateId_length (z : Z) : String.length (dateId z) = 10%nat.
Proof. unfold dateId. destruct (CivilFromDays z) as [[y m] d]. reflexivity. Qed.

(** X2. On the days that have a date identifier, [getDateKey] names the
    local calendar day: the key has ten characters, [new Date(key)] reads
    it back as midnight UTC of that day, two moments have the same key
    exactly when they fall on the same local day, and the keys are ordered
    as strings the way the days are ordered in time. *)
Theorem getDateKey_identifies_local_day (tza : Z) (a b : Date) :
  keyDay (localDay tza a) -> keyDay (localDay tza b) ->
  String.length (getDateKey tza a) = 10%nat
  /\ parse (getDateKey tza a) = Some (localDay tza a * msPerDay)
  /\ (getDateKey tza a = getDateKey tza b <-> localDay tza a = localDay tza b)
  /\ (JSString.lt (getDateKey tza a) (getDateKey tza b)
      <-> localDay tza a < localDay tza b).
Proof.
  intros Ka Kb. rewrite !getDateKey_dateId by assumption.
  split; [apply dateId_length|].
  split; [now apply parse_dateId|].
  split; [|now apply dateId_lt_iff].
  split; [now apply dateId_inj|now intros ->].
Qed.

Lemma getDateKey_identifies_local_day_witness :
  String.length (getDateKey exampleZone exampleNoon) = 10%nat
  /\ parse (getDateKey exampleZone exampleNoon)
     = Some (localDay exampleZone exampleNoon * msPerDay)
  /\ (getDateKey exampleZone exampleNoon = getDateKey exampleZone (exampleNoon + msPerDay)
      <-> localDay exampleZone exampleNoon = localDay exampleZone (exampleNoon + msPerDay))
  /\ (JSString.lt (getDateKey exampleZone exampleNoon)
                  (getDateKey exampleZone (exampleNoon + msPerDay))
      <-> localDay exampleZone exampleNoon < localDay exampleZone (exampleNoon + msPerDay)).
Proof.
  apply (getDateKey_identifies_local_day exampleZone exampleNoon (exampleNoon + msPerDay));
    solve_keyDay.
Defined.

End KeyFacts.

(** ** Class names *)

Module ClassFacts.
Import JSString JSArray.

Lemma split_app (sep : ascii) (a b : string) :
  split sep (a ++ String sep b)%string = split sep a ++ split sep b.
Proof.
  induction a as [|c a IH]; cbn [append split].
  - now rewrite Ascii.eqb_refl.
  - destruct (Ascii.eqb c sep); rewrite IH; [reflexivity|].
    destruct (split sep a) as [|h t] eqn:E; [|reflexivity].
    destruct a; cbn [split] in E; [discriminate|].
    destruct (Ascii.eqb a sep); [discriminate|]. now destruct (split sep a0).
Qed.

Lemma split_join (sep : ascii) (x : string) (l : list string) :
  split sep (join (String sep "") (x :: l)) = List.concat (map (split sep) (x :: l)).
Proof.
  revert x. induction l as [|y l IH]; intros x.
  - cbn [join map List.concat]. now rewrite app_nil_r.
  - change (join (String sep "") (x :: y :: l))
      with (x ++ String sep "" ++ join (String sep "") (y :: l))%string.
    change (String sep "" ++ join (String sep "") (y :: l))%string
      with (String sep (join (String sep "") (y :: l))).
    rewrite split_app, IH. reflexivity.
Qed.

Lemma join_truthy (sep x : string) (l : list string) :
  truthy x = true -> truthy (join sep (x :: l)) = true.
Proof.
  intros H. destruct x as [|c x]; [discriminate|].
  cbn [join]. now destruct l.
Qed.

(** X3. [cn] keeps the class names that are truthy, in their order, and
    nothing else: its result is empty exactly when no argument is a
    string that is not empty, and otherwise the result, cut at its spaces,
    is the class names of the truthy arguments cut at their spaces, so
    that no class is lost, added or glued to another. *)
Theorem cn_tokens (classes : list ClassValue) :
  (cn classes = "" <-> forall c, In c classes -> Boolean c = false)
  /\ split " " (cn classes)
     = match filter Boolean classes with
       | [] => [""]
       | kept => List.concat (map (fun c => split " " (toText c)) kept)
       end
  /\ forall c, In c (filter Boolean classes) ->
               exists s, c = ClassName s /\ s <> "" /\ toText c = s.
Proof.
  unfold cn. split; [|split].
  - split.
    + intros E c Hc. destruct (Boolean c) eqn:B; [|reflexivity].
      assert (I : In c (filter Boolean classes)) by now apply filter_In.
      destruct (filter Boolean classes) as [|k kept] eqn:F; [destruct I|].
      assert (Bk : Boolean k = true).
      { assert (Ik : In k (filter Boolean classes)) by (rewrite F; now left).
        now apply filter_In in Ik. }
      cbn [map] in E. destruct k; try discriminate. cbn [Boolean toText] in *.
      pose proof (join_truthy " " s (map toText kept) Bk) as T.
      rewrite E in T. discriminate.
    + intros H. replace (filter Boolean classes) with (@nil ClassValue); [reflexivity|].
      symmetry. induction classes as [|c l IH]; [reflexivity|].
      cbn [filter]. rewrite (H c) by now left. apply IH. intros d Hd. apply H. now right.
  - destruct (filter Boolean classes) as [|k kept]; [reflexivity|].
    cbn [map]. rewrite split_join. cbn [map]. now rewrite map_map.
  - intros c Hc. apply filter_In in Hc. destruct Hc as [_ B].
    destruct c; try discriminate. exists s. repeat split.
    intros ->. discriminate.
Qed.

Example cn_example :
  cn [ClassName "flex h-8"; ClassFalse; ClassName ""; ClassNull; ClassName "text-xs";
      ClassUndefined]
  = "flex h-8 text-xs"
  /\ cn [ClassFalse; ClassNull] = "".
Proof. split; reflexivity. Qed.

End ClassFacts.

(** ** Small integers as binary64 numbers *)

Module FloatFacts.

Lemma sameFloat_eq (a b : spec_float) : sameFloat a b = true -> a = b.
Proof.
  destruct a as [s| s| |s m e], b as [s'| s'| |s' m' e']; cbn [sameFloat];
    try discriminate; try reflexivity.
  - intros H. apply Bool.eqb_prop in H. now subst.
  - intros H. apply Bool.eqb_prop in H. now subst.
  - intros H. apply andb_true_iff in H. destruct H as [H He].
    apply andb_true_iff in H. destruct H as [Hs Hm].
    apply Bool.eqb_prop in Hs. apply Pos.eqb_eq in Hm. apply Z.eqb_eq in He. now subst.
Qed.

Lemma same_number (x y : float) : sameFloat (Prim2SF x) (Prim2SF y) = true -> x = y.
Proof. intros H. now apply Prim2SF_inj, sameFloat_eq. Qed.

Lemma below_In (n : nat) (k : Z) : 0 <= k < Z.of_nat n -> In k (below n).
Proof.
  intros H. unfold below. apply in_map_iff. exists (Z.to_nat k).
  split; [lia|]. apply in_seq. lia.
Qed.

Lemma SFltb_trans (x y z : spec_float) :
  nonNegative x = true -> nonNegative y = true -> nonNegative z = true ->
  SFltb x y = true -> SFltb y z = true -> SFltb x z = true.
Proof.
  unfold SFltb.
  destruct x as [[|]| | |[|] mx ex]; try discriminate;
    destruct y as [[|]| | |[|] my ey]; try discriminate;
    destruct z as [[|]| | |[|] mz ez]; try discriminate; cbn [SFcompare nonNegative];
    intros _ _ _; try discriminate; try reflexivity.
  change (PosDef.Pos.compare_cont Eq) with Pos.compare.
  destruct (Z.compare_spec ex ey); try discriminate;
    destruct (Z.compare_spec ey ez); try discriminate;
    destruct (Z.compare_spec ex ez); try lia; try reflexivity; try discriminate;
    destruct (Pos.compare_spec mx my); try discriminate;
    destruct (Pos.compare_spec my mz); try discriminate;
    destruct (Pos.compare_spec mx mz); try lia; reflexivity.
Qed.

Lemma SFltb_asym (x y : spec_float) :
  nonNegative x = true -> nonNegative y = true ->
  SFltb x y = true -> SFltb y x = false.
Proof.
  unfold SFltb.
  destruct x as [[|]| | |[|] mx ex]; try discriminate;
    destruct y as [[|]| | |[|] my ey]; try discriminate; cbn [SFcompare nonNegative];
    intros _ _; try discriminate; try reflexivity.
  change (PosDef.Pos.compare_cont Eq) with Pos.compare.
  destruct (Z.compare_spec ex ey); try discriminate;
    destruct (Z.compare_spec ey ex); try lia; try reflexivity;
    destruct (Pos.compare_spec mx my); try discriminate;
    destruct (Pos.compare_spec my mx); try lia; reflexivity.
Qed.

Lemma SFltb_irrefl (x : spec_float) : nonNegative x = true -> SFltb x x = false.
Proof.
  unfold SFltb. destruct x as [[|]| | |[|] mx ex]; try discriminate; cbn [SFcompare];
    intros _; try reflexivity.
  change (PosDef.Pos.compare_cont Eq) with Pos.compare.
  now rewrite Z.compare_refl, Pos.compare_refl.
Qed.

(** The minutes of a day, as binary64 numbers, are not negative and
    increase. *)
Lemma minutes_chain :
  forallb (fun n => nonNegative (Prim2SF (JSNumber.ofZ n))
                    && SFltb (Prim2SF (JSNumber.ofZ n)) (Prim2SF (JSNumber.ofZ (n + 1))))
          (below 1441) = true.
Proof. vm_compute. reflexivity. Qed.

Lemma minute_nonNegative (n : Z) :
  0 <= n <= 1440 -> nonNegative (Prim2SF (JSNumber.ofZ n)) = true.
Proof.
  intros H. pose proof minutes_chain as C. rewrite forallb_forall in C.
  specialize (C n (below_In 1441 n ltac:(lia))). now apply andb_true_iff in C.
Qed.

Lemma minute_next (n : Z) :
  0 <= n <= 1440 ->
  SFltb (Prim2SF (JSNumber.ofZ n)) (Prim2SF (JSNumber.ofZ (n + 1))) = true.
Proof.
  intros H. pose proof minutes_chain as C. rewrite forallb_forall in C.
  specialize (C n (below_In 1441 n ltac:(lia))). now apply andb_true_iff in C.
Qed.

Lemma minutes_lt (a b : Z) :
  0 <= a -> a < b -> b <= 1440 -> (JSNumber.ofZ a <? JSNumber.ofZ b)%float = true.
Proof.
  intros Ha Hab Hb. rewrite ltb_spec.
  replace b with (a + 1 + Z.of_nat (Z.to_nat (b - a - 1))) in * by lia.
  induction (Z.to_nat (b - a - 1)) as [|k IH].
  - replace (a + 1 + Z.of_nat 0) with (a + 1) by lia. apply minute_next. lia.
  - apply (SFltb_trans _ (Prim2SF (JSNumber.ofZ (a + 1 + Z.of_nat k)))).
    + apply minute_nonNegative. lia.
    + apply minute_nonNegative. lia.
    + apply minute_nonNegative. lia.
    + apply IH; lia.
    + replace (a + 1 + Z.of_nat (S k)) with (a + 1 + Z.of_nat k + 1) by lia.
      apply minute_next. lia.
Qed.

(** Minutes of a day compare as binary64 numbers the way they compare
    as integers. *)
Lemma minutes_ltb (a b : Z) :
  0 <= a <= 1440 -> 0 <= b <= 1440 ->
  (JSNumber.ofZ a <? JSNumber.ofZ b)%float = (a <? b).
Proof.
  intros Ha Hb. destruct (a <? b) eqn:E.
  - apply Z.ltb_lt in E. apply minutes_lt; lia.
  - apply Z.ltb_ge in E. rewrite ltb_spec.
    destruct (Z.eq_dec a b) as [->|N].
    + apply SFltb_irrefl, minute_nonNegative. lia.
    + apply SFltb_asym; try (apply minute_nonNegative; lia).
      rewrite <- ltb_spec. apply minutes_lt; lia.
Qed.

(** The hour times 60 plus the minute, computed on binary64 numbers, is
    the minute of the day. *)
Lemma clock_sum :
  forallb (fun h =>
             forallb (fun m => sameFloat
                                 (Prim2SF (JSNumber.ofZ h * 60 + JSNumber.ofZ m)%float)
                                 (Prim2SF (JSNumber.ofZ (h * 60 + m))))
                     (below 60))
          (below 24) = true.
Proof. vm_compute. reflexivity. Qed.

Lemma clock_minutes (h m : Z) :
  0 <= h < 24 -> 0 <= m < 60 ->
  (JSNumber.ofZ h * 60 + JSNumber.ofZ m)%float = JSNumber.ofZ (h * 60 + m).
Proof.
  intros Hh Hm. pose proof clock_sum as C. rewrite forallb_forall in C.
  specialize (C h (below_In 24 h ltac:(lia))). rewrite forallb_forall in C.
  specialize (C m (below_In 60 m ltac:(lia))). now apply same_number.
Qed.

(** [Number] reads two digits as the integer they write. *)
Lemma two_digits :
  forallb (fun k => sameFloat (Prim2SF (JSNumber.Number (JSDate.pad 2 k)))
                              (Prim2SF (JSNumber.ofZ k)))
          (below 60) = true.
Proof. vm_compute. reflexivity. Qed.

Lemma Number_pad (k : Z) :
  0 <= k < 60 -> JSNumber.Number (JSDate.pad 2 k) = JSNumber.ofZ k.
Proof.
  intros H. pose proof two_digits as C. rewrite forallb_forall in C.
  specialize (C k (below_In 60 k ltac:(lia))). now apply same_number.
Qed.

End FloatFacts.

(** ** The next reminder *)

Module NextReminderFacts.
Import JSDate JSString DateFacts StringFacts OrderFacts FloatFacts.

Lemma insert_sorted (x : string) (l : list string) :
  StronglySorted le l -> StronglySorted le (insert x l).
Proof.
  intros S. induction S as [|z l S IH F]; cbn [insert].
  - repeat constructor.
  - destruct (ltb z x) eqn:E.
    + constructor; [exact IH|].
      rewrite Forall_forall in *. intros y Hy. apply insert_In in Hy.
      destruct Hy as [->|Hy]; [|now apply F].
      apply ltb_false. right. now apply ltb_lt.
    + constructor; [now constructor|].
      constructor; [exact E|].
      rewrite Forall_forall in *. intros y Hy. eapply le_trans; [exact E|now apply F].
Qed.

(** [sort] puts any array in order. *)
Lemma sort_sorted (l : list string) : StronglySorted le (sort l).
Proof.
  induction l as [|x l IH]; cbn [sort fold_right]; [constructor|].
  fold (sort l). now apply insert_sorted.
Qed.

Lemma nextReminderLoop_find (nowMinutes : Z) (sorted : list string) :
  nextReminderLoop nowMinutes sorted
  = find (fun time => match nextReminderLoop nowMinutes [time] with
                      | Some _ => true
                      | None => false
                      end) sorted.
Proof.
  induction sorted as [|time rest IH]; [reflexivity|].
  cbn [nextReminderLoop find].
  destruct (JSNumber.ofZ nowMinutes <? _)%float; [reflexivity|exact IH].
Qed.

Lemma nextReminderLoop_In (nowMinutes : Z) (sorted : list string) (t : string) :
  nextReminderLoop nowMinutes sorted = Some t -> In t sorted.
Proof.
  rewrite nextReminderLoop_find. intros H. now apply find_some in H.
Qed.

(** X4. [getNextReminderForHabit] returns [null] exactly when the habit
    has no reminder, and otherwise one of the reminders of the habit. *)
Theorem nextReminder_is_a_reminder (tza : Z) (now : Date) (habit : Habit) :
  (getNextReminderForHabit tza now habit = None <-> reminders habit = [])
  /\ forall time, getNextReminderForHabit tza now habit = Some time ->
                  In time (reminders habit).
Proof.
  unfold getNextReminderForHabit. cbv zeta.
  destruct (reminders habit) as [|r l] eqn:R; cbn [List.length Nat.eqb].
  - split; [tauto|discriminate].
  - rewrite <- R.
    set (n := getHours tza now * 60 + getMinutes tza now).
    destruct (nextReminderLoop n (sort (reminders habit))) as [t|] eqn:L.
    + split; [split; [discriminate|rewrite R; discriminate]|].
      intros time E. injection E as <-.
      apply nextReminderLoop_In in L. now rewrite sort_In in L.
    + destruct (sort (reminders habit)) as [|s0 s] eqn:S.
      * exfalso. assert (I : In r (sort (reminders habit)))
          by (apply sort_In; rewrite R; now left).
        rewrite S in I. destruct I.
      * cbn [nth_error]. split; [split; [discriminate|rewrite R; discriminate]|].
        intros time E. injection E as <-. apply sort_In. rewrite S. now left.
Qed.

Lemma digit_not_colon (k : Z) : 0 <= k <= 9 -> Ascii.eqb (digit k) ":" = false.
Proof.
  intros H.
  assert (E : k = 0 \/ k = 1 \/ k = 2 \/ k = 3 \/ k = 4 \/ k = 5 \/ k = 6
              \/ k = 7 \/ k = 8 \/ k = 9) by lia.
  repeat (destruct E as [->|E]; [reflexivity|]). subst k. reflexivity.
Qed.

Lemma split_clockText (h m : Z) : split ":" (clockText h m) = [pad 2 h; pad 2 m].
Proof.
  unfold clockText. cbn [pad append split].
  rewrite !digit_not_colon by apply mod10_digit. reflexivity.
Qed.

(** The test of the loop on a time [HH:MM] is the comparison of the minute
    of the day with the minute of the clock. *)
Lemma later_clockText (n h m : Z) (rest : list string) :
  0 <= n < 1440 -> 0 <= h < 24 -> 0 <= m < 60 ->
  nextReminderLoop n (clockText h m :: rest)
  = if n <? h * 60 + m then Some (clockText h m) else nextReminderLoop n rest.
Proof.
  intros Hn Hh Hm. cbn [nextReminderLoop].
  rewrite split_clockText. cbn [map nth_error JSNumber.ToNumber].
  rewrite !Number_pad by lia. rewrite clock_minutes by lia.
  rewrite minutes_ltb by lia. reflexivity.
Qed.

(** Times [HH:MM] are ordered as strings the way they are ordered in the
    day. *)
Lemma clockText_mono (h1 m1 h2 m2 : Z) :
  0 <= h1 < 24 -> 0 <= m1 < 60 -> 0 <= h2 < 24 -> 0 <= m2 < 60 ->
  h1 * 60 + m1 < h2 * 60 + m2 -> lt (clockText h1 m1) (clockText h2 m2).
Proof.
  intros H1 M1 H2 M2 L.
  unfold lt, String_as_OT.lt, clockText.
  cbn [pad append String_as_OT.compare Z.of_nat Pos.of_succ_nat Pos.succ].
  change (10 ^ 1) with 10. change (10 ^ 0) with 1.
  do 2 next_digit.
  assert (h1 = h2) as -> by (Z.to_euclidean_division_equations; lia).
  repeat match goal with E : _ mod 10 = _ mod 10 |- _ => clear E end.
  change (Ascii_as_OT.compare ":" ":") with Eq. cbv iota.
  do 2 next_digit.
  exfalso. Z.to_euclidean_division_equations. lia.
Qed.

Lemma clockText_le (h1 m1 h2 m2 : Z) :
  0 <= h1 < 24 -> 0 <= m1 < 60 -> 0 <= h2 < 24 -> 0 <= m2 < 60 ->
  le (clockText h1 m1) (clockText h2 m2) -> h1 * 60 + m1 <= h2 * 60 + m2.
Proof.
  intros H1 M1 H2 M2 L. unfold le in L. apply ltb_false in L.
  destruct (Z_lt_le_dec (h2 * 60 + m2) (h1 * 60 + m1)) as [G|G]; [exfalso|exact G].
  pose proof (clockText_mono h2 m2 h1 m1 H2 M2 H1 M1 G) as G'.
  destruct L as [E|L].
  - rewrite E in G'. now apply lt_irrefl in G'.
  - apply (lt_irrefl (clockText h1 m1)). eapply lt_trans; eauto.
Qed.

Lemma find_first (f : string -> bool) (l : list string) (t : string) :
  StronglySorted le l -> find f l = Some t ->
  forall x, In x l -> f x = true -> le t x.
Proof.
  intros S. induction S as [|a l S IH F]; [discriminate|].
  cbn [find]. destruct (f a) eqn:E.
  - intros [= <-] x [<-|Hx] _.
    + apply ltb_false. now left.
    + rewrite Forall_forall in F. now apply F.
  - intros H x [<-|Hx] Fx; [congruence|]. now apply IH.
Qed.

(** X5. When the reminders of a habit are times of the day written
    [HH:MM], [getNextReminderForHabit] returns the earliest reminder that
    is later than the minute of the clock; and when no reminder is later,
    it returns the earliest reminder of the day. *)
Theorem nextReminder_earliest_later (tza : Z) (now : Date) (habit : Habit) :
  Forall clockTime (reminders habit) -> reminders habit <> [] ->
  exists h m,
    0 <= h < 24 /\ 0 <= m < 60
    /\ In (clockText h m) (reminders habit)
    /\ getNextReminderForHabit tza now habit = Some (clockText h m)
    /\ forall h' m',
         0 <= h' < 24 -> 0 <= m' < 60 -> In (clockText h' m') (reminders habit) ->
         let nowMinutes := getHours tza now * 60 + getMinutes tza now in
         if nowMinutes <? h * 60 + m
         then nowMinutes < h' * 60 + m' -> h * 60 + m <= h' * 60 + m'
         else h' * 60 + m' <= nowMinutes /\ h * 60 + m <= h' * 60 + m'.
Proof.
  intros C N.
  set (n := getHours tza now * 60 + getMinutes tza now).
  assert (Hn : 0 <= n < 1440).
  { unfold n, getHours, getMinutes, HourFromTime, MinFromTime.
    pose proof (Z.mod_pos_bound (LocalTime tza now / msPerHour) 24).
    pose proof (Z.mod_pos_bound (LocalTime tza now / msPerMinute) 60). lia. }
  rewrite Forall_forall in C.
  assert (Cs : forall t, In t (sort (reminders habit)) -> clockTime t)
    by (intros t Ht; apply C; now apply sort_In).
  assert (Loop : forall l, (forall t, In t l -> clockTime t) ->
            nextReminderLoop n l
            = find (fun t => existsb (fun h => existsb (fun m =>
                       (t =? clockText h m)%string && (n <? h * 60 + m)) (below 60))
                     (below 24)) l).
  { induction l as [|t l IH]; intros Hl; [reflexivity|].
    destruct (Hl t (or_introl eq_refl)) as (h & m & Hh & Hm & ->).
    rewrite later_clockText by assumption. cbn [find].
    rewrite IH by (intros t Ht; apply Hl; now right).
    destruct (n <? h * 60 + m) eqn:E.
    - replace (existsb _ (below 24)) with true; [reflexivity|].
      symmetry. apply existsb_exists. exists h. split; [apply below_In; lia|].
      apply existsb_exists. exists m. split; [apply below_In; lia|].
      now rewrite String.eqb_refl.
    - replace (existsb _ (below 24)) with false; [reflexivity|].
      symmetry. apply not_true_is_false. intros X.
      apply existsb_exists in X. destruct X as (h' & Ih & X).
      apply existsb_exists in X. destruct X as (m' & Im & X).
      apply andb_true_iff in X. destruct X as [Et Lt]. apply String.eqb_eq in Et.
      unfold below in Ih, Im. apply in_map_iff in Ih, Im.
      destruct Ih as (hn & <- & Ih). destruct Im as (mn & <- & Im).
      apply in_seq in Ih, Im.
      assert (G : Z.of_nat hn * 60 + Z.of_nat mn <= h * 60 + m).
      { apply clockText_le; try lia. rewrite Et. apply ltb_false. now left. }
      apply Z.ltb_lt in Lt. apply Z.ltb_ge in E. lia. }
  pose proof (sort_sorted (reminders habit)) as S.
  unfold getNextReminderForHabit. cbv zeta. fold n.
  destruct (reminders habit) as [|r0 l0] eqn:R; [contradiction|].
  cbn [List.length Nat.eqb]. rewrite <- R in *.
  rewrite Loop by exact Cs.
  set (f := fun t => existsb _ (below 24)).
  destruct (find f (sort (reminders habit))) as [t|] eqn:F.
  - pose proof (find_some _ _ F) as [It Ft].
    destruct (Cs t It) as (h & m & Hh & Hm & ->).
    exists h, m. split; [exact Hh|]. split; [exact Hm|].
    split; [now apply sort_In|]. split; [reflexivity|].
    assert (Later : n < h * 60 + m).
    { unfold f in Ft. apply existsb_exists in Ft. destruct Ft as (h' & Ih & X).
      apply existsb_exists in X. destruct X as (m' & Im & X).
      apply andb_true_iff in X. destruct X as [Et Lt]. apply String.eqb_eq in Et.
      unfold below in Ih, Im. apply in_map_iff in Ih, Im.
      destruct Ih as (hn & <- & Ih). destruct Im as (mn & <- & Im).
      apply in_seq in Ih, Im. apply Z.ltb_lt in Lt.
      assert (h * 60 + m <= Z.of_nat hn * 60 + Z.of_nat mn)
        by (apply clockText_le; try lia; rewrite Et; apply ltb_false; now left).
      assert (Z.of_nat hn * 60 + Z.of_nat mn <= h * 60 + m)
        by (apply clockText_le; try lia; rewrite Et; apply ltb_false; now left).
      lia. }
    intros h' m' Hh' Hm' I'. cbv zeta.
    replace (n <? h * 60 + m) with true by (symmetry; now apply Z.ltb_lt).
    intros L'. apply clockText_le; try assumption.
    apply (find_first f (sort (reminders habit)) _ S F); [now apply sort_In|].
    unfold f. apply existsb_exists. exists h'. split; [apply below_In; lia|].
    apply existsb_exists. exists m'. split; [apply below_In; lia|].
    rewrite String.eqb_refl. now apply Z.ltb_lt.
  - destruct (sort (reminders habit)) as [|s0 s] eqn:Es.
    { exfalso. assert (I : In r0 (sort (reminders habit)))
        by (apply sort_In; rewrite R; now left).
      rewrite Es in I. destruct I. }
    cbn [nth_error].
    destruct (Cs s0 (or_introl eq_refl)) as (h & m & Hh & Hm & ->).
    exists h, m. split; [exact Hh|]. split; [exact Hm|].
    split; [apply sort_In; rewrite Es; now left|]. split; [reflexivity|].
    assert (None' : forall h' m', 0 <= h' < 24 -> 0 <= m' < 60 ->
                In (clockText h' m') (reminders habit) -> h' * 60 + m' <= n).
    { intros h' m' Hh' Hm' I'. rewrite <- sort_In in I'. rewrite Es in I'.
      pose proof (find_none _ _ F _ I') as X. unfold f in X.
      destruct (Z_lt_le_dec n (h' * 60 + m')) as [G|G]; [exfalso|exact G].
      apply not_true_iff_false in X. apply X.
      apply existsb_exists. exists h'. split; [apply below_In; lia|].
      apply existsb_exists. exists m'. split; [apply below_In; lia|].
      rewrite String.eqb_refl. now apply Z.ltb_lt. }
    intros h' m' Hh' Hm' I'. cbv zeta.
    assert (Hs0 : h * 60 + m <= n)
      by (apply None'; try assumption; apply sort_In; rewrite Es; now left).
    replace (n <? h * 60 + m) with false by (symmetry; apply Z.ltb_ge; lia).
    split; [now apply None'|].
    apply clockText_le; try assumption.
    rewrite <- sort_In in I'. rewrite Es in I'. destruct I' as [<-|I'].
    + apply ltb_false. now left.
    + apply StronglySorted_inv in S. destruct S as [_ S].
      rewrite Forall_forall in S. now apply S.
Qed.

Lemma nextReminder_earliest_later_witness :
  exists h m,
    0 <= h < 24 /\ 0 <= m < 60
    /\ In (clockText h m) (reminders exampleWalker)
    /\ getNextReminderForHabit exampleZone exampleNoon exampleWalker = Some (clockText h m)
    /\ forall h' m',
         0 <= h' < 24 -> 0 <= m' < 60 -> In (clockText h' m') (reminders exampleWalker) ->
         let nowMinutes := getHours exampleZone exampleNoon * 60
                           + getMinutes exampleZone exampleNoon in
         if nowMinutes <? h * 60 + m
         then nowMinutes < h' * 60 + m' -> h * 60 + m <= h' * 60 + m'
         else h' * 60 + m' <= nowMinutes /\ h * 60 + m <= h' * 60 + m'.
Proof.
  apply (nextReminder_earliest_later exampleZone exampleNoon exampleWalker).
  - repeat constructor. exists 7, 0. repeat split; try lia.
  - discriminate.
Defined.

Example getNextReminderForHabit_example :
  map (getNextReminderForHabit exampleZone exampleNoon) exampleHabits
  = [Some "06:30"; Some "20:00"]
  /\ getNextReminderForHabit exampleZone (atLocal exampleZone 19732 20 0 0)
       (mkHabit "h" "n" "" "" 1%float ["20:00"; "12:00"; "9:5"; "noon"] [] "")
     = Some "12:00"
  /\ getNextReminderForHabit exampleZone (atLocal exampleZone 19732 9 0 0)
       (mkHabit "h" "n" "" "" 1%float ["20:00"; "12:00"; "9:5"; "noon"] [] "")
     = Some "12:00"
  /\ getNextReminderForHabit exampleZone exampleNoon
       (mkHabit "h" "n" "" "" 1%float [] [] "")
     = None.
Proof. vm_compute. repeat split. Qed.

End NextReminderFacts.

(** ** The progress of the week *)

Module ProgressFacts.
Import JSDate JSString JSSet JSArray DateFacts StringFacts SetFacts StoreFacts StreakFacts.

Lemma includes_In (l : list string) (x : string) : includes l x = true <-> In x l.
Proof. apply has_In. Qed.

Lemma getLastSevenDays_keys (tza : Z) (now : Date) :
  getLastSevenDays tza now
  = map (fun k => getDateKey tza (daysBefore now k)) [6; 5; 4; 3; 2; 1] ++ [getDateKey tza now].
Proof.
  unfold getLastSevenDays. rewrite lastDaysLoop_days, app_nil_r.
  cbn [seq rev app map]. change (Z.of_nat 0) with 0. rewrite daysBefore_0. reflexivity.
Qed.

Lemma completedOn_bounds (dateKey : string) (l : list Habit) :
  0 <= completedOn dateKey l <= Z.of_nat (List.length l).
Proof.
  unfold completedOn.
  pose proof (filter_length_le (fun habit => includes (completions habit) dateKey) l). lia.
Qed.

(** X6. At one reading of the clock, [weeklyProgress] has one entry for
    each of the seven days of [getLastSevenDays], in their order; the
    entry of a day counts the habits completed on that day, a number from
    0 to the number of habits; the last entry is that of today and its
    percentage is [todayCompletionRatio]; and without habits every count
    and every percentage is 0. *)
Theorem weeklyProgress_today (tza : Z) (now : Date) (habits : list Habit) :
  map day (weeklyProgress tza now habits) = getLastSevenDays tza now
  /\ List.length (weeklyProgress tza now habits) = 7%nat
  /\ (exists last,
         nth_error (weeklyProgress tza now habits) 6 = Some last
         /\ day last = getDateKey tza now
         /\ percentage last = todayCompletionRatio tza now habits)
  /\ Forall (fun p => completed p = completedOn (day p) habits
                      /\ 0 <= completed p <= Z.of_nat (List.length habits))
            (weeklyProgress tza now habits)
  /\ (habits = [] ->
      Forall (fun p => completed p = 0 /\ percentage p = 0%float)
             (weeklyProgress tza now habits)).
Proof.
  unfold weeklyProgress. cbv zeta.
  split; [rewrite map_map; cbn [day]; apply map_id|].
  split; [|split; [|split]].
  - rewrite length_map, getLastSevenDays_keys. reflexivity.
  - rewrite getLastSevenDays_keys. cbn [map app nth_error].
    eexists. split; [reflexivity|]. cbn [day percentage]. split; reflexivity.
  - apply Forall_forall. intros p Hp. apply in_map_iff in Hp.
    destruct Hp as (d & <- & _). cbn [completed day].
    split; [reflexivity|apply completedOn_bounds].
  - intros ->. apply Forall_forall. intros p Hp. apply in_map_iff in Hp.
    destruct Hp as (d & <- & _). split; reflexivity.
Qed.

Lemma includes_toggled (c : list string) (x y : string) :
  includes (toggled c x) y
  = if (y =? x)%string then negb (includes c x) else includes c y.
Proof.
  apply eq_true_iff_eq. rewrite includes_In, toggled_In.
  destruct (y =? x)%string eqn:E.
  - apply String.eqb_eq in E. subst y. rewrite negb_true_iff.
    rewrite <- not_true_iff_false, includes_In. split.
    + intros [(_ & _ & N)|[N _]]; [now contradiction N|exact N].
    + intros N. right. split; [exact N|now right].
  - apply String.eqb_neq in E. rewrite includes_In. split.
    + intros [(_ & I & _)|(_ & [I|I])]; [exact I|exact I|contradiction].
    + intros I. destruct (in_dec String.string_dec x c) as [X|X].
      * left. repeat split; assumption.
      * right. split; [exact X|now left].
Qed.

Lemma toggleHabit_other (habitId dateKey : string) (l : list Habit) :
  ~ In habitId (map id l) -> map (toggleHabit habitId dateKey) l = l.
Proof.
  induction l as [|h l IH]; intros N; [reflexivity|].
  cbn [map]. rewrite IH by (intros I; apply N; now right).
  unfold toggleHabit. replace (id h =? habitId)%string with false; [reflexivity|].
  symmetry. apply String.eqb_neq. intros E. apply N. now left.
Qed.

Lemma completedOn_cons (d : string) (h : Habit) (l : list Habit) :
  completedOn d (h :: l)
  = (if includes (completions h) d then 1 else 0) + completedOn d l.
Proof.
  unfold completedOn. cbn [filter]. destruct (includes (completions h) d);
    cbn [List.length]; lia.
Qed.

Lemma completedOn_toggle (habit : Habit) (dateKey d : string) (l : list Habit) :
  NoDup (map id l) -> In habit l ->
  completedOn d (map (toggleHabit (id habit) dateKey) l)
  = if (d =? dateKey)%string
    then (if includes (completions habit) dateKey
          then completedOn d l - 1 else completedOn d l + 1)
    else completedOn d l.
Proof.
  induction l as [|h l IH]; intros N I; [destruct I|].
  cbn [map] in N. apply NoDup_cons_iff in N. destruct N as [Nh N].
  cbn [map]. rewrite !completedOn_cons. destruct I as [->|I].
  - rewrite toggleHabit_other by exact Nh.
    unfold toggleHabit. rewrite String.eqb_refl. cbn [negb completions withCompletions].
    rewrite includes_toggled.
    destruct (d =? dateKey)%string eqn:E; [|reflexivity].
    apply String.eqb_eq in E. subst d.
    destruct (includes (completions habit) dateKey); cbn [negb]; lia.
  - rewrite IH by assumption.
    assert (E : (id h =? id habit)%string = false).
    { apply String.eqb_neq. intros E. apply Nh. rewrite E. now apply in_map. }
    unfold toggleHabit at 1. rewrite E. cbn [negb].
    destruct (d =? dateKey)%string; [|reflexivity].
    destruct (includes (completions habit) dateKey); lia.
Qed.

(** X7. Toggling a day of a habit moves one count of the week.  In a
    collection whose ids are distinct, after
    [handleToggleCompletion(habit.id, dateKey)] the entries of
    [weeklyProgress] have the same days; the count of the day [dateKey] is
    one less when the habit was completed on that day and one more when it
    was not; the counts of the other days are unchanged. *)
Theorem toggle_moves_one_count (tza : Z) (now : Date) (st : Home) (habit : Habit)
    (dateKey : string) :
  NoDup (map id (habits st)) -> In habit (habits st) ->
  Forall2 (fun p p' =>
             day p' = day p
             /\ completed p'
                = if (day p =? dateKey)%string
                  then (if includes (completions habit) dateKey
                        then completed p - 1 else completed p + 1)
                  else completed p)
          (weeklyProgress tza now (habits st))
          (weeklyProgress tza now (habits (handleToggleCompletion (id habit) dateKey st))).
Proof.
  intros N I. rewrite handleToggleCompletion_map, habits_withHabits.
  unfold weeklyProgress. cbv zeta.
  induction (getLastSevenDays tza now) as [|d days IH]; cbn [map]; constructor; [|exact IH].
  cbn [day completed]. split; [reflexivity|].
  apply (completedOn_toggle habit dateKey d (habits st) N I).
Qed.

Lemma toggle_moves_one_count_witness :
  Forall2 (fun p p' =>
             day p' = day p
             /\ completed p'
                = if (day p =? "2024-01-10")%string
                  then (if includes ["2024-01-09"; "2024-01-10"] "2024-01-10"
                        then completed p - 1 else completed p + 1)
                  else completed p)
          (weeklyProgress exampleZone exampleNoon (habits exampleHome))
          (weeklyProgress exampleZone exampleNoon
             (habits (handleToggleCompletion "habit-1" "2024-01-10" exampleHome))).
Proof.
  apply (toggle_moves_one_count exampleZone exampleNoon exampleHome exampleRunner
           "2024-01-10").
  - repeat constructor; cbn [In]; intuition discriminate.
  - left. reflexivity.
Defined.

Example weeklyProgress_example :
  map completed (weeklyProgress exampleZone exampleNoon exampleHabits)
  = [0; 0; 0; 0; 0; 1; 1]
  /\ map percentage (weeklyProgress exampleZone exampleNoon exampleHabits)
     = [0; 0; 0; 0; 0; 0.5; 0.5]%float
  /\ todayCompletionRatio exampleZone exampleNoon exampleHabits = 0.5%float
  /\ todayCompletionRatio exampleZone exampleNoon [] = 0%float.
Proof. vm_compute. repeat split. Qed.

End ProgressFacts.

(** ** Alerts and the selection *)

Module AlertFacts.
Import JSString StoreFacts.

Lemma filter_comm {A : Type} (f g : A -> bool) (l : list A) :
  filter f (filter g l) = filter g (filter f l).
Proof.
  induction l as [|a l IH]; [reflexivity|]. cbn [filter].
  destruct (f a) eqn:F, (g a) eqn:G; cbn [filter]; rewrite ?F, ?G, IH; reflexivity.
Qed.

Lemma filter_twice {A : Type} (f : A -> bool) (l : list A) :
  filter f (filter f l) = filter f l.
Proof.
  induction l as [|a l IH]; [reflexivity|]. cbn [filter].
  destruct (f a) eqn:F; cbn [filter]; rewrite ?F, IH; reflexivity.
Qed.

Lemma filter_all {A : Type} (f : A -> bool) (l : list A) :
  (forall a, In a l -> f a = true) -> filter f l = l.
Proof.
  induction l as [|a l IH]; intros H; [reflexivity|]. cbn [filter].
  rewrite (H a) by now left. f_equal. apply IH. intros b Hb. apply H. now right.
Qed.

(** X8. [dismissAlert] removes the alerts with the given id and no other:
    it touches nothing but the alerts, an alert stays exactly when its id
    is another one, dismissing an id that no alert has changes nothing,
    dismissing twice is dismissing once, and two dismissals can be made in
    either order. *)
Theorem dismissAlert_spec (alertId : string) (st : Home) :
  (forall a, In a (alerts (dismissAlert alertId st))
             <-> In a (alerts st) /\ alert_id a <> alertId)
  /\ dismissAlert alertId st
     = mkHome (habits st) (selectedHabitId st) (formName st) (formEmoji st)
              (formGoalPerWeek st) (formReminderTime st)
              (alerts (dismissAlert alertId st))
  /\ (~ In alertId (map alert_id (alerts st)) -> dismissAlert alertId st = st)
  /\ dismissAlert alertId (dismissAlert alertId st) = dismissAlert alertId st
  /\ (forall other,
         dismissAlert other (dismissAlert alertId st)
         = dismissAlert alertId (dismissAlert other st))
  /\ (NoDup (map alert_id (alerts st)) -> In alertId (map alert_id (alerts st)) ->
      S (List.length (alerts (dismissAlert alertId st))) = List.length (alerts st)).
Proof.
  unfold dismissAlert. cbn [alerts habits selectedHabitId formName formEmoji
                             formGoalPerWeek formReminderTime].
  split; [|split; [|split; [|split; [|split]]]].
  - intros a. rewrite filter_In, negb_true_iff, String.eqb_neq. reflexivity.
  - reflexivity.
  - intros N. rewrite filter_all; [now destruct st|].
    intros a Ha. apply negb_true_iff, String.eqb_neq. intros E. apply N.
    rewrite <- E. now apply in_map.
  - now rewrite filter_twice.
  - intros other. now rewrite filter_comm.
  - induction (alerts st) as [|a l IH]; intros N I; [destruct I|].
    cbn [map] in N. apply NoDup_cons_iff in N. destruct N as [Na N].
    cbn [filter]. destruct (alert_id a =? alertId)%string eqn:E; cbn [negb].
    + apply String.eqb_eq in E. rewrite filter_all; [reflexivity|].
      intros b Hb. apply negb_true_iff, String.eqb_neq. intros E'. apply Na.
      rewrite E, <- E'. now apply in_map.
    + cbn [List.length]. f_equal. apply IH; [exact N|].
      destruct I as [I|I]; [|exact I]. apply String.eqb_neq in E. contradiction.
Qed.

(** X9. The selection stays valid.  When the selected id, if there is
    one, is the id of a habit of the collection, it is so again after
    every handler: the five operations of the store, the click on the
    card of a habit of the collection, the dismissal of an alert and the
    arrival of new alerts.  Deleting a habit never leaves its id
    selected. *)
Theorem selection_stays_valid (st : Home) :
  selectionValid st ->
  (forall habitId dateKey, selectionValid (handleToggleCompletion habitId dateKey st))
  /\ (forall uuid pick now, selectionValid (handleAddHabit uuid pick now st))
  /\ (forall habitId time, selectionValid (handleAddReminder habitId time st))
  /\ (forall habitId time, selectionValid (handleRemoveReminder habitId time st))
  /\ (forall habitId,
         selectionValid (handleDeleteHabit habitId st)
         /\ selectedHabitId (handleDeleteHabit habitId st) <> Some habitId)
  /\ (forall habit, In habit (habits st) -> selectionValid (selectHabit (id habit) st))
  /\ (forall alertId, selectionValid (dismissAlert alertId st))
  /\ (forall upcomingAlerts, selectionValid (setAlerts st upcomingAlerts)).
Proof.
  unfold selectionValid. intros V.
  assert (Ids : forall (g : Habit -> Habit) habitId,
             (forall h, id (g h) = id h) ->
             map id (map (fun habit => if negb (id habit =? habitId)%string
                                       then habit else g habit) (habits st))
             = map id (habits st)).
  { intros g habitId Hg. rewrite map_map. apply map_ext. intros h.
    destruct (negb (id h =? habitId)%string); [reflexivity|apply Hg]. }
  repeat split.
  - intros habitId dateKey. unfold handleToggleCompletion.
    cbn [selectedHabitId withHabits habits].
    destruct (selectedHabitId st); [|exact I].
    now rewrite (Ids (fun h => withCompletions h _)).
  - intros uuid pick now. unfold handleAddHabit.
    destruct (negb (truthy (trim (formName st)))); [exact V|].
    cbn [selectedHabitId habits map id]. now left.
  - intros habitId time. unfold handleAddReminder.
    destruct (negb (truthy time)); [exact V|].
    cbn [selectedHabitId withHabits habits].
    destruct (selectedHabitId st); [|exact I].
    now rewrite (Ids (fun h => withReminders h _)).
  - intros habitId time. unfold handleRemoveReminder.
    cbn [selectedHabitId withHabits habits].
    destruct (selectedHabitId st); [|exact I].
    now rewrite (Ids (fun h => withReminders h _)).
  - unfold handleDeleteHabit. cbn [selectedHabitId habits].
    destruct (selectedHabitId st) as [sel|]; [|exact I].
    destruct (sel =? habitId)%string eqn:E; [exact I|].
    apply String.eqb_neq in E. apply in_map_iff in V. destruct V as (h & <- & Hh).
    apply in_map, filter_In. split; [exact Hh|].
    now apply negb_true_iff, String.eqb_neq.
  - unfold handleDeleteHabit. cbn [selectedHabitId].
    destruct (selectedHabitId st) as [sel|]; [|discriminate].
    destruct (sel =? habitId)%string eqn:E; [discriminate|].
    apply String.eqb_neq in E. congruence.
  - intros habit Hh. unfold selectHabit. cbn [selectedHabitId habits].
    destruct (selectedHabitId st) as [sel|]; [|now apply in_map].
    destruct (sel =? id habit)%string; [exact I|now apply in_map].
  - intros alertId. exact V.
  - intros upcomingAlerts. unfold setAlerts. now destruct upcomingAlerts.
Qed.

Lemma selection_stays_valid_witness :
  (forall habitId dateKey,
      selectionValid (handleToggleCompletion habitId dateKey
                        (selectHabit "habit-2" exampleHome)))
  /\ (forall uuid pick now,
         selectionValid (handleAddHabit uuid pick now (selectHabit "habit-2" exampleHome)))
  /\ (forall habitId time,
         selectionValid (handleAddReminder habitId time (selectHabit "habit-2" exampleHome)))
  /\ (forall habitId time,
         selectionValid (handleRemoveReminder habitId time
                           (selectHabit "habit-2" exampleHome)))
  /\ (forall habitId,
         selectionValid (handleDeleteHabit habitId (selectHabit "habit-2" exampleHome))
         /\ selectedHabitId (handleDeleteHabit habitId (selectHabit "habit-2" exampleHome))
            <> Some habitId)
  /\ (forall habit, In habit (habits (selectHabit "habit-2" exampleHome)) ->
                    selectionValid (selectHabit (id habit)
                                      (selectHabit "habit-2" exampleHome)))
  /\ (forall alertId, selectionValid (dismissAlert alertId
                                        (selectHabit "habit-2" exampleHome)))
  /\ (forall upcomingAlerts,
         selectionValid (setAlerts (selectHabit "habit-2" exampleHome) upcomingAlerts)).
Proof.
  apply (selection_stays_valid (selectHabit "habit-2" exampleHome)).
  right. left. reflexivity.
Defined.

End AlertFacts.

(** ** The rounds of the reminder evaluator *)

Module TickFacts.
Import JSDate JSSet SetFacts ReminderFacts.

Lemma reminderStep_due (now : Date) (dateKey : string) (nowSeconds : Z)
    (habit : Habit) (st : JSSet.t * list ReminderAlert) (time : string) :
  reminderStep now dateKey nowSeconds habit st time
  = if due nowSeconds time && negb (has (fst st) (cacheKeyOf habit time dateKey))
    then (add (fst st) (cacheKeyOf habit time dateKey),
          snd st ++ [alertOf now dateKey habit time])
    else st.
Proof.
  rewrite reminderStep_guard. unfold due, evaluate, cacheKeyOf, alertOf. cbv zeta.
  destruct (validReminder time); reflexivity.
Qed.

Lemma fold_left_map {A B C : Type} (f : A -> C -> A) (g : B -> C) (l : list B) :
  forall a, fold_left f (map g l) a = fold_left (fun a x => f a (g x)) l a.
Proof. induction l as [|x l IH]; intros a; [reflexivity|]. cbn [map fold_left]. apply IH. Qed.

(** The two nested loops of [tick] are one loop over the reminders. *)
Lemma fold_pairs (now : Date) (dateKey : string) (nowSeconds : Z) (habits : list Habit) :
  forall st,
    fold_left (fun st habit =>
                 fold_left (reminderStep now dateKey nowSeconds habit) (reminders habit) st)
              habits st
    = fold_left (fun st p => reminderStep now dateKey nowSeconds (fst p) st (snd p))
                (reminderPairs habits) st.
Proof.
  induction habits as [|h l IH]; intros st; [reflexivity|].
  cbn [fold_left reminderPairs flat_map]. rewrite fold_left_app, IH. f_equal.
  now rewrite fold_left_map.
Qed.

Lemma In_reminderPairs (habits : list Habit) (p : Habit * string) :
  In p (reminderPairs habits) <-> In (fst p) habits /\ In (snd p) (reminders (fst p)).
Proof.
  unfold reminderPairs. rewrite in_flat_map. split.
  - intros (h & Hh & Hp). apply in_map_iff in Hp. destruct Hp as (t & <- & Ht). now split.
  - intros [Hh Ht]. exists (fst p). split; [exact Hh|].
    apply in_map_iff. exists (snd p). split; [now destruct p|exact Ht].
Qed.

(** What the loop does to the keys of the cache and to the alerts. *)
Lemma run_spec (now : Date) (dateKey : string) (nowSeconds : Z)
    (ps : list (Habit * string)) :
  forall st,
    let st' := fold_left (fun st p => reminderStep now dateKey nowSeconds (fst p) st (snd p))
                         ps st in
    incl (fst st) (fst st')
    /\ (forall p, In p ps -> due nowSeconds (snd p) = true ->
                  In (cacheKeyOf (fst p) (snd p) dateKey) (fst st'))
    /\ exists B,
         snd st' = snd st ++ B
         /\ NoDup (map (alertKey dateKey) B)
         /\ (forall b, In b B ->
               ~ In (alertKey dateKey b) (fst st)
               /\ In (alertKey dateKey b) (fst st')
               /\ exists p, In p ps /\ due nowSeconds (snd p) = true
                            /\ b = alertOf now dateKey (fst p) (snd p))
         /\ (forall k, In k (fst st') ->
               In k (fst st) \/ exists b, In b B /\ k = alertKey dateKey b).
Proof.
  induction ps as [|p ps IH]; intros st; cbv zeta.
  - cbn [fold_left]. split; [apply incl_refl|]. split; [intros p []|].
    exists []. rewrite app_nil_r. split; [reflexivity|]. split; [constructor|].
    split; [intros b []|]. intros k Hk. now left.
  - cbn [fold_left]. rewrite reminderStep_due.
    destruct (due nowSeconds (snd p)
              && negb (has (fst st) (cacheKeyOf (fst p) (snd p) dateKey))) eqn:Fire.
    + apply andb_true_iff in Fire. destruct Fire as [D N].
      apply negb_true_iff, has_false in N.
      set (key := cacheKeyOf (fst p) (snd p) dateKey) in *.
      set (al := alertOf now dateKey (fst p) (snd p)).
      specialize (IH (add (fst st) key, snd st ++ [al])). cbv zeta in IH.
      set (st' := fold_left _ ps _) in *. cbn [fst snd] in IH.
      destruct IH as (I1 & C1 & B & EB & NB & HB & KB).
      assert (Ik : In key (fst st')) by (apply I1, add_In; now right).
      split; [|split].
      * intros k Hk. apply I1, add_In. now left.
      * intros q [<-|Hq] Dq; [exact Ik|now apply C1].
      * exists (al :: B). split; [now rewrite EB, <- app_assoc|].
        split; [|split].
        -- cbn [map]. constructor; [|exact NB].
           intros X. apply in_map_iff in X. destruct X as (b & Eb & Hb).
           destruct (HB b Hb) as (Nb & _). apply Nb, add_In. right. exact Eb.
        -- intros b [<-|Hb].
           ++ split; [exact N|]. split; [exact Ik|]. exists p. split; [now left|]. now split.
           ++ destruct (HB b Hb) as (Nb & Ib & q & Hq & Dq & Eq).
              split; [intros X; apply Nb, add_In; now left|]. split; [exact Ib|].
              exists q. split; [now right|]. now split.
        -- intros k Hk. destruct (KB k Hk) as [X|(b & Hb & Eb)].
           ++ apply add_In in X. destruct X as [X| ->]; [now left|].
              right. exists al. split; [now left|reflexivity].
           ++ right. exists b. split; [now right|exact Eb].
    + specialize (IH st). cbv zeta in IH.
      set (st' := fold_left _ ps st) in *.
      destruct IH as (I1 & C1 & B & EB & NB & HB & KB).
      split; [exact I1|]. split.
      * intros q [<-|Hq] Dq; [|now apply C1].
        rewrite Dq in Fire. cbn [andb] in Fire. apply negb_false_iff, has_In in Fire.
        now apply I1.
      * exists B. split; [exact EB|]. split; [exact NB|]. split; [|exact KB].
        intros b Hb. destruct (HB b Hb) as (Nb & Ib & q & Hq & Dq & Eq).
        split; [exact Nb|]. split; [exact Ib|]. exists q. split; [now right|]. now split.
Qed.

(** When the key of every due reminder is in the cache, the loop changes
    nothing. *)
Lemma run_idle (now : Date) (dateKey : string) (nowSeconds : Z)
    (ps : list (Habit * string)) (st : JSSet.t * list ReminderAlert) :
  (forall p, In p ps -> due nowSeconds (snd p) = true ->
             In (cacheKeyOf (fst p) (snd p) dateKey) (fst st)) ->
  fold_left (fun st p => reminderStep now dateKey nowSeconds (fst p) st (snd p)) ps st = st.
Proof.
  induction ps as [|p ps IH]; intros H; [reflexivity|].
  cbn [fold_left]. rewrite reminderStep_due.
  replace (due nowSeconds (snd p)
           && negb (has (fst st) (cacheKeyOf (fst p) (snd p) dateKey))) with false.
  - apply IH. intros q Hq. apply H. now right.
  - symmetry. destruct (due nowSeconds (snd p)) eqn:D; [|reflexivity].
    cbn [andb]. apply negb_false_iff, has_In, H; [now left|exact D].
Qed.

Lemma append_inv_tail (a b s : string) : (a ++ s = b ++ s)%string -> a = b.
Proof.
  intros E.
  assert (L : list_ascii_of_string (a ++ s) = list_ascii_of_string (b ++ s)) by now rewrite E.
  assert (A : forall x y, list_ascii_of_string (x ++ y)
                          = list_ascii_of_string x ++ list_ascii_of_string y).
  { induction x as [|c x IH]; intros y; [reflexivity|]. cbn. now rewrite IH. }
  rewrite !A in L. apply app_inv_tail in L.
  rewrite <- (string_of_list_ascii_of_string a), <- (string_of_list_ascii_of_string b).
  now rewrite L.
Qed.

(** The state that [tick] starts its loop from. *)
Lemma tick_run (tza : Z) (cache : ReminderCache) (habits : list Habit) (now : Date) :
  tick tza cache habits now
  = let dateKey := getDateKey tza now in
    let keys0 := if (date cache =? dateKey)%string then keys cache else [] in
    let st := fold_left (fun st p => reminderStep now dateKey (secondOfDay tza now)
                                       (fst p) st (snd p))
                        (reminderPairs habits) (keys0, []) in
    (mkReminderCache dateKey (fst st), snd st).
Proof.
  unfold tick, secondOfDay. cbv zeta. rewrite fold_pairs.
  destruct (date cache =? getDateKey tza now)%string eqn:E; cbn [negb date keys];
    [|reflexivity].
  apply String.eqb_eq in E. now rewrite E.
Qed.

(** The keys of a round: the cache is that of the day, the key of every
    alert is in it and was not in the cache of the day before the round,
    and the key of every reminder that is due is in it. *)
Lemma tick_keys (tza : Z) (cache : ReminderCache) (habits : list Habit) (now : Date) :
  let dateKey := getDateKey tza now in
  let result := tick tza cache habits now in
  date (fst result) = dateKey
  /\ (forall a, In a (snd result) ->
        In (alertKey dateKey a) (keys (fst result))
        /\ (date cache = dateKey -> ~ In (alertKey dateKey a) (keys cache)))
  /\ (forall habit time,
         In habit habits -> In time (reminders habit) ->
         due (secondOfDay tza now) time = true ->
         In (cacheKeyOf habit time dateKey) (keys (fst result))).
Proof.
  cbv zeta. rewrite tick_run. cbv zeta.
  set (dateKey := getDateKey tza now).
  set (keys0 := if (date cache =? dateKey)%string then keys cache else []).
  pose proof (run_spec now dateKey (secondOfDay tza now) (reminderPairs habits) (keys0, []))
    as R. cbv zeta in R.
  set (st := fold_left _ (reminderPairs habits) (keys0, [])) in *.
  cbn [fst snd app] in R. destruct R as (_ & C0 & B & EB & _ & HB & _).
  cbn [fst snd date keys]. rewrite EB.
  split; [reflexivity|]. split.
  - intros a Ha. destruct (HB a Ha) as (Na & Ia & _).
    split; [exact Ia|]. intros E. unfold keys0 in Na.
    now rewrite E, String.eqb_refl in Na.
  - intros habit time Hh Ht D.
    apply (C0 (habit, time)); [|exact D]. now apply In_reminderPairs.
Qed.

(** X10. What a round of the evaluator emits.  The cache it returns is
    that of the day of the clock.  The alerts of the round have pairwise
    distinct ids; each of them carries the clock reading and stands for a
    reminder of a habit of the collection that is due, whose key is in
    the cache after the round and was not in the cache of the day before
    it.  Every reminder that is due has its key in the cache after the
    round, and every key of that cache was in the cache of the day already
    or is the key of an alert of the round. *)
Theorem tick_alerts (tza : Z) (cache : ReminderCache) (habits : list Habit)
    (now : Date) :
  let dateKey := getDateKey tza now in
  let result := tick tza cache habits now in
  date (fst result) = dateKey
  /\ NoDup (map alert_id (snd result))
  /\ (forall a, In a (snd result) ->
        alert_timestamp a = now
        /\ alert_id a = (alertKey dateKey a ++ "-" ++ JSString.ofZ now)%string
        /\ In (alertKey dateKey a) (keys (fst result))
        /\ (date cache = dateKey -> ~ In (alertKey dateKey a) (keys cache))
        /\ exists habit,
             In habit habits /\ In (alert_time a) (reminders habit)
             /\ due (secondOfDay tza now) (alert_time a) = true
             /\ alert_habitId a = id habit /\ alert_habitName a = name habit)
  /\ (forall habit time,
         In habit habits -> In time (reminders habit) ->
         due (secondOfDay tza now) time = true ->
         In (cacheKeyOf habit time dateKey) (keys (fst result)))
  /\ (forall key, In key (keys (fst result)) ->
         (date cache = dateKey /\ In key (keys cache))
         \/ exists a, In a (snd result) /\ key = alertKey dateKey a)
  /\ (date cache = dateKey -> incl (keys cache) (keys (fst result))).
Proof.
  cbv zeta. rewrite tick_run. cbv zeta.
  set (dateKey := getDateKey tza now).
  set (keys0 := if (date cache =? dateKey)%string then keys cache else []).
  pose proof (run_spec now dateKey (secondOfDay tza now) (reminderPairs habits) (keys0, []))
    as R. cbv zeta in R.
  set (st := fold_left _ (reminderPairs habits) (keys0, [])) in *.
  cbn [fst snd app] in R. destruct R as (I0 & C0 & B & EB & NB & HB & KB).
  cbn [fst snd date keys]. rewrite EB.
  assert (K0 : date cache = dateKey -> keys0 = keys cache).
  { intros E. unfold keys0. now rewrite E, String.eqb_refl. }
  assert (Ids : forall b, In b B ->
            alert_id b = (alertKey dateKey b ++ "-" ++ JSString.ofZ now)%string).
  { intros b Hb. destruct (HB b Hb) as (_ & _ & p & _ & _ & ->). reflexivity. }
  split; [reflexivity|]. split; [|split; [|split; [|split]]].
  - rewrite (map_ext_in alert_id
               (fun b => (alertKey dateKey b ++ "-" ++ JSString.ofZ now)%string) B Ids).
    rewrite <- (map_map (alertKey dateKey) (fun k => (k ++ "-" ++ JSString.ofZ now)%string)).
    apply Finite.Injective_map_NoDup; [|exact NB].
    intros x y E. now apply append_inv_tail in E.
  - intros a Ha. destruct (HB a Ha) as (Na & Ia & p & Hp & Dp & Ea).
    apply In_reminderPairs in Hp. destruct Hp as [Hh Ht].
    split; [now rewrite Ea|]. split; [now apply Ids|]. split; [exact Ia|].
    split; [intros E; now rewrite <- (K0 E)|].
    exists (fst p). rewrite Ea. cbn [alertOf alert_time alert_habitId alert_habitName].
    repeat split; assumption.
  - intros habit time Hh Ht D.
    apply (C0 (habit, time)); [|exact D]. now apply In_reminderPairs.
  - intros key Hk. destruct (KB key Hk) as [X|X]; [left|now right].
    unfold keys0 in X. destruct (date cache =? dateKey)%string eqn:E; [|destruct X].
    apply String.eqb_eq in E. now split.
  - intros E. rewrite <- (K0 E). exact I0.
Qed.

(** X11. A reminder fires once a day.  When a round is followed by
    another round on the same day, whatever the collection is by then,
    the second round emits no alert for a habit id and a reminder time
    that the first round emitted an alert for; and a second round at the
    same moment on the same collection emits nothing and leaves the cache
    as it is. *)
Theorem tick_never_repeats (tza : Z) (cache : ReminderCache) (habits habits' : list Habit)
    (now now' : Date) :
  getDateKey tza now' = getDateKey tza now ->
  let first := tick tza cache habits now in
  let second := tick tza (fst first) habits' now' in
  (forall a a', In a (snd first) -> In a' (snd second) ->
                ~ (alert_habitId a' = alert_habitId a /\ alert_time a' = alert_time a))
  /\ tick tza (fst first) habits now = (fst first, []).
Proof.
  intros Day. cbv zeta.
  destruct (tick_keys tza cache habits now) as (D1 & A1 & C1).
  cbv zeta in D1, A1, C1.
  split.
  - destruct (tick_keys tza (fst (tick tza cache habits now)) habits' now')
      as (_ & A2 & _).
    cbv zeta in A2. intros a a' Ha Ha' [Eh Et].
    destruct (A1 a Ha) as (Ia & _).
    destruct (A2 a' Ha') as (_ & Na').
    apply Na'; [now rewrite D1|].
    unfold alertKey in *. now rewrite Eh, Et, Day.
  - rewrite (tick_run tza (fst (tick tza cache habits now)) habits now). cbv zeta.
    rewrite D1, String.eqb_refl. rewrite run_idle.
    + cbn [fst snd]. rewrite <- D1. now destruct (fst (tick tza cache habits now)).
    + intros p Hp Dp. cbn [fst]. apply In_reminderPairs in Hp. destruct Hp as [Hh Ht].
      now apply C1.
Qed.

Lemma tick_never_repeats_witness :
  let first := tick exampleZone (mkReminderCache "" []) [exampleWalker]
                    (atLocal exampleZone 19732 7 0 0) in
  let second := tick exampleZone (fst first) exampleHabits
                     (atLocal exampleZone 19732 7 0 15) in
  (forall a a', In a (snd first) -> In a' (snd second) ->
                ~ (alert_habitId a' = alert_habitId a /\ alert_time a' = alert_time a))
  /\ tick exampleZone (fst first) [exampleWalker] (atLocal exampleZone 19732 7 0 0)
     = (fst first, []).
Proof.
  apply (tick_never_repeats exampleZone (mkReminderCache "" []) [exampleWalker]
           exampleHabits (atLocal exampleZone 19732 7 0 0)
           (atLocal exampleZone 19732 7 0 15)).
  vm_compute. reflexivity.
Defined.

End TickFacts.

(** ** More on the current streak *)

Module CurrentStreakFacts.
Import JSDate JSString JSSet DateFacts StringFacts SetFacts StoreFacts StreakFacts.

(** What the loop of [computeStreak] returns: the days it counted are in
    the set and the day it stopped at is not. *)
Lemma computeStreakLoop_exact (tza : Z) (fuel : nat) (s : JSSet.t) :
  forall today streak r,
    computeStreakLoop tza fuel s today streak = Some r ->
    streak <= r
    /\ (Z.to_nat (r - streak) < fuel)%nat
    /\ (forall i, 0 <= i < r - streak ->
                  has s (getDateKey tza (daysBefore today i)) = true)
    /\ has s (getDateKey tza (daysBefore today (r - streak))) = false.
Proof.
  induction fuel as [|fuel IH]; intros today streak r H; [discriminate|].
  rewrite computeStreakLoop_S in H.
  destruct (has s (getDateKey tza today)) eqn:E.
  - rewrite setDate_previous in H.
    replace (today - msPerDay) with (daysBefore today 1) in H by (unfold daysBefore; lia).
    apply IH in H. destruct H as (Hr & Hf & Hin & Hout).
    split; [lia|]. split; [lia|]. split.
    + intros i Hi. destruct (Z.eq_dec i 0) as [->|N]; [now rewrite daysBefore_0|].
      replace i with (1 + (i - 1)) by lia. rewrite <- daysBefore_daysBefore.
      apply Hin. lia.
    + replace (r - streak) with (1 + (r - (streak + 1))) by lia.
      now rewrite <- daysBefore_daysBefore.
  - injection H as <-. replace (streak - streak) with 0 by lia.
    split; [lia|]. split; [cbn; lia|]. split; [intros i Hi; lia|].
    now rewrite daysBefore_0.
Qed.

(** The rounds are used up only on days that are in the set. *)
Lemma computeStreakLoop_None (tza : Z) (fuel : nat) (s : JSSet.t) :
  forall today streak,
    computeStreakLoop tza fuel s today streak = None <->
    forall i, (i < fuel)%nat ->
              has s (getDateKey tza (daysBefore today (Z.of_nat i))) = true.
Proof.
  induction fuel as [|fuel IH]; intros today streak.
  - split; [intros _ i Hi; lia|reflexivity].
  - rewrite computeStreakLoop_S.
    destruct (has s (getDateKey tza today)) eqn:E.
    + rewrite setDate_previous.
      replace (today - msPerDay) with (daysBefore today 1) by (unfold daysBefore; lia).
      rewrite IH. split.
      * intros H i Hi. destruct i as [|i].
        -- change (Z.of_nat 0) with 0. now rewrite daysBefore_0.
        -- specialize (H i ltac:(lia)). rewrite daysBefore_daysBefore in H.
           now replace (1 + Z.of_nat i) with (Z.of_nat (S i)) in H by lia.
      * intros H i Hi. specialize (H (S i) ltac:(lia)). rewrite daysBefore_daysBefore.
        now replace (1 + Z.of_nat i) with (Z.of_nat (S i)) by lia.
    + split; [discriminate|]. intros H. specialize (H 0%nat ltac:(lia)).
      change (Z.of_nat 0) with 0 in H. rewrite daysBefore_0 in H. congruence.
Qed.

(** With more than [k] rounds to run, the streak is [k] exactly when
    the [k] days up to the day of the clock are completed and the day
    before them is not. *)
Lemma computeStreak_counts (tza : Z) (now : Date) (habit : Habit) (fuel k : nat) :
  (k < fuel)%nat ->
  (computeStreak tza fuel now habit = Some (Z.of_nat k)
   <-> (forall i, (i < k)%nat ->
                  In (getDateKey tza (daysBefore now (Z.of_nat i))) (completions habit))
       /\ ~ In (getDateKey tza (daysBefore now (Z.of_nat k))) (completions habit)).
Proof.
  intros Hk. unfold computeStreak. split.
  - intros H. apply computeStreakLoop_exact in H. destruct H as (_ & _ & Hin & Hout).
    rewrite Z.sub_0_r in *. split.
    + intros i Hi. rewrite <- ofArray_In. apply has_In, Hin. lia.
    + rewrite <- ofArray_In. now apply has_false.
  - intros [Hin Hout].
    rewrite (computeStreakLoop_run tza k fuel); [reflexivity| | |exact Hk].
    + intros i Hi. apply has_In, ofArray_In. now apply Hin.
    + apply has_false. now rewrite ofArray_In.
Qed.

(** X12. The current streak, in full.  With more than [k] rounds to
    run, [computeStreak] returns [k] exactly when the keys of the [k]
    days up to the day of the clock are among the completions and the key
    of the day before them is not; what it returns is never negative; and
    the rounds are used up, the loop still running, exactly when the key
    of every day visited is among the completions. *)
Theorem computeStreak_exact (tza : Z) (now : Date) (habit : Habit) (fuel k : nat) :
  (k < fuel)%nat ->
  (computeStreak tza fuel now habit = Some (Z.of_nat k)
   <-> (forall i, (i < k)%nat ->
                  In (getDateKey tza (daysBefore now (Z.of_nat i))) (completions habit))
       /\ ~ In (getDateKey tza (daysBefore now (Z.of_nat k))) (completions habit))
  /\ (forall r, computeStreak tza fuel now habit = Some r -> 0 <= r < Z.of_nat fuel)
  /\ (computeStreak tza fuel now habit = None
      <-> forall i, (i < fuel)%nat ->
                    In (getDateKey tza (daysBefore now (Z.of_nat i))) (completions habit)).
Proof.
  intros Hk. split; [now apply computeStreak_counts|]. unfold computeStreak. split.
  - intros r H. apply computeStreakLoop_exact in H. destruct H as (H0 & Hf & _). lia.
  - rewrite computeStreakLoop_None. split; intros H i Hi.
    + rewrite <- ofArray_In. apply has_In. now apply H.
    + apply has_In, ofArray_In. now apply H.
Qed.

Lemma computeStreak_exact_witness :
  (computeStreak exampleZone 3 exampleNoon exampleRunner = Some (Z.of_nat 2)
   <-> (forall i, (i < 2)%nat ->
                  In (getDateKey exampleZone (daysBefore exampleNoon (Z.of_nat i)))
                     (completions exampleRunner))
       /\ ~ In (getDateKey exampleZone (daysBefore exampleNoon (Z.of_nat 2)))
               (completions exampleRunner))
  /\ (forall r, computeStreak exampleZone 3 exampleNoon exampleRunner = Some r ->
                0 <= r < Z.of_nat 3)
  /\ (computeStreak exampleZone 3 exampleNoon exampleRunner = None
      <-> forall i, (i < 3)%nat ->
                    In (getDateKey exampleZone (daysBefore exampleNoon (Z.of_nat i)))
                       (completions exampleRunner)).
Proof.
  apply (computeStreak_exact exampleZone exampleNoon exampleRunner 3 2). lia.
Defined.

Lemma first_gap (P : nat -> Prop) (dec : forall i, {P i} + {~ P i}) (n : nat) :
  (forall i, (i <= n)%nat -> P i)
  \/ exists k, (k <= n)%nat /\ (forall i, (i < k)%nat -> P i) /\ ~ P k.
Proof.
  induction n as [|n IH].
  - destruct (dec 0%nat) as [H|H].
    + left. intros i Hi. now replace i with 0%nat by lia.
    + right. exists 0%nat. split; [lia|]. split; [intros i Hi; lia|exact H].
  - destruct IH as [All|(k & Hk & Hin & Hout)].
    + destruct (dec (S n)) as [H|H].
      * left. intros i Hi. destruct (Nat.eq_dec i (S n)) as [->|N]; [exact H|].
        apply All. lia.
      * right. exists (S n). split; [lia|]. split; [|exact H].
        intros i Hi. apply All. lia.
    + right. exists k. split; [lia|]. now split.
Qed.

(** X13. The loop of [computeStreak] stops.  When the days back from the
    day of the clock, as many as the habit has completions, have a date
    identifier, the current streak is at most the number of completions,
    and one round more than that number is enough for the loop to reach
    its [break]. *)
Theorem computeStreak_terminates (tza : Z) (now : Date) (habit : Habit) :
  keyDay (localDay tza now - Z.of_nat (List.length (completions habit))) ->
  keyDay (localDay tza now) ->
  exists k,
    (k <= List.length (completions habit))%nat
    /\ forall fuel, (List.length (completions habit) < fuel)%nat ->
                    computeStreak tza fuel now habit = Some (Z.of_nat k).
Proof.
  intros Klo Khi. set (n := List.length (completions habit)) in *.
  set (key := fun i : nat => getDateKey tza (daysBefore now (Z.of_nat i))).
  destruct (first_gap (fun i => In (key i) (completions habit))
              (fun i => in_dec String.string_dec (key i) (completions habit)) n)
    as [All|(k & Hk & Hin & Hout)].
  - exfalso.
    assert (L : (List.length (map key (seq 0 (S n))) <= n)%nat).
    { apply NoDup_incl_length.
      - apply Finite.Injective_map_NoDup_in; [|apply seq_NoDup].
        intros i j Hi Hj E. apply in_seq in Hi, Hj. unfold key in E.
        rewrite !getDateKey_daysBefore in E
          by (apply (keyDay_between _ _ _ Klo Khi); lia).
        apply dateId_inj in E; [lia| |]; apply (keyDay_between _ _ _ Klo Khi); lia.
      - intros x Hx. apply in_map_iff in Hx. destruct Hx as (i & <- & Hi).
        apply in_seq in Hi. apply All. lia. }
    rewrite length_map, length_seq in L. lia.
  - exists k. split; [exact Hk|]. intros fuel Hf.
    apply (computeStreak_counts tza now habit fuel k); [lia|]. now split.
Qed.

Lemma computeStreak_terminates_witness :
  exists k,
    (k <= List.length (completions exampleRunner))%nat
    /\ forall fuel, (List.length (completions exampleRunner) < fuel)%nat ->
                    computeStreak exampleZone fuel exampleNoon exampleRunner
                    = Some (Z.of_nat k).
Proof.
  apply (computeStreak_terminates exampleZone exampleNoon exampleRunner); solve_keyDay.
Defined.

(** The completions of a habit after a toggle. *)
Lemma toggleHabit_completions (habit : Habit) (dateKey : string) :
  completions (toggleHabit (id habit) dateKey habit) = toggled (completions habit) dateKey.
Proof. unfold toggleHabit. now rewrite String.eqb_refl. Qed.

(** X14. The checkbox of today and the streak.  The habit of the
    collection that [handleToggleCompletion] is called on for the key of
    today is replaced by a habit with the same id; when it was completed
    today its current streak is 0 afterwards; and when it was not, its
    current streak is one more than the streak that ran up to yesterday,
    the days of that streak having date identifiers. *)
Theorem toggle_today_streak (tza : Z) (now : Date) (st : Home) (habit : Habit) :
  In habit (habits st) ->
  exists habit',
    In habit' (habits (handleToggleCompletion (id habit) (getDateKey tza now) st))
    /\ id habit' = id habit
    /\ (In (getDateKey tza now) (completions habit) ->
        forall fuel, computeStreak tza (S fuel) now habit' = Some 0)
    /\ (~ In (getDateKey tza now) (completions habit) ->
        forall (fuel k : nat),
          (k < fuel)%nat ->
          keyDay (localDay tza now - Z.of_nat k - 1) -> keyDay (localDay tza now) ->
          computeStreak tza fuel (daysBefore now 1) habit = Some (Z.of_nat k) ->
          computeStreak tza (S fuel) now habit' = Some (Z.of_nat k + 1)).
Proof.
  intros I. set (today := getDateKey tza now).
  exists (toggleHabit (id habit) today habit).
  split; [rewrite handleToggleCompletion_map, habits_withHabits; now apply in_map|].
  split; [unfold toggleHabit; now rewrite String.eqb_refl|].
  split.
  - intros Hin fuel.
    apply (computeStreak_counts tza now _ (S fuel) 0); [lia|].
    split; [intros i Hi; lia|].
    change (Z.of_nat 0) with 0. rewrite daysBefore_0. fold today.
    rewrite toggleHabit_completions, toggled_In. intros [(_ & _ & N)|(N & _)]; auto.
  - intros Hout fuel k Hk Klo Khi H.
    apply (computeStreak_counts tza (daysBefore now 1) habit fuel k Hk) in H.
    destruct H as [Hin Hstop].
    replace (Z.of_nat k + 1) with (Z.of_nat (S k)) by lia.
    apply (computeStreak_counts tza now _ (S fuel) (S k)); [lia|].
    rewrite toggleHabit_completions. split.
    + intros i Hi. rewrite toggled_In. right. split; [exact Hout|].
      destruct i as [|i].
      * right. change (Z.of_nat 0) with 0. now rewrite daysBefore_0.
      * left. specialize (Hin i ltac:(lia)). rewrite daysBefore_daysBefore in Hin.
        now replace (1 + Z.of_nat i) with (Z.of_nat (S i)) in Hin by lia.
    + rewrite toggled_In. rewrite daysBefore_daysBefore in Hstop.
      replace (1 + Z.of_nat k) with (Z.of_nat (S k)) in Hstop by lia.
      intros [(X & _)|(_ & [X|X])]; [contradiction|contradiction|].
      unfold today in X.
      rewrite getDateKey_daysBefore in X by (replace (localDay tza now - Z.of_nat (S k))
                                               with (localDay tza now - Z.of_nat k - 1) by lia;
                                             exact Klo).
      rewrite (getDateKey_dateId tza now Khi) in X.
      apply dateId_inj in X; [lia| |exact Khi].
      replace (localDay tza now - Z.of_nat (S k))
        with (localDay tza now - Z.of_nat k - 1) by lia. exact Klo.
Qed.

Lemma toggle_today_streak_witness :
  exists habit',
    In habit' (habits (handleToggleCompletion (id exampleRunner)
                         (getDateKey exampleZone exampleNoon) exampleHome))
    /\ id habit' = id exampleRunner
    /\ (In (getDateKey exampleZone exampleNoon) (completions exampleRunner) ->
        forall fuel, computeStreak exampleZone (S fuel) exampleNoon habit' = Some 0)
    /\ (~ In (getDateKey exampleZone exampleNoon) (completions exampleRunner) ->
        forall (fuel k : nat),
          (k < fuel)%nat ->
          keyDay (localDay exampleZone exampleNoon - Z.of_nat k - 1) ->
          keyDay (localDay exampleZone exampleNoon) ->
          computeStreak exampleZone fuel (daysBefore exampleNoon 1) exampleRunner
          = Some (Z.of_nat k) ->
          computeStreak exampleZone (S fuel) exampleNoon habit' = Some (Z.of_nat k + 1)).
Proof.
  apply (toggle_today_streak exampleZone exampleNoon exampleHome exampleRunner).
  left. reflexivity.
Defined.

Example toggle_today_streak_example :
  map (computeStreak exampleZone 4 exampleNoon)
      (habits (handleToggleCompletion "habit-1" "2024-01-10" exampleHome))
  = [Some 0; Some 0]
  /\ map (computeStreak exampleZone 4 exampleNoon)
         (habits (handleToggleCompletion "habit-2" "2024-01-10" exampleHome))
     = [Some 2; Some 1].
Proof. vm_compute. repeat split. Qed.

(** X15. The seed dataset.  Whatever the clock reads, the habits that
    [buildDefaultHabits] makes have distinct ids, reminders and completions
    that are sorted and free of duplicates, and the time of the clock as
    their creation time; the first is completed today and the second is
    not, so that half of the habits are done today; and on a day that
    has a date identifier, as the day before it has, the current streak of
    the first is 1 and that of the second is 0. *)
Theorem seed_habits (tza : Z) (loaded now : Date) :
  storeInvariant (buildDefaultHabits tza loaded now)
  /\ NoDup (map id (buildDefaultHabits tza loaded now))
  /\ map completions (buildDefaultHabits tza loaded now) = [[getDateKey tza now]; []]
  /\ map createdAt (buildDefaultHabits tza loaded now)
     = [toISOString now; toISOString now]
  /\ map reminders (buildDefaultHabits tza loaded now) = [["06:30"]; ["12:00"; "20:00"]]
  /\ todayCompletionRatio tza now (buildDefaultHabits tza loaded now) = 0.5%float
  /\ (keyDay (localDay tza now - 1) -> keyDay (localDay tza now) ->
      forall fuel,
        map (computeStreak tza (S (S fuel)) now) (buildDefaultHabits tza loaded now)
        = [Some 1; Some 0]).
Proof.
  split; [|split; [|split; [|split; [|split; [|split]]]]]; try reflexivity.
  - unfold buildDefaultHabits, DEFAULT_HABITS. cbn [mapIndex Nat.eqb].
    repeat constructor; cbn [reminders completions In]; try (intros []);
      try (vm_compute; reflexivity); intuition discriminate.
  - repeat constructor; cbn [In]; intuition discriminate.
  - unfold todayCompletionRatio, buildDefaultHabits, DEFAULT_HABITS. cbv zeta.
    cbn [mapIndex Nat.eqb List.length filter completions JSArray.includes existsb].
    rewrite String.eqb_refl. cbn [orb List.length]. vm_compute. reflexivity.
  - intros Klo Khi fuel.
    unfold buildDefaultHabits, DEFAULT_HABITS. cbn [mapIndex Nat.eqb map].
    rewrite (proj2 (computeStreak_counts tza now _ (S (S fuel)) 1 ltac:(lia))).
    rewrite (proj2 (computeStreak_counts tza now _ (S (S fuel)) 0 ltac:(lia))).
    + reflexivity.
    + cbn [completions]. split; [intros i Hi; lia|intros []].
    + cbn [completions]. split.
      * intros i Hi. replace i with 0%nat by lia. left.
        change (Z.of_nat 0) with 0. now rewrite daysBefore_0.
      * intros [X|[]]. change (Z.of_nat 1) with 1 in X.
        rewrite getDateKey_daysBefore in X by exact Klo.
        rewrite (getDateKey_dateId tza now Khi) in X.
        apply dateId_inj in X; [lia|exact Khi|exact Klo].
Qed.

(** The key of a moment is a function of its local day. *)
Lemma getDateKey_localDay (tza : Z) (a b : Date) :
  localDay tza a = localDay tza b -> getDateKey tza a = getDateKey tza b.
Proof.
  intros E. unfold getDateKey, getFullYear, getMonth, getDate,
              YearFromTime, MonthFromTime, DateFromTime.
  change (Day (LocalTime tza a)) with (localDay tza a).
  change (Day (LocalTime tza b)) with (localDay tza b).
  now rewrite E.
Qed.

Lemma computeStreakLoop_localDay (tza : Z) (fuel : nat) (s : JSSet.t) :
  forall a b streak,
    localDay tza a = localDay tza b ->
    computeStreakLoop tza fuel s a streak = computeStreakLoop tza fuel s b streak.
Proof.
  induction fuel as [|fuel IH]; intros a b streak E; [reflexivity|].
  rewrite !computeStreakLoop_S, (getDateKey_localDay tza a b E), !setDate_previous.
  destruct (has s (getDateKey tza b)); [|reflexivity].
  apply IH. now rewrite !localDay_previous, E.
Qed.

(** X23. The time of the day does not matter.  Two clock readings on
    the same local day give the same date key, the same last seven days,
    the same current streak of every habit, the same progress of the week
    and the same completion ratio of today. *)
Theorem same_day_same_results (tza : Z) (a b : Date) :
  localDay tza a = localDay tza b ->
  getDateKey tza a = getDateKey tza b
  /\ getLastSevenDays tza a = getLastSevenDays tza b
  /\ (forall fuel habit, computeStreak tza fuel a habit = computeStreak tza fuel b habit)
  /\ (forall habits, weeklyProgress tza a habits = weeklyProgress tza b habits)
  /\ (forall habits, todayCompletionRatio tza a habits = todayCompletionRatio tza b habits).
Proof.
  intros E.
  assert (Week : getLastSevenDays tza a = getLastSevenDays tza b).
  { unfold getLastSevenDays. rewrite !lastDaysLoop_days. f_equal.
    apply map_ext. intros k. apply getDateKey_localDay.
    now rewrite !localDay_daysBefore, E. }
  split; [now apply getDateKey_localDay|]. split; [exact Week|].
  split; [|split].
  - intros fuel habit. unfold computeStreak. now apply computeStreakLoop_localDay.
  - intros habits. unfold weeklyProgress. cbv zeta. now rewrite Week.
  - intros habits. unfold todayCompletionRatio. cbv zeta.
    now rewrite (getDateKey_localDay tza a b E).
Qed.

Lemma same_day_same_results_witness :
  getDateKey exampleZone exampleNoon = getDateKey exampleZone (exampleNoon + msPerHour)
  /\ getLastSevenDays exampleZone exampleNoon
     = getLastSevenDays exampleZone (exampleNoon + msPerHour)
  /\ (forall fuel habit,
         computeStreak exampleZone fuel exampleNoon habit
         = computeStreak exampleZone fuel (exampleNoon + msPerHour) habit)
  /\ (forall habits,
         weeklyProgress exampleZone exampleNoon habits
         = weeklyProgress exampleZone (exampleNoon + msPerHour) habits)
  /\ (forall habits,
         todayCompletionRatio exampleZone exampleNoon habits
         = todayCompletionRatio exampleZone (exampleNoon + msPerHour) habits).
Proof.
  apply (same_day_same_results exampleZone exampleNoon (exampleNoon + msPerHour)).
  vm_compute. reflexivity.
Defined.

End CurrentStreakFacts.

(** ** The longest streak, zone by zone *)

Module ZoneFacts.
Import JSDate JSString DateFacts StringFacts SetFacts StoreFacts StreakFacts OrderFacts
  LongestFacts.

Lemma gapLoop_cons (gap z : Z) (zs : list Z) (st : Z * Z * option Z) :
  gapLoop gap (z :: zs) st = gapLoop gap zs (gapStep gap st z).
Proof. reflexivity. Qed.

Lemma gapLoop_app (gap : Z) (zs ws : list Z) (st : Z * Z * option Z) :
  gapLoop gap (zs ++ ws) st = gapLoop gap ws (gapLoop gap zs st).
Proof. apply fold_left_app. Qed.

Lemma dayLoop_gapLoop (zs : list Z) (st : Z * Z * option Z) :
  dayLoop zs st = gapLoop 1 zs st.
Proof. reflexivity. Qed.

(** The day that the loop expects before the previous one. *)
Lemma localDay_eve (tza p : Z) :
  localDay tza (p * msPerDay - msPerDay) = p - zoneGap tza.
Proof.
  unfold localDay, Day, LocalTime, zoneGap, msPerDay.
  replace (p * 86400000 - 86400000 + tza) with (tza + (p - 1) * 86400000) by lia.
  rewrite Z.div_add by lia. lia.
Qed.

Lemma zoneGap_east (tza : Z) : 0 <= tza < msPerDay -> zoneGap tza = 1.
Proof. intros H. unfold zoneGap. rewrite Z.div_small by exact H. lia. Qed.

Lemma zoneGap_west (tza : Z) : - msPerDay <= tza < 0 -> zoneGap tza = 2.
Proof.
  intros H. unfold zoneGap, msPerDay in *.
  replace (tza / 86400000) with (-1) by (Z.to_euclidean_division_equations; lia). lia.
Qed.

(** One round of the loop on identifiers is one round on day numbers. *)
Lemma longestStep_gap (tza : Z) (st : Z * Z * option Z) (z : Z) :
  keyDay z ->
  (forall p, snd st = Some p -> keyDay (p - zoneGap tza) /\ keyDay p) ->
  longestStep tza (ofDayState st) (dateId z)
  = Some (ofDayState (gapStep (zoneGap tza) st z)).
Proof.
  intros Kz Hp. destruct st as [[l c] [p|]]; unfold longestStep, ofDayState, gapStep;
    cbn [previous longest current option_map]; [|reflexivity].
  destruct (Hp p eq_refl) as [Kp' Kp].
  rewrite dateId_truthy, parse_dateId by exact Kp.
  rewrite setDate_previous.
  rewrite getDateKey_dateId; rewrite localDay_eve; [|exact Kp'].
  replace (dateId z =? dateId (p - zoneGap tza))%string with (z =? p - zoneGap tza);
    [reflexivity|].
  destruct (z =? p - zoneGap tza) eqn:E.
  - apply Z.eqb_eq in E. rewrite <- E. symmetry. apply String.eqb_refl.
  - symmetry. apply String.eqb_neq. intros I. apply dateId_inj in I; auto.
    apply Z.eqb_neq in E. contradiction.
Qed.

Lemma gapStep_previous (gap : Z) (st : Z * Z * option Z) (z : Z) :
  snd (gapStep gap st z) = Some z.
Proof. now destruct st as [[l c] p]. Qed.

Lemma longestLoop_gap (tza : Z) (zs : list Z) :
  forall st,
    Forall (fun z => keyDay (z - zoneGap tza) /\ keyDay z) zs ->
    (forall p, snd st = Some p -> keyDay (p - zoneGap tza) /\ keyDay p) ->
    longestLoop tza (map dateId zs) (ofDayState st)
    = Some (ofDayState (gapLoop (zoneGap tza) zs st)).
Proof.
  induction zs as [|z zs IH]; intros st Hzs Hp; [reflexivity|].
  apply Forall_cons_iff in Hzs. destruct Hzs as [Hz Hzs].
  cbn [map]. rewrite longestLoop_cons, longestStep_gap; [|apply Hz|exact Hp].
  rewrite gapLoop_cons. apply IH; [exact Hzs|].
  intros p E. rewrite gapStep_previous in E. now injection E as <-.
Qed.

Lemma dayIds_days (gap : Z) (l : list string) :
  dayIds gap l ->
  exists zs, l = map dateId zs /\ Forall (fun z => keyDay (z - gap) /\ keyDay z) zs.
Proof.
  induction 1 as [|s l (z & Hz' & Hz & ->) _ (zs & -> & Hzs)].
  - now exists [].
  - exists (z :: zs). split; [reflexivity|]. constructor; [now split|exact Hzs].
Qed.

Lemma decreasing_ids (zs : list Z) :
  Forall keyDay zs ->
  StronglySorted (fun a b => JSString.lt b a) (map dateId zs) -> decreasing zs.
Proof.
  unfold decreasing. induction zs as [|z zs IH]; intros K S; [constructor|].
  apply Forall_cons_iff in K. destruct K as [Kz K].
  cbn [map] in S. apply StronglySorted_inv in S. destruct S as [S F].
  constructor; [now apply IH|].
  rewrite Forall_forall in *. intros b Hb.
  apply dateId_lt_iff; [apply K, Hb|exact Kz|]. apply F. now apply in_map.
Qed.

(** The loop of [getLongestStreak] on the completions of a habit is the
    loop on their days, latest first. *)
Lemma getLongestStreak_days (tza : Z) (habit : Habit) :
  dayIds (zoneGap tza) (completions habit) -> NoDup (completions habit) ->
  exists zs,
    decreasing zs
    /\ Forall keyDay zs
    /\ List.length zs = List.length (completions habit)
    /\ (forall z, keyDay z -> (In z zs <-> In (dateId z) (completions habit)))
    /\ (forall z, In z zs -> In (dateId z) (completions habit))
    /\ getLongestStreak tza habit
       = Some (fst (fst (gapLoop (zoneGap tza) zs (0, 0, None)))).
Proof.
  intros V N.
  assert (Vr : dayIds (zoneGap tza) (rev (JSString.sort (completions habit)))).
  { unfold dayIds in *. rewrite Forall_forall in *. intros s Hs.
    apply V. now apply sort_In, in_rev. }
  destruct (dayIds_days _ _ Vr) as (zs & E & Hzs).
  assert (K : Forall keyDay zs).
  { rewrite Forall_forall in *. intros z Hz. now apply Hzs. }
  assert (M : forall z, In z zs -> In (dateId z) (completions habit)).
  { intros z Hz. apply sort_In, in_rev. rewrite E. now apply in_map. }
  exists zs. split; [|split; [exact K|split; [|split; [|split; [exact M|]]]]].
  - apply decreasing_ids; [exact K|]. rewrite <- E.
    apply StronglySorted_rev. now apply sort_increasing.
  - rewrite <- (length_map dateId zs), <- E, length_rev.
    apply Permutation_length. symmetry. apply NoDup_Permutation.
    + exact N.
    + apply (proj2 (sortedUnique_increasing _)). now apply sort_increasing.
    + intros x. symmetry. apply sort_In.
  - intros z Kz. split; [apply M|].
    intros I. apply sort_In, in_rev in I. rewrite E in I.
    apply in_map_iff in I. destruct I as (z' & Ez & Hz').
    rewrite Forall_forall in K. apply dateId_inj in Ez; [now subst z'|now apply K|exact Kz].
  - pose proof (longestLoop_gap tza zs (0, 0, None) Hzs ltac:(discriminate)) as Loop.
    unfold getLongestStreak. cbv zeta. rewrite E.
    change (mkLongest 0 0 None) with (ofDayState (0, 0, None)). rewrite Loop.
    now destruct (gapLoop (zoneGap tza) zs (0, 0, None)) as [[l c] p].
Qed.

Lemma gapStep_counted (gap : Z) (seen : list Z) (st : Z * Z * option Z) (z : Z) :
  counted gap seen st -> counted gap (seen ++ [z]) (gapStep gap st z).
Proof.
  destruct st as [[l c] p]. unfold counted, gapStep.
  intros (Hc & Hl & Hne & Hrun & Hlong).
  rewrite length_app. cbn [List.length].
  assert (Step : forall c', (c' = 1 \/ (c' = c + 1 /\ exists q, p = Some q /\ z = q - gap)) ->
            0 <= c' <= Z.max l c'
            /\ Z.max l c' <= Z.of_nat (List.length seen + 1)
            /\ (seen ++ [z] <> [] -> 1 <= c' /\ exists z0, Some z = Some z0)
            /\ (forall z0, Some z = Some z0 ->
                  forall i, 0 <= i < c' -> In (z0 + gap * i) (seen ++ [z]))
            /\ (0 < Z.max l c' ->
                exists D, forall i, 0 <= i < Z.max l c' -> In (D - gap * i) (seen ++ [z]))).
  { intros c' Hc'.
    assert (Run : forall i, 0 <= i < c' -> In (z + gap * i) (seen ++ [z])).
    { intros i Hi. apply in_app_iff. destruct (Z.eq_dec i 0) as [->|Ni].
      - right. left. lia.
      - left. destruct Hc' as [->|(-> & q & -> & ->)]; [lia|].
        replace (q - gap + gap * i) with (q + gap * (i - 1)) by lia.
        apply (Hrun q eq_refl). lia. }
    assert (Len : c' <= Z.of_nat (List.length seen + 1)).
    { destruct Hc' as [->|(-> & q & -> & _)]; lia. }
    split; [destruct Hc' as [->|(-> & _)]; lia|].
    split; [lia|].
    split; [intros _; split; [destruct Hc' as [->|(-> & _)]; lia|now exists z]|].
    split; [intros z0 [= <-]; exact Run|].
    intros Hpos. destruct (Z_le_gt_dec c' l) as [Le|Gt].
    - replace (Z.max l c') with l by lia.
      destruct Hlong as (D & HD); [lia|].
      exists D. intros i Hi. apply in_app_iff. left. now apply HD.
    - replace (Z.max l c') with c' by lia.
      exists (z + gap * (c' - 1)). intros i Hi.
      replace (z + gap * (c' - 1) - gap * i) with (z + gap * (c' - 1 - i)) by lia.
      apply Run. lia. }
  destruct p as [q|].
  - destruct (z =? q - gap) eqn:E.
    + apply Z.eqb_eq in E. apply Step. right. split; [reflexivity|]. now exists q.
    + apply Step. now left.
  - apply Step. now left.
Qed.

Lemma gapLoop_counted (gap : Z) (zs : list Z) :
  forall seen st, counted gap seen st -> counted gap (seen ++ zs) (gapLoop gap zs st).
Proof.
  induction zs as [|z zs IH]; intros seen st H.
  - now rewrite app_nil_r.
  - rewrite gapLoop_cons.
    replace (seen ++ z :: zs) with ((seen ++ [z]) ++ zs) by now rewrite <- app_assoc.
    apply IH. now apply gapStep_counted.
Qed.

Lemma counted_start (gap : Z) : counted gap [] (0, 0, None).
Proof.
  unfold counted. split; [lia|]. split; [cbn; lia|]. split; [intros N; contradiction|].
  split; [discriminate|lia].
Qed.

(** X16. The longest streak in the zones at or ahead of UTC.  For a
    habit whose completions are date identifiers without duplicates,
    [getLongestStreak] returns the length of the longest run of
    consecutive completed days: it returns a number from 0 to the number
    of completions, 0 only without completions; there is a run of that
    many consecutive days all completed; and no run of consecutive
    completed days is longer. *)
Theorem longestStreak_east (tza : Z) (habit : Habit) :
  0 <= tza < msPerDay ->
  validIds (completions habit) -> NoDup (completions habit) ->
  exists L,
    getLongestStreak tza habit = Some L
    /\ 0 <= L <= Z.of_nat (List.length (completions habit))
    /\ (L = 0 <-> completions habit = [])
    /\ (exists D, forall i, 0 <= i < L -> In (dateId (D - i)) (completions habit))
    /\ (forall D n,
           (forall i, 0 <= i < n ->
                      keyDay (D - i) /\ In (dateId (D - i)) (completions habit)) ->
           n <= L).
Proof.
  intros east V N.
  assert (V' : dayIds (zoneGap tza) (completions habit)).
  { rewrite zoneGap_east by exact east. unfold validIds, dayIds in *.
    rewrite Forall_forall in *. intros s Hs.
    destruct (V s Hs) as (z & [Kz' Kz] & ->). now exists z. }
  destruct (getLongestStreak_days tza habit V' N) as (zs & D & K & Len & M & M' & E).
  rewrite zoneGap_east in E by exact east.
  pose proof (gapLoop_counted 1 zs [] (0, 0, None) (counted_start 1)) as C.
  cbn [app] in C.
  destruct (gapLoop 1 zs (0, 0, None)) as [[l c] p] eqn:G. cbn [fst] in E.
  unfold counted in C. destruct C as (Hc & Hl & Hne & Hrun & Hlong).
  exists l. split; [exact E|]. split; [lia|]. split; [|split].
  - split.
    + intros ->. destruct (completions habit) as [|s r]; [reflexivity|].
      destruct zs as [|z zs']; [discriminate|].
      destruct Hne as [H1 _]; [discriminate|lia].
    + intros Ec. rewrite Ec in Len. destruct zs; [|discriminate].
      cbn in G. now injection G as <- _ _.
  - destruct (Z_le_gt_dec l 0) as [Le|Gt].
    + exists 0. intros i Hi. lia.
    + destruct Hlong as (D0 & HD); [lia|]. exists D0. intros i Hi.
      apply M'. replace (D0 - i) with (D0 - 1 * i) by lia. now apply HD.
  - intros D0 n Hn. destruct (Z_le_gt_dec n 0) as [Le|Gt]; [lia|].
    pose proof (dayLoop_reach zs 0 0 None D0 (D0 - n + 1) D ltac:(lia) ltac:(lia)) as R.
    rewrite dayLoop_gapLoop, G in R. cbn [fst] in R.
    assert (n <= l); [|lia].
    replace n with (D0 - (D0 - n + 1) + 1) by lia. apply R.
    intros j Hj. destruct (Hn (D0 - j) ltac:(lia)) as [Kj Ij].
    replace (D0 - (D0 - j)) with j in * by lia. now apply M.
Qed.

Lemma longestStreak_east_witness :
  exists L,
    getLongestStreak exampleZoneEast exampleRunner = Some L
    /\ 0 <= L <= Z.of_nat (List.length (completions exampleRunner))
    /\ (L = 0 <-> completions exampleRunner = [])
    /\ (exists D, forall i, 0 <= i < L -> In (dateId (D - i)) (completions exampleRunner))
    /\ (forall D n,
           (forall i, 0 <= i < n ->
                      keyDay (D - i) /\ In (dateId (D - i)) (completions exampleRunner)) ->
           n <= L).
Proof.
  apply (longestStreak_east exampleZoneEast exampleRunner).
  - unfold exampleZoneEast, msPerDay. lia.
  - repeat constructor;
      [exists 19731|exists 19732]; (split; [split; solve_keyDay|reflexivity]).
  - repeat constructor; cbn [In]; intuition discriminate.
Defined.

(** In a zone behind UTC nothing is counted when every two completions
    two days apart have the day between them completed as well. *)
Lemma gapLoop_flat (zs : list Z) :
  forall (all : list Z) (l p : Z),
    1 <= l ->
    decreasing (p :: zs) -> incl (p :: zs) all ->
    (forall z, In z all -> z < p -> In z zs) ->
    (forall z, In z all -> In (z - 2) all -> In (z - 1) all) ->
    fst (fst (gapLoop 2 zs (l, 1, Some p))) = l.
Proof.
  induction zs as [|z zs IH]; intros all l p Hl D I Below Q; [reflexivity|].
  rewrite gapLoop_cons. unfold gapStep.
  apply StronglySorted_inv in D. destruct D as [D F]. rewrite Forall_forall in F.
  pose proof D as D'. apply StronglySorted_inv in D'. destruct D' as [_ Fz].
  rewrite Forall_forall in Fz.
  destruct (z =? p - 2) eqn:E.
  - exfalso. apply Z.eqb_eq in E.
    assert (Ip : In (p - 1) all).
    { apply Q; [apply I; now left|]. rewrite <- E. apply I. right. now left. }
    apply Below in Ip; [|lia]. destruct Ip as [Ip|Ip]; [lia|].
    apply Fz in Ip. lia.
  - rewrite (IH all (Z.max l 1) z); [lia|lia|exact D| | |exact Q].
    + intros x Hx. apply I. now right.
    + intros x Hx Lx. assert (X : In x (z :: zs)) by (apply Below; [exact Hx|];
        specialize (F z (or_introl eq_refl)); lia).
      destruct X as [X|X]; [lia|exact X].
Qed.

(** X17. The longest streak in the zones behind UTC.  In a zone behind
    UTC by a day at most, for a habit whose completions are date
    identifiers without duplicates, [getLongestStreak] returns a number
    from 0 to the number of completions, 0 only without completions, and
    there are that many completed days two days apart from each other; it
    counts completions that are two days apart, and never consecutive
    ones: when every two completed days that are two days apart have the
    day between them completed too, as is the case when the completions are
    a run of consecutive days, it returns 1. *)
Theorem longestStreak_west (tza : Z) (habit : Habit) :
  - msPerDay <= tza < 0 ->
  dayIds 2 (completions habit) -> NoDup (completions habit) ->
  exists L,
    getLongestStreak tza habit = Some L
    /\ 0 <= L <= Z.of_nat (List.length (completions habit))
    /\ (L = 0 <-> completions habit = [])
    /\ (exists D, forall i, 0 <= i < L -> In (dateId (D - 2 * i)) (completions habit))
    /\ ((forall z, keyDay (z - 2) -> keyDay z ->
                   In (dateId z) (completions habit) ->
                   In (dateId (z - 2)) (completions habit) ->
                   In (dateId (z - 1)) (completions habit)) ->
        completions habit <> [] -> L = 1).
Proof.
  intros west V N.
  assert (V' : dayIds (zoneGap tza) (completions habit))
    by now rewrite zoneGap_west.
  destruct (getLongestStreak_days tza habit V' N) as (zs & D & K & Len & M & M' & E).
  rewrite zoneGap_west in E by exact west.
  pose proof (gapLoop_counted 2 zs [] (0, 0, None) (counted_start 2)) as C.
  cbn [app] in C.
  destruct (gapLoop 2 zs (0, 0, None)) as [[l c] p] eqn:G. cbn [fst] in E.
  unfold counted in C. destruct C as (Hc & Hl & Hne & Hrun & Hlong).
  exists l. split; [exact E|]. split; [lia|]. split; [|split].
  - split.
    + intros ->. destruct (completions habit) as [|s r]; [reflexivity|].
      destruct zs as [|z zs']; [discriminate|].
      destruct Hne as [H1 _]; [discriminate|lia].
    + intros Ec. rewrite Ec in Len. destruct zs; [|discriminate].
      cbn in G. now injection G as <- _ _.
  - destruct (Z_le_gt_dec l 0) as [Le|Gt].
    + exists 0. intros i Hi. lia.
    + destruct Hlong as (D0 & HD); [lia|]. exists D0. intros i Hi.
      apply M'. now apply HD.
  - intros Q Ne. destruct zs as [|z zs'].
    { destruct (completions habit); [contradiction|discriminate]. }
    rewrite gapLoop_cons in G. cbn [gapStep] in G.
    pose proof (gapLoop_flat zs' (z :: zs') (Z.max 0 1) z ltac:(lia) D (incl_refl _)) as Fl.
    rewrite G in Fl. cbn [fst] in Fl. rewrite Fl; [lia| |].
    + intros x [<-|Hx] Lx; [lia|exact Hx].
    + intros x Hx Hx2.
      assert (Kx : keyDay x) by (rewrite Forall_forall in K; now apply K).
      assert (Kx2 : keyDay (x - 2)) by (rewrite Forall_forall in K; now apply K).
      apply M; [unfold keyDay in *; lia|].
      apply Q; [exact Kx2|exact Kx|now apply M'|now apply M'].
Qed.

Lemma longestStreak_west_witness :
  exists L,
    getLongestStreak exampleZone exampleRunner = Some L
    /\ 0 <= L <= Z.of_nat (List.length (completions exampleRunner))
    /\ (L = 0 <-> completions exampleRunner = [])
    /\ (exists D, forall i, 0 <= i < L ->
                            In (dateId (D - 2 * i)) (completions exampleRunner))
    /\ ((forall z, keyDay (z - 2) -> keyDay z ->
                   In (dateId z) (completions exampleRunner) ->
                   In (dateId (z - 2)) (completions exampleRunner) ->
                   In (dateId (z - 1)) (completions exampleRunner)) ->
        completions exampleRunner <> [] -> L = 1).
Proof.
  apply (longestStreak_west exampleZone exampleRunner).
  - unfold exampleZone, msPerDay. lia.
  - repeat constructor;
      [exists 19731|exists 19732]; (split; [solve_keyDay|split; [solve_keyDay|reflexivity]]).
  - repeat constructor; cbn [In]; intuition discriminate.
Defined.

Lemma validIds_dayIds (tza : Z) (l : list string) :
  0 <= tza < msPerDay -> validIds l -> dayIds (zoneGap tza) l.
Proof.
  intros east V. rewrite zoneGap_east by exact east. unfold validIds, dayIds in *.
  rewrite Forall_forall in *. intros s Hs.
  destruct (V s Hs) as (z & [Kz' Kz] & ->). now exists z.
Qed.

(** In the zones at or ahead of UTC, more completions never make the
    longest streak shorter. *)
Lemma longest_incl (tza : Z) (habit habit' : Habit) :
  0 <= tza < msPerDay ->
  validIds (completions habit) -> NoDup (completions habit) ->
  validIds (completions habit') -> NoDup (completions habit') ->
  incl (completions habit) (completions habit') ->
  exists L L',
    getLongestStreak tza habit = Some L /\ getLongestStreak tza habit' = Some L'
    /\ L <= L'.
Proof.
  intros east V N V' N' I.
  destruct (getLongestStreak_days tza habit (validIds_dayIds tza _ east V) N)
    as (zs & D & K & _ & _ & M & E).
  destruct (getLongestStreak_days tza habit' (validIds_dayIds tza _ east V') N')
    as (zs' & D' & _ & _ & M' & _ & E').
  rewrite zoneGap_east in E, E' by exact east.
  pose proof (gapLoop_counted 1 zs [] (0, 0, None) (counted_start 1)) as C.
  cbn [app] in C.
  destruct (gapLoop 1 zs (0, 0, None)) as [[l c] p] eqn:G. cbn [fst] in E.
  unfold counted in C. destruct C as (Hc & _ & _ & _ & Hlong).
  exists l, (fst (fst (gapLoop 1 zs' (0, 0, None)))).
  split; [exact E|]. split; [exact E'|].
  destruct (Z_le_gt_dec l 0) as [Le|Gt].
  - pose proof (dayLoop_grows zs' 0 0 None ltac:(lia)) as Gr.
    rewrite dayLoop_gapLoop in Gr. lia.
  - destruct Hlong as (D0 & HD); [lia|].
    pose proof (dayLoop_reach zs' 0 0 None D0 (D0 - l + 1) D' ltac:(lia) ltac:(lia)) as R.
    rewrite dayLoop_gapLoop in R.
    assert (D0 - (D0 - l + 1) + 1 <= fst (fst (gapLoop 1 zs' (0, 0, None)))); [|lia].
    apply R. intros j Hj.
    assert (Hz : In j zs).
    { replace j with (D0 - 1 * (D0 - j)) by lia. apply HD. lia. }
    apply M'; [rewrite Forall_forall in K; now apply K|]. apply I. now apply M.
Qed.

(** X25. Toggling a day and the longest streak, in the zones at or
    ahead of UTC.  For a habit of the collection whose completions are
    date identifiers without duplicates, [handleToggleCompletion] on the
    identifier of a day replaces the habit by one whose longest streak is
    at least what it was when the day was not completed, and at most what
    it was when the day was completed. *)
Theorem toggle_longest_streak (tza : Z) (st : Home) (habit : Habit) (z : Z) :
  0 <= tza < msPerDay ->
  In habit (habits st) ->
  validIds (completions habit) -> NoDup (completions habit) -> streakDay z ->
  exists habit' L L',
    In habit' (habits (handleToggleCompletion (id habit) (dateId z) st))
    /\ id habit' = id habit
    /\ getLongestStreak tza habit = Some L
    /\ getLongestStreak tza habit' = Some L'
    /\ (~ In (dateId z) (completions habit) -> L <= L')
    /\ (In (dateId z) (completions habit) -> L' <= L).
Proof.
  intros east I V N Kz.
  set (habit' := toggleHabit (id habit) (dateId z) habit).
  assert (C' : completions habit' = toggled (completions habit) (dateId z)).
  { unfold habit', toggleHabit. now rewrite String.eqb_refl. }
  assert (V' : validIds (completions habit')).
  { rewrite C'. unfold validIds in *. rewrite Forall_forall in *. intros s Hs.
    apply toggled_In in Hs. destruct Hs as [(_ & Hs & _)|(_ & [Hs| ->])];
      [now apply V|now apply V|now exists z]. }
  assert (N' : NoDup (completions habit')).
  { rewrite C'. apply (proj2 (sortedUnique_increasing _)), toggled_increasing. }
  destruct (in_dec String.string_dec (dateId z) (completions habit)) as [Yes|No].
  - destruct (longest_incl tza habit' habit east V' N' V N) as (L' & L & E' & E & Le).
    { rewrite C'. intros s Hs. apply toggled_In in Hs.
      destruct Hs as [(_ & Hs & _)|(X & _)]; [exact Hs|contradiction]. }
    exists habit', L, L'.
    split; [rewrite handleToggleCompletion_map, habits_withHabits; now apply in_map|].
    split; [unfold habit', toggleHabit; now rewrite String.eqb_refl|].
    split; [exact E|]. split; [exact E'|]. split; [intros X; contradiction|intros _; exact Le].
  - destruct (longest_incl tza habit habit' east V N V' N') as (L & L' & E & E' & Le).
    { rewrite C'. intros s Hs. apply toggled_In. right. split; [exact No|now left]. }
    exists habit', L, L'.
    split; [rewrite handleToggleCompletion_map, habits_withHabits; now apply in_map|].
    split; [unfold habit', toggleHabit; now rewrite String.eqb_refl|].
    split; [exact E|]. split; [exact E'|]. split; [intros _; exact Le|intros X; contradiction].
Qed.

Lemma toggle_longest_streak_witness :
  exists habit' L L',
    In habit' (habits (handleToggleCompletion (id exampleRunner) (dateId 19730)
                         exampleHome))
    /\ id habit' = id exampleRunner
    /\ getLongestStreak exampleZoneEast exampleRunner = Some L
    /\ getLongestStreak exampleZoneEast habit' = Some L'
    /\ (~ In (dateId 19730) (completions exampleRunner) -> L <= L')
    /\ (In (dateId 19730) (completions exampleRunner) -> L' <= L).
Proof.
  apply (toggle_longest_streak exampleZoneEast exampleHome exampleRunner 19730).
  - unfold exampleZoneEast, msPerDay. lia.
  - left. reflexivity.
  - repeat constructor;
      [exists 19731|exists 19732]; (split; [split; solve_keyDay|reflexivity]).
  - repeat constructor; cbn [In]; intuition discriminate.
  - split; solve_keyDay.
Defined.

Example toggle_longest_streak_example :
  map (getLongestStreak exampleZoneEast)
      (habits (handleToggleCompletion "habit-1" "2024-01-08" exampleHome))
  = [Some 3; Some 0]
  /\ map (getLongestStreak exampleZone)
         (habits (handleToggleCompletion "habit-1" "2024-01-08" exampleHome))
     = [Some 1; Some 0]
  /\ map (getLongestStreak exampleZone)
         (habits (handleToggleCompletion "habit-1" "2024-01-07" exampleHome))
     = [Some 2; Some 0].
Proof. vm_compute. repeat split. Qed.

End ZoneFacts.

(** ** What the operations of the store write *)

Module WriteFacts.
Import JSString JSSet StringFacts SetFacts StoreFacts AlertFacts.

Lemma Forall2_map_self {A : Type} (R : A -> A -> Prop) (f : A -> A) (l : list A) :
  (forall a, R a (f a)) -> Forall2 R l (map f l).
Proof. intros H. induction l as [|a l IH]; cbn [map]; constructor; auto. Qed.

Lemma map_same {A : Type} (f : A -> A) (l : list A) :
  (forall a, In a l -> f a = a) -> map f l = l.
Proof.
  induction l as [|a l IH]; intros H; [reflexivity|]. cbn [map].
  rewrite H by now left. f_equal. apply IH. intros b Hb. apply H. now right.
Qed.

Lemma withReminders_same (h : Habit) : withReminders h (reminders h) = h.
Proof. now destruct h. Qed.

(** X18. What a toggle writes.  [handleToggleCompletion] changes nothing
    of the state but the habits, and nothing of a habit but its
    completions; in the habits with the given id the date given is among
    the completions afterwards exactly when it was not before, and every
    other date is among them exactly when it was; the habits with
    another id are as they were. *)
Theorem toggle_flips_membership (habitId dateKey : string) (st : Home) :
  handleToggleCompletion habitId dateKey st
  = withHabits st (habits (handleToggleCompletion habitId dateKey st))
  /\ Forall2 (fun h h' =>
                h' = withCompletions h (completions h')
                /\ if (id h =? habitId)%string
                   then forall d,
                       In d (completions h')
                       <-> (if (d =? dateKey)%string
                            then ~ In dateKey (completions h)
                            else In d (completions h))
                   else h' = h)
             (habits st) (habits (handleToggleCompletion habitId dateKey st)).
Proof.
  split; [reflexivity|].
  rewrite handleToggleCompletion_map, habits_withHabits.
  apply Forall2_map_self. intros h. unfold toggleHabit.
  destruct (id h =? habitId)%string; cbn [negb].
  - split; [reflexivity|]. cbn [completions withCompletions].
    intros d. rewrite toggled_In.
    destruct (d =? dateKey)%string eqn:E.
    + apply String.eqb_eq in E. subst d. split.
      * intros [(_ & _ & N)|(N & _)]; [now contradiction N|exact N].
      * intros N. right. split; [exact N|now right].
    + apply String.eqb_neq in E. split.
      * intros [(_ & I & _)|(_ & [I|I])]; [exact I|exact I|contradiction].
      * intros I. destruct (in_dec String.string_dec dateKey (completions h)) as [X|X].
        -- left. repeat split; assumption.
        -- right. split; [exact X|now left].
  - split; [symmetry; apply withCompletions_same|reflexivity].
Qed.

(** The reminders of the target after [handleAddReminder]. *)
Lemma added_In (r : list string) (time t : string) :
  In t (sort (toArray (ofArray (r ++ [time])))) <-> In t r \/ t = time.
Proof.
  unfold toArray. rewrite sort_In, ofArray_In, in_app_iff. cbn [In]. intuition.
Qed.

Lemma added_increasing (r : list string) (time : string) :
  increasing (sort (toArray (ofArray (r ++ [time])))).
Proof. apply sort_increasing. unfold toArray. apply ofArray_NoDup. Qed.

Lemma handleAddReminder_map (habitId time : string) (st : Home) :
  time <> "" ->
  handleAddReminder habitId time st
  = withHabits st
      (map (fun habit =>
              if negb (id habit =? habitId)%string then habit
              else withReminders habit
                     (sort (toArray (ofArray (reminders habit ++ [time])))))
           (habits st)).
Proof.
  intros N. unfold handleAddReminder, truthy.
  apply String.eqb_neq in N. now rewrite N.
Qed.

(** X19. What the reminder operations write.  [handleAddReminder] with
    an empty time changes nothing; with another time it gives the habits
    with the given id the reminders they had and that time, and doing it
    twice is doing it once; [handleRemoveReminder] gives them the reminders
    they had but that time.  Both leave the other fields and the other
    habits as they were.  On a store with sorted reminders free of
    duplicates, whatever its completions are, removing a time just added,
    that the habits did not have, gives back the state, and so does
    adding again a time just removed, that the habits had. *)
Theorem reminders_add_remove (habitId time : string) (st : Home) :
  handleAddReminder habitId "" st = st
  /\ (time <> "" ->
      Forall2 (fun h h' =>
                 h' = withReminders h (reminders h')
                 /\ if (id h =? habitId)%string
                    then forall t, In t (reminders h') <-> In t (reminders h) \/ t = time
                    else h' = h)
              (habits st) (habits (handleAddReminder habitId time st)))
  /\ Forall2 (fun h h' =>
                h' = withReminders h (reminders h')
                /\ if (id h =? habitId)%string
                   then forall t, In t (reminders h') <-> In t (reminders h) /\ t <> time
                   else h' = h)
             (habits st) (habits (handleRemoveReminder habitId time st))
  /\ handleAddReminder habitId time (handleAddReminder habitId time st)
     = handleAddReminder habitId time st
  /\ (remindersInvariant (habits st) ->
      (forall h, In h (habits st) -> id h = habitId -> ~ In time (reminders h)) ->
      handleRemoveReminder habitId time (handleAddReminder habitId time st) = st)
  /\ (remindersInvariant (habits st) -> time <> "" ->
      (forall h, In h (habits st) -> id h = habitId -> In time (reminders h)) ->
      handleAddReminder habitId time (handleRemoveReminder habitId time st) = st).
Proof.
  split; [reflexivity|]. split; [|split; [|split; [|split]]].
  - intros N. rewrite handleAddReminder_map by exact N. rewrite habits_withHabits.
    apply Forall2_map_self. intros h.
    destruct (id h =? habitId)%string; cbn [negb].
    + split; [reflexivity|]. cbn [reminders withReminders]. intros t. apply added_In.
    + split; [symmetry; apply withReminders_same|reflexivity].
  - unfold handleRemoveReminder. rewrite habits_withHabits.
    apply Forall2_map_self. intros h.
    destruct (id h =? habitId)%string; cbn [negb].
    + split; [reflexivity|]. cbn [reminders withReminders]. intros t.
      rewrite filter_In, negb_true_iff, String.eqb_neq. reflexivity.
    + split; [symmetry; apply withReminders_same|reflexivity].
  - destruct (String.string_dec time "") as [->|N]; [reflexivity|].
    rewrite !handleAddReminder_map by exact N.
    rewrite habits_withHabits, withHabits_twice. f_equal.
    rewrite map_map. apply map_ext. intros h.
    destruct (id h =? habitId)%string eqn:E; cbn [negb]; [|now rewrite E].
    change (id (withReminders h ?r)) with (id h). rewrite E. cbn [negb].
    change (reminders (withReminders h ?r)) with r.
    change (withReminders (withReminders h ?a) ?b) with (withReminders h b).
    f_equal.
    apply increasing_ext; [apply added_increasing|apply added_increasing|].
    intros t. rewrite !added_In. intuition.
  - intros Inv Fresh.
    assert (R : forall h, In h (habits st) ->
              (if negb (id h =? habitId)%string then h
               else withReminders h
                      (filter (fun rem => negb (rem =? time)%string)
                         (sort (toArray (ofArray (reminders h ++ [time])))))) = h).
    { intros h Hh. destruct (id h =? habitId)%string eqn:E; cbn [negb]; [|reflexivity].
      apply String.eqb_eq in E.
      replace (filter _ _) with (reminders h); [apply withReminders_same|].
      unfold remindersInvariant in Inv. rewrite Forall_forall in Inv.
      pose proof (Inv h Hh) as Hr. apply sortedUnique_increasing in Hr.
      apply increasing_ext; [exact Hr|apply filter_increasing, added_increasing|].
      intros t. rewrite filter_In, added_In, negb_true_iff, String.eqb_neq.
      split; [|intuition]. intros I. split; [now left|].
      intros ->. now apply (Fresh h Hh E). }
    destruct (String.string_dec time "") as [->|N].
    + change (handleAddReminder habitId "" st) with st.
      unfold handleRemoveReminder.
      transitivity (withHabits st (habits st)); [|apply withHabits_same]. f_equal.
      apply map_same. intros h Hh.
      destruct (id h =? habitId)%string eqn:E; cbn [negb]; [|reflexivity].
      apply String.eqb_eq in E.
      rewrite filter_all; [apply withReminders_same|].
      intros t Ht. apply negb_true_iff, String.eqb_neq. intros ->.
      now apply (Fresh h Hh E).
    + rewrite handleAddReminder_map by exact N. unfold handleRemoveReminder.
      rewrite habits_withHabits, withHabits_twice.
      transitivity (withHabits st (habits st)); [|apply withHabits_same]. f_equal.
      rewrite map_map. apply map_same. intros h Hh. pose proof (R h Hh) as Rh.
      destruct (id h =? habitId)%string eqn:E; cbn [negb] in *; [|now rewrite E].
      change (id (withReminders h ?r)) with (id h). rewrite E. cbn [negb].
      change (reminders (withReminders h ?r)) with r.
      change (withReminders (withReminders h ?a) ?b) with (withReminders h b).
      exact Rh.
  - intros Inv N Had. rewrite handleAddReminder_map by exact N.
    unfold handleRemoveReminder. rewrite habits_withHabits, withHabits_twice.
    transitivity (withHabits st (habits st)); [|apply withHabits_same]. f_equal.
    rewrite map_map. apply map_same. intros h Hh.
    destruct (id h =? habitId)%string eqn:E; cbn [negb]; [|now rewrite E].
    change (id (withReminders h ?r)) with (id h). rewrite E. cbn [negb].
    change (reminders (withReminders h ?r)) with r.
    change (withReminders (withReminders h ?a) ?b) with (withReminders h b).
    apply String.eqb_eq in E.
    replace (sort _) with (reminders h); [apply withReminders_same|].
    unfold remindersInvariant in Inv. rewrite Forall_forall in Inv.
    pose proof (Inv h Hh) as Hr. apply sortedUnique_increasing in Hr.
    apply increasing_ext; [exact Hr|apply added_increasing|].
    intros t. rewrite added_In, filter_In, negb_true_iff, String.eqb_neq.
    split.
    + intros I. destruct (String.string_dec t time) as [->|Nt]; [now right|now left].
    + intros [[I _]| ->]; [exact I|now apply (Had h Hh E)].
Qed.

(** X20. The rest of what [handleAddHabit] writes.  On a draft whose
    name is not blank, the new habit has one of the six gradients as its
    color, the one at the index drawn when that index is below six, and
    its creation time is the clock reading.  The new habit becomes the
    selected one, the name, the goal and the reminder time of the draft
    are reset, and the emoji of the draft and the alerts stay.  The new
    habit starts with a current streak and a longest streak of 0. *)
Theorem addHabit_form (tza : Z) (uuid : string) (pick : nat) (now : JSDate.Date)
    (st : Home) :
  blank (formName st) = false ->
  exists habit,
    handleAddHabit uuid pick now st
    = mkHome (habit :: habits st) (Some uuid) "" (formEmoji st) 5%float "" (alerts st)
    /\ In (color habit) GRADIENTS
    /\ ((pick < 6)%nat -> nth_error GRADIENTS pick = Some (color habit))
    /\ createdAt habit = JSDate.toISOString now
    /\ (forall fuel later, computeStreak tza (S fuel) later habit = Some 0)
    /\ getLongestStreak tza habit = Some 0.
Proof.
  intros B. unfold handleAddHabit. rewrite truthy_trim, B. cbn [negb].
  eexists. split; [reflexivity|]. cbn [color createdAt].
  split; [|split; [|split; [reflexivity|split; [|reflexivity]]]].
  - destruct (nth_error GRADIENTS pick) as [c|] eqn:E.
    + now apply nth_error_In in E.
    + now left.
  - intros Hp. destruct (nth_error GRADIENTS pick) as [c|] eqn:E; [reflexivity|].
    apply nth_error_None in E. cbn [GRADIENTS List.length] in E. lia.
  - intros fuel later. unfold computeStreak. cbn [completions].
    now rewrite StreakFacts.computeStreakLoop_S.
Qed.

Lemma addHabit_form_witness :
  exists habit,
    handleAddHabit "uuid-1" 2 0 exampleHome
    = mkHome (habit :: habits exampleHome) (Some "uuid-1") "" (formEmoji exampleHome)
             5%float "" (alerts exampleHome)
    /\ In (color habit) GRADIENTS
    /\ ((2 < 6)%nat -> nth_error GRADIENTS 2 = Some (color habit))
    /\ createdAt habit = JSDate.toISOString 0
    /\ (forall fuel later, computeStreak exampleZone (S fuel) later habit = Some 0)
    /\ getLongestStreak exampleZone habit = Some 0.
Proof.
  apply (addHabit_form exampleZone "uuid-1" 2 0 exampleHome). reflexivity.
Defined.

(** X21. Deleting a habit.  After [handleDeleteHabit] no habit has the
    given id; deleting twice is deleting once; deleting an id that no
    habit has changes nothing of the habits; and deleting the habit that
    [handleAddHabit] just added, under an id that no other habit has,
    gives back the habits. *)
Theorem deleteHabit_spec (habitId : string) (st : Home) :
  ~ In habitId (map id (habits (handleDeleteHabit habitId st)))
  /\ handleDeleteHabit habitId (handleDeleteHabit habitId st) = handleDeleteHabit habitId st
  /\ (~ In habitId (map id (habits st)) ->
      habits (handleDeleteHabit habitId st) = habits st)
  /\ (forall pick now,
         ~ In habitId (map id (habits st)) ->
         habits (handleDeleteHabit habitId (handleAddHabit habitId pick now st))
         = habits st).
Proof.
  assert (Fresh : forall l, ~ In habitId (map id l) ->
            filter (fun habit => negb (id habit =? habitId)%string) l = l).
  { intros l N. apply filter_all. intros h Hh.
    apply negb_true_iff, String.eqb_neq. intros E. apply N. rewrite <- E. now apply in_map. }
  split; [|split; [|split]].
  - unfold handleDeleteHabit. cbn [habits]. intros I.
    apply in_map_iff in I. destruct I as (h & E & Hh).
    apply filter_In in Hh. destruct Hh as [_ Hh].
    apply negb_true_iff, String.eqb_neq in Hh. contradiction.
  - unfold handleDeleteHabit.
    cbn [habits selectedHabitId formName formEmoji formGoalPerWeek formReminderTime alerts].
    rewrite filter_twice. f_equal.
    destruct (selectedHabitId st) as [sel|]; [|reflexivity].
    destruct (sel =? habitId)%string eqn:E; [reflexivity|now rewrite E].
  - intros N. unfold handleDeleteHabit. cbn [habits]. now apply Fresh.
  - intros pick now N. unfold handleAddHabit.
    destruct (negb (truthy (trim (formName st)))).
    + unfold handleDeleteHabit. cbn [habits]. now apply Fresh.
    + unfold handleDeleteHabit. cbn [habits filter id].
      rewrite String.eqb_refl. cbn [negb]. now apply Fresh.
Qed.

Lemma toggled_commute (c : list string) (a b : string) :
  toggled (toggled c a) b = toggled (toggled c b) a.
Proof.
  apply increasing_ext; [apply toggled_increasing|apply toggled_increasing|].
  intros y. rewrite <- !ProgressFacts.includes_In, !ProgressFacts.includes_toggled.
  destruct (String.eqb_spec y a) as [Ea|Na], (String.eqb_spec y b) as [Eb|Nb].
  - subst a b. reflexivity.
  - subst a. apply String.eqb_neq in Nb. now rewrite Nb.
  - subst b. apply String.eqb_neq in Na. now rewrite Na.
  - reflexivity.
Qed.

(** X24. Toggles can be made in any order: two calls of
    [handleToggleCompletion], on the same habit or on two habits, for the
    same date or for two dates, give the same state in either order. *)
Theorem toggles_commute (id1 date1 id2 date2 : string) (st : Home) :
  handleToggleCompletion id1 date1 (handleToggleCompletion id2 date2 st)
  = handleToggleCompletion id2 date2 (handleToggleCompletion id1 date1 st).
Proof.
  rewrite !handleToggleCompletion_map, !habits_withHabits, !withHabits_twice. f_equal.
  rewrite !map_map. apply map_ext. intros h. unfold toggleHabit.
  destruct (id h =? id1)%string eqn:E1, (id h =? id2)%string eqn:E2; cbn [negb];
    change (id (withCompletions h ?c)) with (id h); rewrite ?E1, ?E2; cbn [negb];
    try reflexivity.
  change (completions (withCompletions h ?c)) with c.
  change (withCompletions (withCompletions h ?x) ?y) with (withCompletions h y).
  f_equal. apply toggled_commute.
Qed.

End WriteFacts.

(** ** Date keys outside the years 0100 to 9999 *)

Module RangeFacts.
Import JSDate CalendarFacts DateFacts StreakFacts.

Lemma slice_expanded (sign : ascii) (a b rest : string) :
  String.length a = 6%nat -> String.length b = 2%nat ->
  JSString.slice0 10 (String sign a ++ "-" ++ b ++ rest)%string
  = (String sign a ++ "-" ++ b)%string.
Proof.
  destruct a as [|a1 [|a2 [|a3 [|a4 [|a5 [|a6 [|? ?]]]]]]]; try discriminate.
  destruct b as [|b1 [|b2 [|? ?]]]; try discriminate.
  intros _ _. cbn. destruct rest; reflexivity.
Qed.

(** The day that [getDateKey] hands to [toISOString]. *)
Lemma getDateKey_day (tza : Z) (d : Date) :
  getDateKey tza d
  = JSString.slice0 10
      (toISOString
         (MakeDate
            (if (0 <=? getFullYear tza d) && (getFullYear tza d <=? 99)
             then DaysFromCivil (1900 + getFullYear tza d) (getMonth tza d + 1)
                                (getDate tza d)
             else localDay tza d) 0)).
Proof.
  unfold getDateKey, UTC_ymd.
  destruct ((0 <=? getFullYear tza d) && (getFullYear tza d <=? 99)) eqn:E.
  - do 2 f_equal. unfold MakeDay, getMonth, MonthFromTime.
    pose proof (CivilFromDays_valid (Day (LocalTime tza d))) as Hv.
    destruct (CivilFromDays (Day (LocalTime tza d))) as [[y m] dd]. cbn [fst snd] in *.
    destruct Hv as [Hm _].
    rewrite Z.div_small, Z.mod_small by lia.
    rewrite (DaysFromCivil_day _ (m - 1 + 1) (getDate tza d)).
    now replace (1900 + getFullYear tza d + 0) with (1900 + getFullYear tza d) by lia.
  - do 2 f_equal. unfold getFullYear, getMonth, getDate.
    rewrite MakeDay_civil. fold (localDay tza d). f_equal. lia.
Qed.

Lemma twentieth_century (y m dd : Z) :
  0 <= y <= 99 -> 1 <= m <= 12 -> 1 <= dd <= 31 ->
  keyDay (DaysFromCivil (1900 + y) m dd).
Proof.
  intros Hy Hm Hd. unfold keyDay.
  let a := eval vm_compute in firstKeyDay in change firstKeyDay with a.
  let b := eval vm_compute in lastKeyDay in change lastKeyDay with b.
  unfold DaysFromCivil, dayOfEra, daysPerEra, epochShift.
  destruct (m <=? 2); Z.to_euclidean_division_equations; lia.
Qed.

(** X22. Date keys outside the years 0100 to 9999.  Take a clock that
    is a time value of a [Date] and whose local day, at midnight UTC, is
    one too, so that [getDateKey] returns and does not throw.  In the
    local years 0 to 99, [getDateKey] returns the date identifier of the
    same month and day of the year 1900 + y, since [Date.UTC] reads such a
    year as one of the twentieth century; and in a year after 9999 or
    before 0 it returns the sign, the six digits of the year and the two
    digits of the month, the same key for every day of the month, since
    [toISOString] writes such a year with a sign and six digits and the
    key is its first ten characters. *)
Theorem getDateKey_outside_range (tza : Z) (d : Date) :
  timeValue d -> timeValue (localDay tza d * msPerDay) ->
  (0 <= getFullYear tza d <= 99 ->
   keyDay (DaysFromCivil (1900 + getFullYear tza d) (getMonth tza d + 1) (getDate tza d))
   /\ getDateKey tza d
      = dateId (DaysFromCivil (1900 + getFullYear tza d) (getMonth tza d + 1)
                              (getDate tza d)))
  /\ (9999 < getFullYear tza d ->
      getDateKey tza d
      = ("+" ++ pad 6 (getFullYear tza d) ++ "-" ++ pad 2 (getMonth tza d + 1))%string)
  /\ (getFullYear tza d < 0 ->
      getDateKey tza d
      = ("-" ++ pad 6 (- getFullYear tza d) ++ "-" ++ pad 2 (getMonth tza d + 1))%string).
Proof.
  intros _ _. rewrite getDateKey_day.
  pose proof (CivilFromDays_valid (localDay tza d)) as Hv.
  assert (Civil : CivilFromDays (localDay tza d)
                  = (getFullYear tza d, getMonth tza d + 1, getDate tza d)).
  { unfold getFullYear, getMonth, getDate, YearFromTime, MonthFromTime, DateFromTime.
    fold (localDay tza d). destruct (CivilFromDays (localDay tza d)) as [[y m] dd].
    cbn [fst snd]. f_equal. f_equal. lia. }
  rewrite Civil in Hv. destruct Hv as [Hm Hd].
  assert (Hd31 : getDate tza d <= 31)
    by (unfold DaysInMonth in Hd;
        repeat match type of Hd with context [if ?b then _ else _] => destruct b end; lia).
  split; [|split].
  - intros Hy.
    pose proof (twentieth_century (getFullYear tza d) (getMonth tza d + 1) (getDate tza d)
                  Hy Hm ltac:(lia)) as K.
    split; [exact K|].
    replace ((0 <=? getFullYear tza d) && (getFullYear tza d <=? 99)) with true
      by (symmetry; apply andb_true_iff; split; apply Z.leb_le; lia).
    set (z := DaysFromCivil _ _ _) in *.
    pose proof (keyDay_year z K) as Yz.
    unfold toISOString, YearFromTime, MonthFromTime, DateFromTime.
    rewrite Day_MakeDate. unfold dateId.
    destruct (CivilFromDays z) as [[y m] dd]. cbn [fst snd] in *.
    unfold isoYear.
    replace ((0 <=? y) && (y <=? 9999)) with true
      by (symmetry; apply andb_true_iff; split; apply Z.leb_le; lia).
    replace (m - 1 + 1) with m by lia.
    apply slice_date; apply pad_length.
  - intros Hy.
    replace ((0 <=? getFullYear tza d) && (getFullYear tza d <=? 99)) with false
      by (symmetry; apply andb_false_iff; right; apply Z.leb_gt; lia).
    unfold toISOString, YearFromTime, MonthFromTime, DateFromTime.
    rewrite Day_MakeDate, Civil. cbn [fst snd]. unfold isoYear.
    replace ((0 <=? getFullYear tza d) && (getFullYear tza d <=? 9999)) with false
      by (symmetry; apply andb_false_iff; right; apply Z.leb_gt; lia).
    replace (getFullYear tza d <? 0) with false by (symmetry; apply Z.ltb_ge; lia).
    rewrite Z.abs_eq by lia.
    replace (getMonth tza d + 1 - 1 + 1) with (getMonth tza d + 1) by lia.
    apply slice_expanded; apply pad_length.
  - intros Hy.
    replace ((0 <=? getFullYear tza d) && (getFullYear tza d <=? 99)) with false
      by (symmetry; apply andb_false_iff; left; apply Z.leb_gt; lia).
    unfold toISOString, YearFromTime, MonthFromTime, DateFromTime.
    rewrite Day_MakeDate, Civil. cbn [fst snd]. unfold isoYear.
    replace ((0 <=? getFullYear tza d) && (getFullYear tza d <=? 9999)) with false
      by (symmetry; apply andb_false_iff; left; apply Z.leb_gt; lia).
    replace (getFullYear tza d <? 0) with true by (symmetry; apply Z.ltb_lt; lia).
    rewrite Z.abs_neq by lia.
    replace (getMonth tza d + 1 - 1 + 1) with (getMonth tza d + 1) by lia.
    apply slice_expanded; apply pad_length.
Qed.

Lemma getDateKey_outside_range_witness :
  let d := atLocal exampleZone (DaysFromCivil 10000 1 3) 12 0 0 in
  (0 <= getFullYear exampleZone d <= 99 ->
   keyDay (DaysFromCivil (1900 + getFullYear exampleZone d) (getMonth exampleZone d + 1)
                         (getDate exampleZone d))
   /\ getDateKey exampleZone d
      = dateId (DaysFromCivil (1900 + getFullYear exampleZone d)
                              (getMonth exampleZone d + 1) (getDate exampleZone d)))
  /\ (9999 < getFullYear exampleZone d ->
      getDateKey exampleZone d
      = ("+" ++ pad 6 (getFullYear exampleZone d) ++ "-"
         ++ pad 2 (getMonth exampleZone d + 1))%string)
  /\ (getFullYear exampleZone d < 0 ->
      getDateKey exampleZone d
      = ("-" ++ pad 6 (- getFullYear exampleZone d) ++ "-"
         ++ pad 2 (getMonth exampleZone d + 1))%string).
Proof.
  apply (getDateKey_outside_range exampleZone
           (atLocal exampleZone (DaysFromCivil 10000 1 3) 12 0 0)).
  - vm_compute. split; discriminate.
  - vm_compute. split; discriminate.
Defined.

(** C9, past the year 9999.  At local noon of the third of January of
    the year 10000, five hours behind UTC, [getLastSevenDays] returns the
    identifiers of the last four days of 9999 and then three times the
    same key, that of the month: the identifiers are not pairwise
    distinct, and the last three do not differ by a day. *)
Theorem getLastSevenDays_repeats_past_9999 :
  timeValue (atLocal exampleZone (DaysFromCivil 10000 1 3) 12 0 0)
  /\ getLastSevenDays exampleZone (atLocal exampleZone (DaysFromCivil 10000 1 3) 12 0 0)
     = ["9999-12-28"; "9999-12-29"; "9999-12-30"; "9999-12-31";
        "+010000-01"; "+010000-01"; "+010000-01"].
Proof. split; [vm_compute; split; discriminate|vm_compute; reflexivity]. Qed.

Example getDateKey_outside_range_example :
  getDateKey 0 (MakeDate (DaysFromCivil 50 2 14) 0) = "1950-02-14"
  /\ getDateKey 0 (MakeDate (DaysFromCivil 0 2 29) 0) = "1900-03-01"
  /\ getDateKey 0 (MakeDate (DaysFromCivil 10000 1 10) 0) = "+010000-01"
  /\ getDateKey 0 (MakeDate (DaysFromCivil (-1) 12 31) 0) = "-000001-12"
  /\ getLastSevenDays 0 (MakeDate (DaysFromCivil 10000 1 10) 0)
     = ["+010000-01"; "+010000-01"; "+010000-01"; "+010000-01"; "+010000-01";
        "+010000-01"; "+010000-01"].
Proof. vm_compute. repeat split. Qed.

End RangeFacts.

(** ** Integers as binary64 numbers *)

Module IntegerFacts.

Lemma scaled_succ (p : positive) (j : Z) : 0 <= j -> scaled p (j + 1) = xO (scaled p j).
Proof.
  intros H. destruct j as [|k|k]; [reflexivity| |lia].
  unfold scaled. replace (Z.pos k + 1) with (Z.pos (Pos.succ k)) by lia.
  apply Pos.iter_succ.
Qed.

Lemma scaled_value (p : positive) (j : Z) :
  0 <= j -> Zpos (scaled p j) = Zpos p * 2 ^ j.
Proof.
  intros H. pattern j. apply natlike_ind; [cbn; lia| |exact H].
  intros x Hx IH. rewrite <- Z.add_1_r, scaled_succ by exact Hx.
  rewrite Pos2Z.inj_xO, IH, Z.pow_add_r by lia. lia.
Qed.

Lemma scaled_digits (p : positive) (j : Z) :
  0 <= j -> Zpos (digits2_pos (scaled p j)) = Zpos (digits2_pos p) + j.
Proof.
  intros H. pattern j. apply natlike_ind; [cbn; lia| |exact H].
  intros x Hx IH. rewrite <- Z.add_1_r, scaled_succ by exact Hx.
  cbn [digits2_pos]. rewrite Pos2Z.inj_succ, IH. lia.
Qed.

Lemma digits_bounds (p : positive) :
  2 ^ (Zpos (digits2_pos p) - 1) <= Zpos p < 2 ^ Zpos (digits2_pos p).
Proof.
  induction p as [p IH|p IH|]; cbn [digits2_pos]; [| |cbn; lia].
  - rewrite Pos2Z.inj_succ. change (Z.pos p~1) with (2 * Z.pos p + 1).
    replace (Z.succ (Z.pos (digits2_pos p)) - 1) with (Z.pos (digits2_pos p) - 1 + 1) by lia.
    rewrite Z.pow_add_r by lia. rewrite Z.pow_succ_r by lia. change (2 ^ 1) with 2.
    set (a := 2 ^ (Z.pos (digits2_pos p) - 1)) in *.
    set (b := 2 ^ Z.pos (digits2_pos p)) in *. lia.
  - rewrite Pos2Z.inj_succ. change (Z.pos p~0) with (2 * Z.pos p).
    replace (Z.succ (Z.pos (digits2_pos p)) - 1) with (Z.pos (digits2_pos p) - 1 + 1) by lia.
    rewrite Z.pow_add_r by lia. rewrite Z.pow_succ_r by lia. change (2 ^ 1) with 2.
    set (a := 2 ^ (Z.pos (digits2_pos p) - 1)) in *.
    set (b := 2 ^ Z.pos (digits2_pos p)) in *. lia.
Qed.

Lemma iter_pos_comm {A : Type} (f : A -> A) (p : positive) (x : A) :
  iter_pos f p (f x) = f (iter_pos f p x).
Proof.
  revert x. induction p as [p IH|p IH|]; intros x; cbn [iter_pos];
    [now rewrite !IH|now rewrite !IH|reflexivity].
Qed.

Lemma iter_pos_succ {A : Type} (f : A -> A) (p : positive) (x : A) :
  iter_pos f (Pos.succ p) x = iter_pos f p (f x).
Proof.
  revert x. induction p as [p IH|p IH|]; intros x; cbn [iter_pos Pos.succ].
  - rewrite !IH. now rewrite !iter_pos_comm.
  - now rewrite !iter_pos_comm.
  - reflexivity.
Qed.

(** A rounding is that of the mantissa without its last bit, when that bit
    is zero, one exponent up. *)
Lemma round_double (sx : bool) (m : positive) (e : Z) :
  binary_round prec emax sx (xO m) (e - 1) = binary_round prec emax sx m e.
Proof.
  unfold binary_round. cbn [digits2_pos]. rewrite Pos2Z.inj_succ.
  replace (Z.succ (Z.pos (digits2_pos m)) + (e - 1)) with (Z.pos (digits2_pos m) + e) by lia.
  set (t := fexp prec emax (Z.pos (digits2_pos m) + e)).
  unfold shl_align.
  destruct (t - e) as [|k|k] eqn:E.
  - replace (t - (e - 1)) with 1 by lia.
    unfold binary_round_aux, shr_fexp. cbn [Zdigits2 digits2_pos].
    rewrite Pos2Z.inj_succ.
    replace (Z.succ (Z.pos (digits2_pos m)) + (e - 1)) with (Z.pos (digits2_pos m) + e)
      by lia.
    fold t. rewrite E. replace (t - (e - 1)) with 1 by lia.
    cbn [shr shr_record_of_loc iter_pos shr_1 orb].
    now replace (e - 1 + 1) with e by lia.
  - replace (t - (e - 1)) with (Z.pos (Pos.succ k)) by lia.
    unfold binary_round_aux, shr_fexp. cbn [Zdigits2 digits2_pos].
    rewrite Pos2Z.inj_succ.
    replace (Z.succ (Z.pos (digits2_pos m)) + (e - 1)) with (Z.pos (digits2_pos m) + e)
      by lia.
    fold t. rewrite E. replace (t - (e - 1)) with (Z.pos (Pos.succ k)) by lia.
    cbn [shr shr_record_of_loc]. rewrite iter_pos_succ. cbn [shr_1 orb].
    now replace (e - 1 + Z.pos (Pos.succ k)) with (e + Z.pos k) by lia.
  - destruct (Pos.eq_dec k 1) as [->|N].
    + replace (t - (e - 1)) with 0 by lia. cbn [Pos.iter].
      now replace (e - 1) with t by lia.
    + replace (t - (e - 1)) with (Z.neg (Pos.pred k)) by lia.
      replace (Pos.iter xO (xO m) (Pos.pred k)) with (Pos.iter xO m k); [reflexivity|].
      rewrite <- (Pos.succ_pred k N) at 1. rewrite Pos.iter_succ_r. reflexivity.
Qed.

Lemma round_scaled (sx : bool) (p : positive) (e j : Z) :
  0 <= j -> binary_round prec emax sx (scaled p j) (e - j) = binary_round prec emax sx p e.
Proof.
  intros H. pattern j. apply natlike_ind; [|intros x Hx IH|exact H].
  - now rewrite Z.sub_0_r.
  - rewrite <- Z.add_1_r, scaled_succ by exact Hx.
    replace (e - (x + 1)) with (e - x - 1) by lia. now rewrite round_double.
Qed.

(** A mantissa of 53 bits is not rounded. *)
Lemma round_canonical (sx : bool) (m : positive) (e : Z) :
  Zpos (digits2_pos m) = 53 -> -1074 <= e <= 971 ->
  binary_round prec emax sx m e = S754_finite sx m e.
Proof.
  intros D He.
  assert (F : fexp prec emax (53 + e) = e) by (unfold fexp, emin, prec, emax; lia).
  unfold binary_round. rewrite D, F. unfold shl_align. rewrite Z.sub_diag.
  unfold binary_round_aux, shr_fexp. cbn [Zdigits2]. rewrite D, F, Z.sub_diag.
  cbn [shr shr_record_of_loc shr_m loc_of_shr_record round_nearest_even Zdigits2].
  rewrite D, F, Z.sub_diag. cbn [shr shr_m].
  replace (e <=? emax - prec) with true; [reflexivity|].
  symmetry. apply Z.leb_le. unfold emax, prec. lia.
Qed.

Lemma digits_53 (p : positive) : Zpos p < 2 ^ 53 -> Zpos (digits2_pos p) <= 53.
Proof.
  intros H. pose proof (digits_bounds p) as [Lo _].
  destruct (Z_le_gt_dec (Zpos (digits2_pos p)) 53) as [L|G]; [exact L|exfalso].
  assert (2 ^ 53 <= 2 ^ (Zpos (digits2_pos p) - 1)) by (apply Z.pow_le_mono_r; lia).
  lia.
Qed.

(** The rounding of an integer below 2^53 is the integer. *)
Lemma round_integer (sx : bool) (p : positive) :
  Zpos p < 2 ^ 53 ->
  binary_round prec emax sx p 0
  = S754_finite sx (scaled p (53 - Zpos (digits2_pos p))) (Zpos (digits2_pos p) - 53).
Proof.
  intros H. pose proof (digits_53 p H) as D.
  rewrite <- (round_scaled sx p 0 (53 - Zpos (digits2_pos p))) by lia.
  replace (0 - (53 - Z.pos (digits2_pos p))) with (Z.pos (digits2_pos p) - 53) by lia.
  apply round_canonical; [rewrite scaled_digits by lia; lia|lia].
Qed.

Lemma normalize_integer (z : Z) :
  Z.abs z < 2 ^ 53 -> binary_normalize prec emax z 0 false = integerFloat z.
Proof.
  intros H. destruct z as [|p|p]; [reflexivity| |]; cbn [binary_normalize integerFloat];
    apply round_integer; lia.
Qed.

Lemma scaled_bounded (p : positive) :
  Zpos p < 2 ^ 53 ->
  bounded prec emax (scaled p (53 - Zpos (digits2_pos p))) (Zpos (digits2_pos p) - 53)
  = true.
Proof.
  intros H. pose proof (digits_53 p H) as D.
  unfold bounded, canonical_mantissa. rewrite scaled_digits by lia.
  apply andb_true_iff. split.
  - apply Z.eqb_eq. unfold fexp, emin, prec, emax. lia.
  - apply Z.leb_le. unfold prec, emax. lia.
Qed.

Lemma integerFloat_valid (z : Z) :
  Z.abs z < 2 ^ 53 -> valid_binary (integerFloat z) = true.
Proof.
  intros H. destruct z as [|p|p]; [reflexivity| |];
    unfold valid_binary; cbn [integerFloat SpecFloat.valid_binary];
    apply scaled_bounded; lia.
Qed.

(** The binary64 number of an integer below 2^53. *)
Lemma ofZ_integer (z : Z) :
  Z.abs z < 2 ^ 53 -> Prim2SF (JSNumber.ofZ z) = integerFloat z.
Proof.
  intros H. unfold JSNumber.ofZ. rewrite normalize_integer by exact H.
  apply Prim2SF_SF2Prim. now apply integerFloat_valid.
Qed.

Lemma normalize_scaled (z J : Z) :
  0 <= J ->
  binary_normalize prec emax (z * 2 ^ J) (- J) false = binary_normalize prec emax z 0 false.
Proof.
  intros H. destruct z as [|p|p]; [reflexivity| |].
  - rewrite <- scaled_value by exact H. cbn [binary_normalize].
    now rewrite <- (round_scaled false p 0 J H).
  - replace (Z.neg p * 2 ^ J) with (- (Z.pos p * 2 ^ J)) by lia.
    rewrite <- scaled_value by exact H. cbn [Z.opp binary_normalize].
    now rewrite <- (round_scaled true p 0 J H).
Qed.

Lemma shl_align_value (m : positive) (e ez : Z) :
  ez <= e -> Zpos (fst (shl_align m e ez)) = Zpos m * 2 ^ (e - ez).
Proof.
  intros H. unfold shl_align. destruct (ez - e) as [|k|k] eqn:E; [|lia|].
  - cbn [fst]. replace (e - ez) with 0 by lia. cbn. lia.
  - cbn [fst]. replace (e - ez) with (Zpos k) by lia.
    change (Pos.iter xO m k) with (scaled m (Zpos k)). apply scaled_value. lia.
Qed.

(** The mantissa of an integer, aligned at an exponent below its own. *)
Lemma aligned_integer (p : positive) (ez : Z) :
  Zpos p < 2 ^ 53 -> ez <= Zpos (digits2_pos p) - 53 ->
  Zpos (fst (shl_align (scaled p (53 - Zpos (digits2_pos p)))
                       (Zpos (digits2_pos p) - 53) ez))
  = Zpos p * 2 ^ (- ez).
Proof.
  intros H He. pose proof (digits_53 p H) as D.
  rewrite shl_align_value by exact He. rewrite scaled_value by lia.
  rewrite <- Z.mul_assoc, <- Z.pow_add_r by lia. f_equal. f_equal. lia.
Qed.

(** The difference of two integers below 2^53 is computed exactly. *)
Lemma sub_integers (a b : Z) :
  0 <= a < 2 ^ 53 -> 0 <= b < 2 ^ 53 ->
  (JSNumber.ofZ a - JSNumber.ofZ b)%float = JSNumber.ofZ (a - b).
Proof.
  intros Ha Hb. apply Prim2SF_inj.
  rewrite sub_spec, !ofZ_integer by lia.
  destruct a as [|p|p]; [| |lia]; destruct b as [|q|q]; try lia; try reflexivity.
  unfold SF64sub. cbn [integerFloat SFsub cond_Zopp].
  set (ez := Z.min (Zpos (digits2_pos p) - 53) (Zpos (digits2_pos q) - 53)).
  rewrite !aligned_integer by (unfold ez; lia).
  pose proof (digits_53 p ltac:(lia)). pose proof (digits_53 q ltac:(lia)).
  rewrite <- Z.mul_sub_distr_r.
  assert (J : 0 <= - ez) by (unfold ez; lia).
  pose proof (normalize_scaled (Zpos p - Zpos q) (- ez) J) as N.
  rewrite Z.opp_involutive in N. rewrite N.
  apply normalize_integer. lia.
Qed.

Lemma abs_integer (z : Z) :
  Z.abs z < 2 ^ 53 -> abs (JSNumber.ofZ z) = JSNumber.ofZ (Z.abs z).
Proof.
  intros H. apply Prim2SF_inj.
  rewrite abs_spec, !ofZ_integer by lia. now destruct z.
Qed.

(** Integers below 2^53 compare as binary64 numbers the way they compare
    as integers. *)
Lemma compare_integers (a b : Z) :
  0 <= a < 2 ^ 53 -> 0 <= b < 2 ^ 53 ->
  SFcompare (integerFloat a) (integerFloat b) = Some (a ?= b).
Proof.
  intros Ha Hb.
  destruct a as [|p|p]; [| |lia]; destruct b as [|q|q]; try lia; try reflexivity.
  cbn [integerFloat SFcompare]. f_equal.
  pose proof (digits_bounds p) as Bp. pose proof (digits_bounds q) as Bq.
  pose proof (digits_53 p ltac:(lia)) as Dp. pose proof (digits_53 q ltac:(lia)) as Dq.
  change (PosDef.Pos.compare_cont Eq) with Pos.compare.
  destruct (Z.compare_spec (Zpos (digits2_pos p) - 53) (Zpos (digits2_pos q) - 53))
    as [E|L|G].
  - replace (Zpos (digits2_pos q)) with (Zpos (digits2_pos p)) by lia.
    set (j := 53 - Zpos (digits2_pos p)).
    change ((Zpos (scaled p j) ?= Zpos (scaled q j)) = (Zpos p ?= Zpos q)).
    rewrite !scaled_value by (unfold j; lia).
    assert (P : 0 < 2 ^ j) by (apply Z.pow_pos_nonneg; unfold j; lia).
    destruct (Z.compare_spec (Zpos p) (Zpos q)) as [e|l|g].
    + rewrite e. apply Z.compare_refl.
    + apply Z.compare_lt_iff. nia.
    + apply Z.compare_gt_iff. nia.
  - symmetry. apply Z.compare_lt_iff.
    assert (2 ^ Zpos (digits2_pos p) <= 2 ^ (Zpos (digits2_pos q) - 1))
      by (apply Z.pow_le_mono_r; lia).
    lia.
  - symmetry. apply Z.compare_gt_iff.
    assert (2 ^ Zpos (digits2_pos q) <= 2 ^ (Zpos (digits2_pos p) - 1))
      by (apply Z.pow_le_mono_r; lia).
    lia.
Qed.

Lemma ltb_integers (a b : Z) :
  0 <= a < 2 ^ 53 -> 0 <= b < 2 ^ 53 ->
  (JSNumber.ofZ a <? JSNumber.ofZ b)%float = (a <? b).
Proof.
  intros Ha Hb. rewrite ltb_spec, !ofZ_integer by lia.
  unfold SFltb. rewrite compare_integers by assumption.
  unfold Z.ltb. now destruct (a ?= b).
Qed.

Lemma leb_integers (a b : Z) :
  0 <= a < 2 ^ 53 -> 0 <= b < 2 ^ 53 ->
  (JSNumber.ofZ a <=? JSNumber.ofZ b)%float = (a <=? b).
Proof.
  intros Ha Hb. rewrite leb_spec, !ofZ_integer by lia.
  unfold SFleb. rewrite compare_integers by assumption.
  unfold Z.leb. now destruct (a ?= b).
Qed.

Lemma is_nan_integer (z : Z) : Z.abs z < 2 ^ 53 -> is_nan (JSNumber.ofZ z) = false.
Proof.
  intros H. unfold is_nan. rewrite eqb_spec, ofZ_integer by exact H.
  destruct z as [|p|p]; [reflexivity| |]; unfold SFeqb; cbn [integerFloat SFcompare];
    change (PosDef.Pos.compare_cont Eq) with Pos.compare;
    now rewrite Z.compare_refl, Pos.compare_refl.
Qed.

(** The test of the window of [tick], on integers: the distance of two
    seconds of the day is at most 30. *)
Lemma window_integers (s t : Z) :
  0 <= s < 2 ^ 53 -> 0 <= t < 2 ^ 53 ->
  (abs (JSNumber.ofZ s - JSNumber.ofZ t) <=? 30)%float = (Z.abs (s - t) <=? 30).
Proof.
  intros Hs Ht. rewrite sub_integers, abs_integer by lia.
  change 30%float with (JSNumber.ofZ 30).
  apply leb_integers; lia.
Qed.

End IntegerFacts.

(** ** The window of a reminder *)

Module WindowFacts.
Import JSDate JSSet DateFacts StringFacts OrderFacts SetFacts ReminderFacts FloatFacts
       NextReminderFacts TickFacts
       IntegerFacts.

(** The target of a time of the day, computed on binary64 numbers, is
    its second of the day. *)
Lemma target_sum :
  forallb (fun h =>
             forallb (fun m => sameFloat
                                 (Prim2SF (JSNumber.ofZ h * 3600 + JSNumber.ofZ m * 60)%float)
                                 (Prim2SF (JSNumber.ofZ (h * 3600 + m * 60))))
                     (below 60))
          (below 24) = true.
Proof. vm_compute. reflexivity. Qed.

Lemma target_seconds (h m : Z) :
  0 <= h < 24 -> 0 <= m < 60 ->
  (JSNumber.ofZ h * 3600 + JSNumber.ofZ m * 60)%float = JSNumber.ofZ (h * 3600 + m * 60).
Proof.
  intros Hh Hm. pose proof target_sum as C. rewrite forallb_forall in C.
  specialize (C h (below_In 24 h ltac:(lia))). rewrite forallb_forall in C.
  specialize (C m (below_In 60 m ltac:(lia))). now apply same_number.
Qed.

(** A time [HH:MM] passes the guard of [tick]. *)
Lemma valid_clockText (h m : Z) :
  0 <= h < 24 -> 0 <= m < 60 -> validReminder (clockText h m) = true.
Proof.
  intros Hh Hm. unfold validReminder. cbv zeta. rewrite split_clockText.
  cbn [map nth_error]. rewrite !Number_pad by lia.
  unfold invalidTime, JSNumber.isNaN, JSNumber.ToNumber.
  rewrite !is_nan_integer by lia.
  change 0%float with (JSNumber.ofZ 0). change 23%float with (JSNumber.ofZ 23).
  change 59%float with (JSNumber.ofZ 59).
  rewrite !ltb_integers by lia.
  destruct (Z.ltb_spec h 0); [lia|]. destruct (Z.ltb_spec 23 h); [lia|].
  destruct (Z.ltb_spec m 0); [lia|]. destruct (Z.ltb_spec 59 m); [lia|].
  reflexivity.
Qed.

(** The test of [tick] on a time [HH:MM], on integers. *)
Lemma due_clockText (s h m : Z) :
  0 <= s < 86400 -> 0 <= h < 24 -> 0 <= m < 60 ->
  due s (clockText h m) = (Z.abs (s - (h * 3600 + m * 60)) <=? 30).
Proof.
  intros Hs Hh Hm. unfold due. cbv zeta. rewrite valid_clockText by assumption.
  rewrite split_clockText. cbn [map nth_error JSNumber.ToNumber andb].
  rewrite !Number_pad by lia. rewrite target_seconds by assumption.
  apply window_integers; lia.
Qed.

Lemma secondOfDay_range (tza : Z) (now : Date) : 0 <= secondOfDay tza now < 86400.
Proof.
  unfold secondOfDay, getHours, getMinutes, getSeconds,
    HourFromTime, MinFromTime, SecFromTime.
  pose proof (Z.mod_pos_bound (LocalTime tza now / msPerHour) 24 ltac:(lia)).
  pose proof (Z.mod_pos_bound (LocalTime tza now / msPerMinute) 60 ltac:(lia)).
  pose proof (Z.mod_pos_bound (LocalTime tza now / msPerSecond) 60 ltac:(lia)).
  lia.
Qed.

Lemma due_inWindow (tza : Z) (now : Date) (h m : Z) :
  0 <= h < 24 -> 0 <= m < 60 ->
  due (secondOfDay tza now) (clockText h m) = inWindow tza now h m.
Proof. intros Hh Hm. apply due_clockText; [apply secondOfDay_range| |]; assumption. Qed.

Lemma clockText_inj (h m h' m' : Z) :
  0 <= h < 24 -> 0 <= m < 60 -> 0 <= h' < 24 -> 0 <= m' < 60 ->
  clockText h m = clockText h' m' -> h = h' /\ m = m'.
Proof.
  intros Hh Hm Hh' Hm' E.
  assert (L : le (clockText h m) (clockText h' m')).
  { rewrite E. apply ltb_false. now left. }
  assert (G : le (clockText h' m') (clockText h m)).
  { rewrite E. apply ltb_false. now left. }
  apply clockText_le in L; try assumption. apply clockText_le in G; try assumption.
  lia.
Qed.

Lemma list_of_append (x y : string) :
  list_ascii_of_string (x ++ y)
  = list_ascii_of_string x ++ list_ascii_of_string y.
Proof. induction x as [|c x IH]; [reflexivity|]. cbn. now rewrite IH. Qed.

Lemma list_of_length (x : string) :
  List.length (list_ascii_of_string x) = String.length x.
Proof. induction x as [|c x IH]; [reflexivity|]. cbn. now rewrite IH. Qed.

Lemma app_same_length {A : Type} (a b x y : list A) :
  a ++ x = b ++ y -> List.length x = List.length y -> a = b /\ x = y.
Proof.
  revert b. induction a as [|u a IH]; intros [|v b] E L; cbn [app] in E.
  - now split.
  - exfalso. rewrite E in L. cbn [List.length] in L. rewrite length_app in L. lia.
  - exfalso. rewrite <- E in L. cbn [List.length] in L. rewrite length_app in L. lia.
  - injection E as -> E. destruct (IH b E L) as [-> ->]. now split.
Qed.

(** The key of the cache tells the habit id and the reminder time, among
    the times of one length. *)
Lemma key_inj (i i' t t' d : string) :
  String.length t = String.length t' ->
  (i ++ "-" ++ t ++ "-" ++ d = i' ++ "-" ++ t' ++ "-" ++ d)%string ->
  i = i' /\ t = t'.
Proof.
  intros L E.
  assert (E' : list_ascii_of_string (i ++ "-" ++ t ++ "-" ++ d)
               = list_ascii_of_string (i' ++ "-" ++ t' ++ "-" ++ d)) by now rewrite E.
  rewrite !list_of_append in E'.
  apply app_same_length in E'.
  - destruct E' as [Ei Et]. apply app_inv_head in Et.
    apply app_same_length in Et; [|reflexivity]. destruct Et as [Et _].
    rewrite <- (string_of_list_ascii_of_string i), <- (string_of_list_ascii_of_string i'),
      <- (string_of_list_ascii_of_string t), <- (string_of_list_ascii_of_string t').
    now rewrite Ei, Et.
  - rewrite !length_app, !list_of_length. lia.
Qed.

Lemma NoDup_same {A B : Type} (g : A -> B) (k : B) (l : list A) :
  NoDup (map g l) -> (forall x, In x l -> g x = k) -> (List.length l <= 1)%nat.
Proof.
  intros N H. destruct l as [|x [|y l]]; cbn [List.length]; try lia.
  exfalso. cbn [map] in N. apply NoDup_cons_iff in N. destruct N as [N _].
  apply N. left. rewrite (H x), (H y); cbn; auto.
Qed.

Lemma NoDup_map_filter {A B : Type} (g : A -> B) (f : A -> bool) (l : list A) :
  NoDup (map g l) -> NoDup (map g (filter f l)).
Proof.
  induction l as [|x l IH]; intros N; [constructor|].
  cbn [map] in N. apply NoDup_cons_iff in N. destruct N as [Nx N].
  cbn [filter]. destruct (f x); [|now apply IH].
  cbn [map]. constructor; [|now apply IH].
  intros X. apply Nx. apply in_map_iff in X. destruct X as (y & E & Hy).
  apply filter_In in Hy. apply in_map_iff. exists y. now split.
Qed.

(** A round of [tick], from the keys of the cache of the day. *)
Lemma tick_round (tza : Z) (cache : ReminderCache) (habits : list Habit) (now : Date) :
  let dateKey := getDateKey tza now in
  let keys0 := if (date cache =? dateKey)%string then keys cache else [] in
  let result := tick tza cache habits now in
  date (fst result) = dateKey
  /\ incl keys0 (keys (fst result))
  /\ NoDup (map (alertKey dateKey) (snd result))
  /\ (forall b, In b (snd result) ->
        ~ In (alertKey dateKey b) keys0
        /\ exists habit time,
             In habit habits /\ In time (reminders habit)
             /\ due (secondOfDay tza now) time = true
             /\ b = alertOf now dateKey habit time)
  /\ (forall habit time,
        In habit habits -> In time (reminders habit) ->
        due (secondOfDay tza now) time = true ->
        In (cacheKeyOf habit time dateKey) (keys (fst result)))
  /\ (forall k, In k (keys (fst result)) ->
        In k keys0 \/ exists b, In b (snd result) /\ k = alertKey dateKey b).
Proof.
  cbv zeta. rewrite tick_run. cbv zeta.
  set (dateKey := getDateKey tza now).
  set (keys0 := if (date cache =? dateKey)%string then keys cache else []).
  pose proof (run_spec now dateKey (secondOfDay tza now) (reminderPairs habits) (keys0, []))
    as R. cbv zeta in R.
  set (st := fold_left _ (reminderPairs habits) (keys0, [])) in *.
  cbn [fst snd app] in R. destruct R as (I0 & C0 & B & EB & NB & HB & KB).
  cbn [fst snd date keys]. rewrite EB.
  split; [reflexivity|]. split; [exact I0|]. split; [exact NB|].
  split; [|split; [|exact KB]].
  - intros b Hb. destruct (HB b Hb) as (Nb & _ & p & Hp & Dp & Eb).
    split; [exact Nb|]. apply In_reminderPairs in Hp. destruct Hp as [Hh Ht].
    exists (fst p), (snd p). repeat split; assumption.
  - intros habit time Hh Ht D.
    apply (C0 (habit, time)); [|exact D]. now apply In_reminderPairs.
Qed.

Lemma reminds_spec (habitId time : string) (habits : list Habit) :
  reminds habitId time habits = true
  <-> exists habit, In habit habits /\ id habit = habitId /\ In time (reminders habit).
Proof.
  unfold reminds. rewrite existsb_exists. split.
  - intros (habit & Hh & E). apply andb_true_iff in E. destruct E as [Ei Et].
    apply String.eqb_eq in Ei. unfold JSArray.includes in Et.
    apply existsb_exists in Et. destruct Et as (t & Ht & Et).
    apply String.eqb_eq in Et. subst t. now exists habit.
  - intros (habit & Hh & Ei & Ht). exists habit. split; [exact Hh|].
    apply andb_true_iff. split; [now apply String.eqb_eq|].
    unfold JSArray.includes. apply existsb_exists. exists time.
    split; [exact Ht|apply String.eqb_refl].
Qed.

(** What a round does for one habit id and one time [HH:MM], when the
    reminder times of the collection are written [HH:MM]: the key is in
    the cache after the round when it was in the cache of the day or the
    reminder is in its window, and the round emits one alert for it when
    the key was not in the cache and the reminder is in its window, none
    otherwise. *)
Lemma round_key (tza : Z) (cache : ReminderCache) (habits : list Habit) (now : Date)
    (habitId : string) (h m : Z) :
  (forall habit, In habit habits -> Forall clockTime (reminders habit)) ->
  0 <= h < 24 -> 0 <= m < 60 ->
  let dateKey := getDateKey tza now in
  let key := (habitId ++ "-" ++ clockText h m ++ "-" ++ dateKey)%string in
  let fired := (date cache =? dateKey)%string && has (keys cache) key in
  let fires := reminds habitId (clockText h m) habits && inWindow tza now h m in
  let result := tick tza cache habits now in
  has (keys (fst result)) key = fired || fires
  /\ List.length (alertsFor habitId (clockText h m) (snd result))
     = if negb fired && fires then 1%nat else 0%nat.
Proof.
  intros Clock Hh Hm. cbv zeta.
  destruct (tick_round tza cache habits now) as (_ & I0 & NB & HB & C0 & KB).
  cbv zeta in I0, NB, HB, C0, KB.
  set (dateKey := getDateKey tza now) in *.
  set (time := clockText h m).
  set (key := (habitId ++ "-" ++ time ++ "-" ++ dateKey)%string).
  set (keys0 := if (date cache =? dateKey)%string then keys cache else []) in *.
  set (result := tick tza cache habits now) in *.
  set (fires := reminds habitId time habits && inWindow tza now h m).
  assert (F0 : (date cache =? dateKey)%string && has (keys cache) key = has keys0 key).
  { unfold keys0. now destruct (date cache =? dateKey)%string. }
  rewrite F0.
  set (f := fun a : ReminderAlert =>
              (alert_habitId a =? habitId)%string && (alert_time a =? time)%string).
  (* an alert for the habit id and the time is an alert under the key *)
  assert (KeyOf : forall b, In b (snd result) ->
            (f b = true <-> alertKey dateKey b = key)).
  { intros b Hb. unfold f. rewrite andb_true_iff, !String.eqb_eq. split.
    - intros [Ei Et]. unfold alertKey, key. now rewrite Ei, Et.
    - intros E. apply key_inj in E; [exact E|].
      destruct (HB b Hb) as (_ & habit & t & Hhab & Ht & _ & ->).
      cbn [alertOf alert_time].
      pose proof (Clock habit Hhab) as CT. rewrite Forall_forall in CT.
      destruct (CT t Ht) as (h' & m' & _ & _ & ->). reflexivity. }
  (* such an alert is emitted only in the window, under a fresh key *)
  assert (Only : forall b, In b (snd result) -> f b = true ->
            fires = true /\ has keys0 key = false).
  { intros b Hb Fb. pose proof (proj1 (KeyOf b Hb) Fb) as Kb.
    destruct (HB b Hb) as (Nb & habit & t & Hhab & Ht & D & Eb).
    unfold f in Fb. apply andb_true_iff in Fb. destruct Fb as [Ei Et].
    apply String.eqb_eq in Ei, Et. rewrite Eb in Ei, Et.
    cbn [alertOf alert_habitId alert_time] in Ei, Et. subst t.
    split.
    - unfold fires. apply andb_true_iff. split.
      + apply reminds_spec. now exists habit.
      + rewrite <- due_inWindow by assumption. exact D.
    - apply has_false. now rewrite <- Kb. }
  (* in the window, the key gets into the cache *)
  assert (Gets : fires = true -> In key (keys (fst result))).
  { intros W. unfold fires in W. apply andb_true_iff in W. destruct W as [Rm W].
    apply reminds_spec in Rm. destruct Rm as (habit & Hhab & Ei & Ht).
    rewrite <- due_inWindow in W by assumption.
    pose proof (C0 habit time Hhab Ht W) as K. unfold cacheKeyOf in K.
    now rewrite Ei in K. }
  split.
  - destruct (has keys0 key) eqn:H0; cbn [orb].
    + apply has_In. apply I0. now apply has_In.
    + destruct fires eqn:W.
      * apply has_In. now apply Gets.
      * apply has_false. intros K. destruct (KB key K) as [X|(b & Hb & Eb)].
        -- apply has_false in H0. now apply H0.
        -- destruct (Only b Hb) as [X _]; [now apply KeyOf|discriminate].
  - fold f. change (alertsFor habitId time (snd result)) with (filter f (snd result)).
    assert (Le : (List.length (filter f (snd result)) <= 1)%nat).
    { apply (NoDup_same (alertKey dateKey) key).
      - now apply NoDup_map_filter.
      - intros b Hb. apply filter_In in Hb. destruct Hb as [Hb Fb]. now apply KeyOf. }
    destruct (negb (has keys0 key) && fires) eqn:Go.
    + apply andb_true_iff in Go. destruct Go as [H0 W]. apply negb_true_iff in H0.
      destruct (KB key (Gets W)) as [X|(b & Hb & Eb)].
      * apply has_false in H0. now elim H0.
      * assert (Hf : In b (filter f (snd result))).
        { apply filter_In. split; [exact Hb|]. now apply KeyOf. }
        destruct (filter f (snd result)) as [|x l]; [destruct Hf|].
        cbn [List.length] in *. lia.
    + destruct (filter f (snd result)) as [|b l] eqn:E; [reflexivity|exfalso].
      assert (Hf : In b (filter f (snd result))) by (rewrite E; now left).
      apply filter_In in Hf. destruct Hf as [Hb Fb].
      destruct (Only b Hb Fb) as [W H0]. now rewrite W, H0 in Go.
Qed.

(** X26. The window of a reminder.  When the reminder times of the
    collection are written [HH:MM], a round of the evaluator emits alerts
    only for times that the clock is at most 30 seconds away from.  For a
    reminder in that window the key is in the cache after the round, and
    either it was in the cache of the day before the round or the round
    emits an alert for the habit and the time.  For a reminder outside
    it, the round emits no alert with that time. *)
Theorem tick_window (tza : Z) (cache : ReminderCache) (habits : list Habit) (now : Date) :
  (forall habit, In habit habits -> Forall clockTime (reminders habit)) ->
  let dateKey := getDateKey tza now in
  let result := tick tza cache habits now in
  (forall a, In a (snd result) ->
     exists h m, 0 <= h < 24 /\ 0 <= m < 60 /\ alert_time a = clockText h m
                 /\ Z.abs (secondOfDay tza now - (h * 3600 + m * 60)) <= 30)
  /\ (forall habit h m,
        In habit habits -> 0 <= h < 24 -> 0 <= m < 60 ->
        In (clockText h m) (reminders habit) ->
        if Z.abs (secondOfDay tza now - (h * 3600 + m * 60)) <=? 30
        then In (cacheKeyOf habit (clockText h m) dateKey) (keys (fst result))
             /\ ((date cache = dateKey
                  /\ In (cacheKeyOf habit (clockText h m) dateKey) (keys cache))
                 \/ exists a, In a (snd result) /\ alert_habitId a = id habit
                              /\ alert_time a = clockText h m)
        else forall a, In a (snd result) -> alert_time a <> clockText h m).
Proof.
  intros Clock. cbv zeta.
  destruct (tick_round tza cache habits now) as (_ & _ & _ & HB & C0 & KB).
  cbv zeta in HB, C0, KB.
  assert (Times : forall a, In a (snd (tick tza cache habits now)) ->
            exists h m, 0 <= h < 24 /\ 0 <= m < 60 /\ alert_time a = clockText h m
                        /\ inWindow tza now h m = true).
  { intros a Ha. destruct (HB a Ha) as (_ & habit & t & Hhab & Ht & D & ->).
    pose proof (Clock habit Hhab) as CT. rewrite Forall_forall in CT.
    destruct (CT t Ht) as (h & m & Hh & Hm & ->).
    exists h, m. cbn [alertOf alert_time]. repeat split; try lia.
    now rewrite <- due_inWindow. }
  split.
  - intros a Ha. destruct (Times a Ha) as (h & m & Hh & Hm & E & W).
    exists h, m. unfold inWindow in W. apply Z.leb_le in W. now repeat split.
  - intros habit h m Hhab Hh Hm Ht.
    change (Z.abs (secondOfDay tza now - (h * 3600 + m * 60)) <=? 30)
      with (inWindow tza now h m).
    destruct (inWindow tza now h m) eqn:W.
    + rewrite <- due_inWindow in W by assumption.
      pose proof (C0 habit (clockText h m) Hhab Ht W) as K.
      split; [exact K|]. destruct (KB _ K) as [X|(a & Ha & Ea)].
      * left. destruct (date cache =? getDateKey tza now)%string eqn:E; [|destruct X].
        apply String.eqb_eq in E. now split.
      * right. exists a. split; [exact Ha|].
        destruct (Times a Ha) as (h' & m' & _ & _ & Et & _).
        unfold cacheKeyOf, alertKey in Ea. symmetry in Ea.
        apply key_inj in Ea; [exact Ea|]. now rewrite Et.
    + intros a Ha Et. destruct (Times a Ha) as (h' & m' & Hh' & Hm' & Et' & W').
      rewrite Et in Et'. apply clockText_inj in Et'; try assumption.
      destruct Et' as [<- <-]. congruence.
Qed.

Lemma tick_window_witness :
  let now := atLocal exampleZone 19732 7 0 15 in
  let dateKey := getDateKey exampleZone now in
  let result := tick exampleZone (mkReminderCache "" []) exampleHabits now in
  (forall a, In a (snd result) ->
     exists h m, 0 <= h < 24 /\ 0 <= m < 60 /\ alert_time a = clockText h m
                 /\ Z.abs (secondOfDay exampleZone now - (h * 3600 + m * 60)) <= 30)
  /\ (forall habit h m,
        In habit exampleHabits -> 0 <= h < 24 -> 0 <= m < 60 ->
        In (clockText h m) (reminders habit) ->
        if Z.abs (secondOfDay exampleZone now - (h * 3600 + m * 60)) <=? 30
        then In (cacheKeyOf habit (clockText h m) dateKey) (keys (fst result))
             /\ ((date (mkReminderCache "" []) = dateKey
                  /\ In (cacheKeyOf habit (clockText h m) dateKey)
                        (keys (mkReminderCache "" [])))
                 \/ exists a, In a (snd result) /\ alert_habitId a = id habit
                              /\ alert_time a = clockText h m)
        else forall a, In a (snd result) -> alert_time a <> clockText h m).
Proof.
  apply (tick_window exampleZone (mkReminderCache "" []) exampleHabits
           (atLocal exampleZone 19732 7 0 15)).
  intros habit [<-|[<-|[]]].
  - repeat constructor. exists 6, 30. repeat split; lia.
  - repeat constructor; [exists 12, 0|exists 20, 0]; repeat split; lia.
Defined.

Lemma tickRounds_cons (tza : Z) (cache : ReminderCache) (alerts : list ReminderAlert)
    (habits : list Habit) (now : Date) (rest : list (list Habit * Date)) :
  tickRounds tza cache alerts ((habits, now) :: rest)
  = tickRounds tza (fst (tick tza cache habits now))
               (alerts ++ snd (tick tza cache habits now)) rest.
Proof. cbn [tickRounds]. now destruct (tick tza cache habits now). Qed.

(** The rounds of a day, for one habit id and one time [HH:MM]. *)
Lemma rounds_key (tza : Z) (dateKey habitId : string) (h m : Z)
    (rounds : list (list Habit * Date)) :
  0 <= h < 24 -> 0 <= m < 60 ->
  Forall (fun round =>
            getDateKey tza (snd round) = dateKey
            /\ forall habit, In habit (fst round) -> Forall clockTime (reminders habit))
         rounds ->
  forall cache alerts,
    let key := (habitId ++ "-" ++ clockText h m ++ "-" ++ dateKey)%string in
    let fired := (date cache =? dateKey)%string && has (keys cache) key in
    let fires :=
      existsb (fun round => reminds habitId (clockText h m) (fst round)
                            && inWindow tza (snd round) h m) rounds in
    let result := tickRounds tza cache alerts rounds in
    (date (fst result) =? dateKey)%string && has (keys (fst result)) key = fired || fires
    /\ List.length (alertsFor habitId (clockText h m) (snd result))
       = (List.length (alertsFor habitId (clockText h m) alerts)
          + if negb fired && fires then 1 else 0)%nat.
Proof.
  intros Hh Hm. induction 1 as [|[habits now] rest [Day Clock] _ IH];
    intros cache alerts; cbv zeta.
  - cbn [tickRounds existsb fst snd]. rewrite orb_false_r, andb_false_r. split; [reflexivity|lia].
  - cbn [fst snd] in Day, Clock. rewrite tickRounds_cons. cbn [existsb fst snd].
    destruct (round_key tza cache habits now habitId h m Clock Hh Hm) as [K1 N1].
    cbv zeta in K1, N1. rewrite Day in K1, N1.
    pose proof (tick_round tza cache habits now) as D1. cbv zeta in D1.
    destruct D1 as (D1 & _). rewrite Day in D1.
    specialize (IH (fst (tick tza cache habits now))
                   (alerts ++ snd (tick tza cache habits now))).
    cbv zeta in IH. destruct IH as [K2 N2].
    rewrite D1, String.eqb_refl in K2, N2. cbn [andb] in K2, N2.
    rewrite K1 in K2, N2.
    split.
    + rewrite K2. now rewrite orb_assoc.
    + rewrite N2. unfold alertsFor at 1. rewrite filter_app, length_app.
      fold (alertsFor habitId (clockText h m) alerts).
      fold (alertsFor habitId (clockText h m) (snd (tick tza cache habits now))).
      rewrite N1.
      destruct ((date cache =? dateKey)%string
                && has (keys cache)
                     (habitId ++ "-" ++ clockText h m ++ "-" ++ dateKey)%string);
        destruct (reminds habitId (clockText h m) habits && inWindow tza now h m);
        destruct (existsb _ rest); cbn; lia.
Qed.

(** X27. A reminder fires once a day.  Take the rounds of a day of the
    evaluator, whatever the collections and the clock readings are, with
    reminder times written [HH:MM].  For a habit id and a time, the alerts
    gain exactly one alert when the key was not in the cache of the day
    at the start and some round finds a habit of that id with that
    reminder while the clock is at most 30 seconds away from the time;
    they gain none for the id and the time otherwise.  The key is in
    the cache of the day at the end exactly when it was there at the
    start or such a round took place. *)
Theorem reminder_fires_once (tza : Z) (dateKey : string) (cache : ReminderCache)
    (alerts : list ReminderAlert) (rounds : list (list Habit * Date))
    (habitId : string) (h m : Z) :
  Forall (fun round =>
            getDateKey tza (snd round) = dateKey
            /\ forall habit, In habit (fst round) -> Forall clockTime (reminders habit))
         rounds ->
  0 <= h < 24 -> 0 <= m < 60 ->
  let key := (habitId ++ "-" ++ clockText h m ++ "-" ++ dateKey)%string in
  let fired := (date cache =? dateKey)%string && has (keys cache) key in
  let fires :=
    existsb (fun round => reminds habitId (clockText h m) (fst round)
                          && inWindow tza (snd round) h m) rounds in
  let result := tickRounds tza cache alerts rounds in
  List.length (alertsFor habitId (clockText h m) (snd result))
  = (List.length (alertsFor habitId (clockText h m) alerts)
     + if negb fired && fires then 1 else 0)%nat
  /\ (date (fst result) =? dateKey)%string && has (keys (fst result)) key = fired || fires.
Proof.
  intros Rounds Hh Hm. cbv zeta.
  destruct (rounds_key tza dateKey habitId h m rounds Hh Hm Rounds cache alerts) as [K N].
  cbv zeta in K, N. now split.
Qed.

Lemma reminder_fires_once_witness :
  let rounds := [([exampleWalker], atLocal exampleZone 19732 6 59 45);
                 (exampleWalker :: exampleHabits, atLocal exampleZone 19732 7 0 15)] in
  let cache := mkReminderCache "" [] in
  let key := ("habit-7" ++ "-" ++ clockText 7 0 ++ "-" ++ "2024-01-10")%string in
  let fired := (date cache =? "2024-01-10")%string && has (keys cache) key in
  let fires :=
    existsb (fun round => reminds "habit-7" (clockText 7 0) (fst round)
                          && inWindow exampleZone (snd round) 7 0) rounds in
  let result := tickRounds exampleZone cache [] rounds in
  List.length (alertsFor "habit-7" (clockText 7 0) (snd result))
  = (List.length (alertsFor "habit-7" (clockText 7 0) [])
     + if negb fired && fires then 1 else 0)%nat
  /\ (date (fst result) =? "2024-01-10")%string && has (keys (fst result)) key
     = fired || fires.
Proof.
  apply (reminder_fires_once exampleZone "2024-01-10" (mkReminderCache "" []) []
           [([exampleWalker], atLocal exampleZone 19732 6 59 45);
            (exampleWalker :: exampleHabits, atLocal exampleZone 19732 7 0 15)]
           "habit-7" 7 0); [|lia|lia].
  repeat constructor; cbn [fst snd].
  - intros habit [<-|[]]. repeat constructor. exists 7, 0. repeat split; lia.
  - intros habit [<-|[<-|[<-|[]]]].
    + repeat constructor. exists 7, 0. repeat split; lia.
    + repeat constructor. exists 6, 30. repeat split; lia.
    + repeat constructor; [exists 12, 0|exists 20, 0]; repeat split; lia.
Defined.

Example reminder_fires_once_example :
  let result := tickRounds exampleZone (mkReminderCache "" []) []
                  [([exampleWalker], atLocal exampleZone 19732 6 59 45);
                   (exampleWalker :: exampleHabits, atLocal exampleZone 19732 7 0 15);
                   ([exampleWalker], atLocal exampleZone 19733 7 0 0)] in
  map alert_id (snd result)
  = ["habit-7-07:00-2024-01-10-1704887985000"; "habit-7-07:00-2024-01-11-1704974400000"]
  /\ fst result = mkReminderCache "2024-01-11" ["habit-7-07:00-2024-01-11"].
Proof. vm_compute. split; reflexivity. Qed.

End WindowFacts.

(** ** The entries that a round skips *)

Module GuardFacts.
Import JSDate JSString JSSet DateFacts StringFacts OrderFacts SetFacts ReminderFacts
       ClassFacts FloatFacts NextReminderFacts TickFacts IntegerFacts WindowFacts.

(** *** Parts that are decimal integers *)

















(** *** Parts that are not numeric *)












(** *** The guard *)











Example neverFires_examples :
  map neverFires ["25:00"; "12:75"; "-1:00"; "ab:cz"; "7 p.m.:00"; "noon"; "12";
                  "07:00"; "7:5"; "12:"; "0xA:30"; "-0:30"; "1e1:00"]
  = [true; true; true; true; true; true; true;
     false; false; false; false; false; false].
Proof. vm_compute. reflexivity. Qed.

End GuardFacts.
